(** * ClassMate Idea Hub: the validation and submission core of the backend

    A shallow embedding of [backend/server.js] (and of its second variant,
    the other copy of [backend/server.js] found in the repository), with the
    client-side checks of [js/app.js] that the specification compares the
    server against.

    The development has two models of a submission.

    The first takes a submission as the body it carries.
    - A JavaScript string is a [string]: a sequence of 8-bit characters, read
      as UTF-16 code units below 256.  On such strings [str.length] is
      [String.length] and the validator library's length count agrees with it.
      The message texts of the source are kept as the bytes of the file.
    - A request is represented by its parsed body, a finite map from field
      names to JSON scalars; a field that is absent reads as [undefined].
      A number [JNum n] is an integer whose [String(n)] is its decimal
      numeral (below 2^53 in absolute value).
    It carries the results on the answers of the routes, the listing, the
    two copies of the server and the patterns of the client.

    The second takes the whole request ("Requests in full" below).
    - A text is the list of its UTF-16 code units, any of them; the length
      count of [isLength] counts a surrogate pair once and skips the
      variation selectors U+FE0E and U+FE0F, [str.length] counts code units.
    - A field may come in the body, the headers or the query string, as a
      scalar or as a list of scalars; [check] validates it wherever it is
      and element by element, the handlers read [req.body].
    It carries the results on what the routes accept and store and on the
    forms of the client against the server.  On a request that holds a body
    of the first model and nothing else the two models agree
    ([Agreement.routes_agree]).

    In both models:
    - [express-validator] and [validator.js] are libraries outside the
      repository.  Their primitives used by the server ([trim], [isLength],
      [isEmpty], [matches], [isInt]) are modelled after the behaviour of the libraries;
      [isEmail] is kept abstract in a class.
    - The relational store is outside the repository as well: a call of
      [pool.execute] either completes or throws, which the environment
      decides per request ([Db.outcome]).  A row holds the parameters bound
      by its insert, and a listing returns them as they were bound.
    - The local time zone of the browser is a parameter of the date check
      ([Dates.TimeZone]): it says which calendar days the zone skipped. *)

From Stdlib Require Import ZArith Ascii String List Lia Bool.
From stdpp Require Import base decidable option list strings pretty gmap sorting.

Local Open Scope string_scope.

(* ===================================================================== *)
(** ** Characters and strings *)

Module Chars.

Definition code (a : ascii) : N := N_of_ascii a.

(** [\d] of a JavaScript regular expression without the unicode flag. *)
Definition is_digit (a : ascii) : bool :=
  ((48 <=? code a) && (code a <=? 57))%N.

(** [[A-Za-z]]. *)
Definition is_alpha (a : ascii) : bool :=
  (((65 <=? code a) && (code a <=? 90)) || ((97 <=? code a) && (code a <=? 122)))%N.

(** [\s] restricted to code units below 256: TAB, LF, VT, FF, CR, SP, NBSP. *)
Definition is_space (a : ascii) : bool :=
  (((9 <=? code a) && (code a <=? 13)) || (code a =? 32) || (code a =? 160))%N.

(** [String.prototype.trimStart], as [validator.ltrim] without [chars]. *)
Fixpoint ltrim (s : string) : string :=
  match s with
  | EmptyString => EmptyString
  | String a s' => if is_space a then ltrim s' else s
  end.

(** [validator.rtrim] without [chars]: drop the trailing white space. *)
Fixpoint rtrim (s : string) : string :=
  match s with
  | EmptyString => EmptyString
  | String a s' =>
      match rtrim s' with
      | EmptyString => if is_space a then EmptyString else String a EmptyString
      | t => String a t
      end
  end.

(** [validator.trim(str)] is [rtrim(ltrim(str))]. *)
Definition trim (s : string) : string := rtrim (ltrim s).

Fixpoint all_chars (p : ascii -> bool) (s : string) : bool :=
  match s with
  | EmptyString => true
  | String a s' => p a && all_chars p s'
  end.

End Chars.

(* ===================================================================== *)
(** ** Regular expressions

    The patterns of the source are anchored ([^...$]) and use no flags, so
    [RegExp.prototype.test] decides membership of the whole string in the
    language of the pattern between the anchors.  [re_test] decides that
    membership with Brzozowski derivatives; [lang] is the language. *)

Module Regex.

Inductive cls : Type :=
| CChar (a : ascii)      (* a literal character *)
| CDigit                 (* \d *)
| CAlpha                 (* [A-Za-z] *)
| CSign                  (* [-+] *)
| CNotSpaceAt.           (* [^\s@] *)

Definition cls_mem (c : cls) (a : ascii) : bool :=
  match c with
  | CChar b => if decide (a = b) then true else false
  | CDigit => Chars.is_digit a
  | CAlpha => Chars.is_alpha a
  | CSign => if decide (a = "-"%char) then true
             else if decide (a = "+"%char) then true else false
  | CNotSpaceAt => negb (Chars.is_space a) &&
                   (if decide (a = "@"%char) then false else true)
  end.

Inductive regex : Type :=
| Void
| Eps
| Sym (c : cls)
| Cat (r1 r2 : regex)
| Alt (r1 r2 : regex)
| Star (r : regex).

(** [r?] *)
Definition Opt (r : regex) : regex := Alt r Eps.

(** [r{n}] *)
Fixpoint Rep (n : nat) (r : regex) : regex :=
  match n with
  | O => Eps
  | S n' => Cat r (Rep n' r)
  end.

(** [r{n,}] *)
Definition AtLeast (n : nat) (r : regex) : regex := Cat (Rep n r) (Star r).

(** [r{m,n}] with [m <= n], written [r{m}(r?){n-m}]. *)
Definition Between (m n : nat) (r : regex) : regex :=
  Cat (Rep m r) (Rep (n - m) (Opt r)).

(** A literal run of characters. *)
Fixpoint Lit (s : string) : regex :=
  match s with
  | EmptyString => Eps
  | String a s' => Cat (Sym (CChar a)) (Lit s')
  end.

Fixpoint nullable (r : regex) : bool :=
  match r with
  | Void => false
  | Eps => true
  | Sym _ => false
  | Cat r1 r2 => nullable r1 && nullable r2
  | Alt r1 r2 => nullable r1 || nullable r2
  | Star _ => true
  end.

Fixpoint deriv (a : ascii) (r : regex) : regex :=
  match r with
  | Void => Void
  | Eps => Void
  | Sym c => if cls_mem c a then Eps else Void
  | Cat r1 r2 =>
      if nullable r1
      then Alt (Cat (deriv a r1) r2) (deriv a r2)
      else Cat (deriv a r1) r2
  | Alt r1 r2 => Alt (deriv a r1) (deriv a r2)
  | Star r1 => Cat (deriv a r1) (Star r1)
  end.

(** [/^r$/.test(s)] *)
Fixpoint re_test (r : regex) (s : string) : bool :=
  match s with
  | EmptyString => nullable r
  | String a s' => re_test (deriv a r) s'
  end.

Inductive lang : regex -> string -> Prop :=
| L_Eps : lang Eps ""
| L_Sym c a : cls_mem c a = true -> lang (Sym c) (String a "")
| L_Cat r1 r2 s1 s2 : lang r1 s1 -> lang r2 s2 -> lang (Cat r1 r2) (s1 +:+ s2)
| L_AltL r1 r2 s : lang r1 s -> lang (Alt r1 r2) s
| L_AltR r1 r2 s : lang r2 s -> lang (Alt r1 r2) s
| L_StarNil r : lang (Star r) ""
| L_StarCons r s1 s2 : lang r s1 -> lang (Star r) s2 -> lang (Star r) (s1 +:+ s2).

End Regex.


(* ===================================================================== *)
(** ** JavaScript values of a request body *)

Module Js.

Inductive value : Type :=
| JUndefined
| JNull
| JBool (b : bool)
| JNum (n : Z)
| JStr (s : string).

#[global] Instance value_eq_dec : EqDecision value.
Proof. solve_decision. Defined.

(** [toString] of express-validator, applied to a value before every
    standard validator and sanitizer: [null] and [undefined] become the
    empty string, everything else goes through [String(value)]. *)
Definition toString (v : value) : string :=
  match v with
  | JUndefined => ""
  | JNull => ""
  | JBool true => "true"
  | JBool false => "false"
  | JNum n => pretty n
  | JStr s => s
  end.

(** [ToBoolean]. *)
Definition truthy (v : value) : bool :=
  match v with
  | JUndefined => false
  | JNull => false
  | JBool b => b
  | JNum n => negb (n =? 0)%Z
  | JStr s => negb (String.eqb s "")
  end.

(** [v || d] *)
Definition or_else (v d : value) : value := if truthy v then v else d.

(** [req.body[f]]: a missing property reads as [undefined]. *)
Definition get (b : gmap string value) (f : string) : value :=
  default JUndefined (b !! f).

End Js.

Abbreviation body := (gmap string Js.value).

(* ===================================================================== *)
(** ** The validator library *)

(** [isEmail] of validator.js with its default options is not modelled;
    every result below holds for any such predicate. *)
Class ValidatorLib : Type := { isEmail : string -> bool }.

Module Validator.
Import Chars Regex Js.

(** [/^[-+]?[0-9]+$/], the pattern [isInt] uses when leading zeroes are
    allowed (the default). *)
Definition intLeadingZeroes : regex := Cat (Opt (Sym CSign)) (AtLeast 1 (Sym CDigit)).

Definition digit_value (a : ascii) : Z := (Z.of_N (code a) - 48)%Z.

Fixpoint digits_value (acc : Z) (s : string) : Z :=
  match s with
  | EmptyString => acc
  | String a s' => digits_value (10 * acc + digit_value a)%Z s'
  end.

(** [Number(str)] on the strings [intLeadingZeroes] accepts; [None] stands
    for every other string, which [isInt] rejects whatever its number is. *)
Definition to_number (s : string) : option Z :=
  if re_test intLeadingZeroes s then
    match s with
    | String "-"%char s' => Some (- digits_value 0 s')%Z
    | String "+"%char s' => Some (digits_value 0 s')
    | _ => Some (digits_value 0 s)
    end
  else None.

(** [isLength(str, {min, max})] *)
Definition isLength (min max : nat) (s : string) : bool :=
  (min <=? String.length s)%nat && (String.length s <=? max)%nat.

(** [isEmpty(str)] *)
Definition isEmpty (s : string) : bool := (String.length s =? 0)%nat.

(** [matches(str, /^r$/)] *)
Definition matches (r : regex) (s : string) : bool := re_test r s.

(** [isInt(str, {min, max})]:
    [regex.test(str) && str >= min && str <= max]. *)
Definition isInt (min max : Z) (s : string) : bool :=
  re_test intLeadingZeroes s &&
  match to_number s with
  | Some n => (min <=? n)%Z && (n <=? max)%Z
  | None => false
  end.

(** The standard validators the server attaches to its fields. *)
Inductive validator : Type :=
| IsLength (min max : nat)
| NotEmpty
| Matches (r : regex)
| IsEmail
| IsInt (min max : Z).

Definition eval `{ValidatorLib} (v : validator) (s : string) : bool :=
  match v with
  | IsLength lo hi => isLength lo hi s
  | NotEmpty => negb (isEmpty s)
  | Matches r => matches r s
  | IsEmail => isEmail s
  | IsInt lo hi => isInt lo hi s
  end.

(** One entry of a validation chain's stack. *)
Inductive item : Type :=
| Trim
| Validate (v : validator) (msg : string).

(** [check(field)] followed by its chained calls. *)
Record chain : Type := Chain { field : string; stack : list item }.

Definition check (f : string) : chain := Chain f [].

Definition push (i : item) (c : chain) : chain :=
  Chain (field c) (stack c ++ [i])%list.

(** The message of a validator that was given none. *)
Definition default_msg : string := "Invalid value".

Definition trim_ (c : chain) : chain := push Trim c.
Definition isLength_ (lo hi : nat) (c : chain) : chain :=
  push (Validate (IsLength lo hi) default_msg) c.
Definition notEmpty_ (c : chain) : chain := push (Validate NotEmpty default_msg) c.
Definition matches_ (r : regex) (c : chain) : chain :=
  push (Validate (Matches r) default_msg) c.
Definition isEmail_ (c : chain) : chain := push (Validate IsEmail default_msg) c.
Definition isInt_ (lo hi : Z) (c : chain) : chain :=
  push (Validate (IsInt lo hi) default_msg) c.

Definition is_validator (i : item) : bool :=
  match i with
  | Trim => false
  | Validate _ _ => true
  end.

(** [.withMessage(m)] sets the message of the last validator of the stack. *)
Fixpoint set_last_msg (m : string) (l : list item) : list item :=
  match l with
  | [] => []
  | i :: l' =>
      if existsb is_validator l' then i :: set_last_msg m l'
      else match i with
           | Validate v _ => Validate v m :: l'
           | Trim => i :: l'
           end
  end.

Definition withMessage (m : string) (c : chain) : chain :=
  Chain (field c) (set_last_msg m (stack c)).

(** One entry of [validationResult(req).array()]. *)
Record verror : Type := VError {
  err_value : value;
  err_msg : string;
  err_path : string;
  err_location : string
}.

(** Running the stack of a chain on the current value of its field:
    a sanitizer replaces the value, a validator that rejects the
    stringified value records an error. *)
Fixpoint run_stack `{ValidatorLib} (f : string) (items : list item) (v : value)
  : value * list verror :=
  match items with
  | [] => (v, [])
  | Trim :: k => run_stack f k (JStr (trim (toString v)))
  | Validate vd m :: k =>
      let r := run_stack f k v in
      (r.1, if eval vd (toString v) then r.2 else VError v m f "body" :: r.2)
  end.

(** Running a chain as a middleware: the sanitized value is written back to
    [req.body] when it differs from what the body holds. *)
Definition run_chain `{ValidatorLib} (c : chain) (b : body) : body * list verror :=
  let v0 := get b (field c) in
  let r := run_stack (field c) (stack c) v0 in
  (if decide (r.1 = v0) then b else <[field c := r.1]> b, r.2).

(** The chains of a route run in order; their errors accumulate. *)
Fixpoint run_chains `{ValidatorLib} (cs : list chain) (b : body) : body * list verror :=
  match cs with
  | [] => (b, [])
  | c :: k =>
      let r1 := run_chain c b in
      let r2 := run_chains k r1.1 in
      (r2.1, (r1.2 ++ r2.2)%list)
  end.

(** What a chain leaves in the body for a field holding [v]. *)
Definition sanitized `{ValidatorLib} (c : chain) (v : value) : value :=
  (run_stack (field c) (stack c) v).1.

(** The errors a chain records for a field holding [v]. *)
Definition errors_of `{ValidatorLib} (c : chain) (v : value) : list verror :=
  (run_stack (field c) (stack c) v).2.

(** A chain accepts a value when it records no error for it. *)
Definition accepts `{ValidatorLib} (c : chain) (v : value) : bool :=
  match errors_of c v with
  | [] => true
  | _ :: _ => false
  end.

(** The messages attached to the validators of a chain. *)
Definition messages (c : chain) : list string :=
  omap (fun i => match i with Validate _ m => Some m | Trim => None end) (stack c).

(** The validators of a chain, without their messages. *)
Definition rules (c : chain) : string * list (option validator) :=
  (field c,
   map (fun i => match i with Validate v _ => Some v | Trim => None end) (stack c)).

(** The message of the last validator of a chain. *)
Definition message_of (c : chain) : string := default default_msg (last (messages c)).

(** What an error tells the client: the field and the message. *)
Definition report (e : verror) : string * string := (err_path e, err_msg e).



(** An error without its message. *)
Definition strip (e : verror) : value * string * string :=
  (err_value e, err_path e, err_location e).

(** The chains of a route that the body violates, in the order of the route. *)
Definition violated `{ValidatorLib} (cs : list chain) (b : body) : list chain :=
  filter (fun c => accepts c (get b (field c)) = false) cs.

End Validator.

Notation "c |> f" := (f c) (at level 45, left associativity, only parsing).

(* ===================================================================== *)
(** ** The store and the responses *)

Module Db.
Import Js.

(** A row of [contact_messages]: the eight bound parameters of the insert. *)
Record contact_row : Type := ContactRow {
  first_name : value;
  last_name : value;
  gender : value;
  mobile : value;
  dob : value;
  email : value;
  language : value;
  message : value
}.

(** A row of [projects]: the twelve bound parameters of the insert. *)
Record project_row : Type := ProjectRow {
  team_name : value;
  team_size : value;
  rep_name : value;
  rep_id : value;
  rep_email : value;
  other_members : value;
  course_code : value;
  category : value;
  project_type : value;
  project_name : value;
  description : value;
  tools : value
}.

(** The two tables.  [projects] is keyed by its primary identifier. *)
Record store : Type := Store {
  contact_messages : list contact_row;
  projects : gmap N project_row
}.

Definition empty_store : store := Store [] ∅.

(** Whether a call of [pool.execute] completes or throws. *)
Inductive outcome : Type := Completes | Throws.

Definition max_id (t : gmap N project_row) : N :=
  foldr N.max 0%N (map fst (map_to_list t)).

(** Modelled from the spec: the table definition of [projects] is not in the
    repository; the store assigns "a monotonically increasing identifier",
    here the successor of the largest identifier in use. *)
Definition next_id (t : gmap N project_row) : N := N.succ (max_id t).

(** [insert into contact_messages (...) values (...)] *)
Definition insert_contact (r : contact_row) (st : store) : store :=
  Store (contact_messages st ++ [r])%list (projects st).

(** [insert into projects (...) values (...)] *)
Definition insert_project (r : project_row) (st : store) : store :=
  Store (contact_messages st) (<[next_id (projects st) := r]> (projects st)).

(** [order by id desc] *)
Definition id_desc (x y : N * project_row) : Prop := (y.1 ≤ x.1)%N.

#[global] Instance id_desc_dec : RelDecision id_desc.
Proof. intros x y; unfold id_desc; apply _. Defined.

(** [select ... from projects order by id desc], before the projection. *)
Definition select_desc (st : store) : list (N * project_row) :=
  merge_sort id_desc (map_to_list (projects st)).

End Db.

Module Http.
Import Js Validator.

(** A result row as the driver returns it: column names with their values,
    in the order of the select list. *)
Definition row : Type := list (string * value).

(** The four JSON bodies the handlers send. *)
Inductive payload : Type :=
| OkMsg (msg : string)              (* {status: "ok", msg} *)
| OkData (data : list row)          (* {status: "ok", data} *)
| ErrErrors (errors : list verror)  (* {status: "error", errors} *)
| ErrMsg (msg : string).            (* {status: "error", msg} *)

Record response : Type := Response { status_code : nat; json : payload }.

(** [res.json(x)] answers with status 200. *)
Definition res_json (p : payload) : response := Response 200 p.

(** [res.status(n).json(x)] *)
Definition res_status_json (n : nat) (p : payload) : response := Response n p.

(** The [status] property of a body. *)
Definition status_of (p : payload) : string :=
  match p with
  | OkMsg _ => "ok"
  | OkData _ => "ok"
  | ErrErrors _ => "error"
  | ErrMsg _ => "error"
  end.

(** The property names of a body. *)
Definition keys_of (p : payload) : list string :=
  match p with
  | OkMsg _ => ["status"; "msg"]
  | OkData _ => ["status"; "data"]
  | ErrErrors _ => ["status"; "errors"]
  | ErrMsg _ => ["status"; "msg"]
  end.

(** The records of a listing response. *)
Definition listed (r : response) : list row :=
  match json r with
  | OkData d => d
  | _ => []
  end.

End Http.

(* ===================================================================== *)
(** ** backend/server.js *)

Module Server.
Import Chars Regex Js Validator Db Http.

(** [/^(\+?9665\d{8}|05\d{8})$/] *)
Definition mobile_re : regex :=
  Alt (Cat (Opt (Sym (CChar "+"))) (Cat (Lit "9665") (Rep 8 (Sym CDigit))))
      (Cat (Lit "05") (Rep 8 (Sym CDigit))).

(** [/^\d{7}$/] *)
Definition repId_re : regex := Rep 7 (Sym CDigit).

(** [/^[A-Za-z]{2,}\d{2,}$/] *)
Definition courseCode_re : regex :=
  Cat (AtLeast 2 (Sym CAlpha)) (AtLeast 2 (Sym CDigit)).

Definition check_firstName : chain :=
  check "firstName" |> trim_ |> isLength_ 2 30
    |> withMessage "first name must be 2–30 characters".

Definition check_lastName : chain :=
  check "lastName" |> trim_ |> isLength_ 2 30
    |> withMessage "last name must be 2–30 characters".

Definition check_gender : chain :=
  check "gender" |> notEmpty_ |> withMessage "please select a gender".

Definition check_mobile : chain :=
  check "mobile" |> trim_ |> matches_ mobile_re
    |> withMessage "use saudi format: +9665xxxxxxxx or 05xxxxxxxx".

Definition check_dob : chain :=
  check "dob" |> trim_ |> notEmpty_ |> withMessage "dob is required".

Definition check_email : chain :=
  check "email" |> trim_ |> isEmail_ |> withMessage "enter a valid email".

Definition check_language : chain :=
  check "language" |> notEmpty_ |> withMessage "choose at least one language".

Definition check_message : chain :=
  check "message" |> trim_ |> isLength_ 10 1000
    |> withMessage "message must be between 10 and 1000 characters".

(** The validators of [POST /api/contact]. *)
Definition contact_validators : list chain :=
  [ check_firstName; check_lastName; check_gender; check_mobile;
    check_dob; check_email; check_language; check_message ].

Definition check_teamName : chain :=
  check "teamName" |> trim_ |> isLength_ 3 50
    |> withMessage "team name must be 3–50 characters".

Definition check_teamSize : chain :=
  check "teamSize" |> isInt_ 1 10
    |> withMessage "team size must be between 1 and 10".

Definition check_repName : chain :=
  check "repName" |> trim_ |> isLength_ 3 50
    |> withMessage "representative name must be 3–50 characters".

Definition check_repId : chain :=
  check "repId" |> trim_ |> matches_ repId_re
    |> withMessage "representative id must be exactly 7 digits".

Definition check_repEmail : chain :=
  check "repEmail" |> trim_ |> isEmail_
    |> withMessage "representative email must be valid".

Definition check_courseCode : chain :=
  check "courseCode" |> trim_ |> matches_ courseCode_re
    |> withMessage "course code must look like ccsw321".

Definition check_category : chain :=
  check "category" |> notEmpty_ |> withMessage "major / track is required".

Definition check_projectType : chain :=
  check "projectType" |> notEmpty_ |> withMessage "project type is required".

Definition check_projectName : chain :=
  check "projectName" |> trim_ |> isLength_ 3 60
    |> withMessage "project title must be 3–60 characters".

Definition check_projectDesc : chain :=
  check "projectDesc" |> trim_ |> isLength_ 10 400
    |> withMessage "description must be 10–400 characters".

(** The validators of [POST /api/project]. *)
Definition project_validators : list chain :=
  [ check_teamName; check_teamSize; check_repName; check_repId;
    check_repEmail; check_courseCode; check_category; check_projectType;
    check_projectName; check_projectDesc ].

(** The parameters bound by the insert of the contact handler. *)
Definition contact_params (b : body) : contact_row :=
  ContactRow (get b "firstName") (get b "lastName") (get b "gender")
             (get b "mobile") (get b "dob") (get b "email")
             (get b "language") (get b "message").

(** The parameters bound by the insert of the project handler. *)
Definition project_params (b : body) : project_row :=
  ProjectRow (get b "teamName") (get b "teamSize") (get b "repName")
             (get b "repId") (get b "repEmail")
             (or_else (get b "otherMembers") (JStr ""))
             (get b "courseCode") (get b "category") (get b "projectType")
             (get b "projectName") (get b "projectDesc")
             (or_else (get b "tools") (JStr "")).

(** [app.post("/api/contact", [...], async (req, res) => ...)] *)
Definition post_contact `{ValidatorLib} (o : outcome) (b : body) (st : store)
  : response * store :=
  let r := run_chains contact_validators b in
  match r.2 with
  | _ :: _ => (res_status_json 400 (ErrErrors r.2), st)
  | [] =>
      match o with
      | Completes =>
          (res_json (OkMsg "your message was received successfully ✔"),
           insert_contact (contact_params r.1) st)
      | Throws =>
          (res_status_json 500 (ErrMsg "database error while saving your message."),
           st)
      end
  end.

(** [app.post("/api/project", [...], async (req, res) => ...)] *)
Definition post_project `{ValidatorLib} (o : outcome) (b : body) (st : store)
  : response * store :=
  let r := run_chains project_validators b in
  match r.2 with
  | _ :: _ => (res_status_json 400 (ErrErrors r.2), st)
  | [] =>
      match o with
      | Completes =>
          (res_json (OkMsg "team project idea saved successfully ✔"),
           insert_project (project_params r.1) st)
      | Throws =>
          (res_status_json 500 (ErrMsg "database error while saving project."),
           st)
      end
  end.

(** The select list of the listing query. *)
Definition project_listing (e : N * project_row) : row :=
  [ ("id", JNum (Z.of_N e.1));
    ("team_name", team_name e.2);
    ("team_size", team_size e.2);
    ("other_members", other_members e.2);
    ("course_code", course_code e.2);
    ("category", category e.2);
    ("project_type", project_type e.2);
    ("project_name", project_name e.2);
    ("rep_name", rep_name e.2);
    ("description", description e.2);
    ("tools", tools e.2) ].

(** [app.get("/api/projects", async (req, res) => ...)] *)
Definition get_projects (o : outcome) (st : store) : response * store :=
  match o with
  | Completes => (res_json (OkData (map project_listing (select_desc st))), st)
  | Throws =>
      (res_status_json 500 (ErrMsg "database error while loading projects."), st)
  end.

(** The requests the model serves, and the server as a transition system. *)
Inductive request : Type :=
| PostContact (b : body)
| PostProject (b : body)
| GetProjects.

Definition handle `{ValidatorLib} (o : outcome) (rq : request) (st : store)
  : response * store :=
  match rq with
  | PostContact b => post_contact o b st
  | PostProject b => post_project o b st
  | GetProjects => get_projects o st
  end.

Inductive reachable `{ValidatorLib} : store -> Prop :=
| reach_empty : reachable empty_store
| reach_step st o rq : reachable st -> reachable (handle o rq st).2.

(** A body passes the validators of a route when they collect no error. *)
Definition passes `{ValidatorLib} (cs : list chain) (b : body) : Prop :=
  (run_chains cs b).2 = [].




(** The routes that write to the store. *)
Definition is_post (rq : request) : Prop :=
  match rq with
  | PostContact _ => True
  | PostProject _ => True
  | GetProjects => False
  end.

Definition validators_for (rq : request) : list chain :=
  match rq with
  | PostContact _ => contact_validators
  | PostProject _ => project_validators
  | GetProjects => []
  end.

Definition body_of (rq : request) : body :=
  match rq with
  | PostContact b => b
  | PostProject b => b
  | GetProjects => ∅
  end.

Definition passes_request `{ValidatorLib} (rq : request) : Prop :=
  passes (validators_for rq) (body_of rq).


(** What [.trim()] leaves in the body. *)
Definition trimmed (v : value) : value := JStr (trim (toString v)).

(** The fields of a contact submission as its validators leave them. *)
Definition validated_contact (b : body) : contact_row :=
  ContactRow (trimmed (get b "firstName")) (trimmed (get b "lastName"))
             (get b "gender") (trimmed (get b "mobile")) (trimmed (get b "dob"))
             (trimmed (get b "email")) (get b "language")
             (trimmed (get b "message")).

(** The fields of a project submission as its validators leave them, the
    two optional fields defaulted. *)
Definition validated_project (b : body) : project_row :=
  ProjectRow (trimmed (get b "teamName")) (get b "teamSize")
             (trimmed (get b "repName")) (trimmed (get b "repId"))
             (trimmed (get b "repEmail"))
             (or_else (get b "otherMembers") (JStr ""))
             (trimmed (get b "courseCode")) (get b "category")
             (get b "projectType") (trimmed (get b "projectName"))
             (trimmed (get b "projectDesc"))
             (or_else (get b "tools") (JStr "")).

End Server.

(* ===================================================================== *)
(** ** The second copy of backend/server.js *)

Module Variant.
Import Chars Regex Js Validator Db Http.

(** [/^(\+?9665\d{8}|05\d{8})$/] *)
Definition mobile_re : regex :=
  Alt (Cat (Opt (Sym (CChar "+"))) (Cat (Lit "9665") (Rep 8 (Sym CDigit))))
      (Cat (Lit "05") (Rep 8 (Sym CDigit))).

(** [/^\d{7}$/] *)
Definition repId_re : regex := Rep 7 (Sym CDigit).

(** [/^[A-Za-z]{2,}\d{2,}$/] *)
Definition courseCode_re : regex :=
  Cat (AtLeast 2 (Sym CAlpha)) (AtLeast 2 (Sym CDigit)).

(** The validators of [POST /api/contact]. *)
Definition contact_validators : list chain :=
  [ check "firstName" |> trim_ |> isLength_ 2 30
      |> withMessage "First name must be 2–30 characters";
    check "lastName" |> trim_ |> isLength_ 2 30
      |> withMessage "Last name must be 2–30 characters";
    check "gender" |> notEmpty_ |> withMessage "Please select a valid gender";
    check "mobile" |> trim_ |> matches_ mobile_re
      |> withMessage "Use Saudi format: +9665XXXXXXXX or 05XXXXXXXX";
    check "dob" |> trim_ |> notEmpty_ |> withMessage "DOB is required";
    check "email" |> trim_ |> isEmail_ |> withMessage "Enter a valid email";
    check "language" |> notEmpty_ |> withMessage "Choose a valid language";
    check "message" |> trim_ |> isLength_ 10 1000
      |> withMessage "Message must be between 10 and 1000 characters" ].

(** The validators of [POST /api/project]. *)
Definition project_validators : list chain :=
  [ check "teamName" |> trim_ |> isLength_ 3 50
      |> withMessage "Team name must be 3–50 characters";
    check "teamSize" |> isInt_ 1 10
      |> withMessage "Team size must be between 1 and 10";
    check "repName" |> trim_ |> isLength_ 3 50
      |> withMessage "Representative name must be 3–50 characters";
    check "repId" |> trim_ |> matches_ repId_re
      |> withMessage "Representative ID must be exactly 7 digits";
    check "repEmail" |> trim_ |> isEmail_
      |> withMessage "Representative email must be valid";
    check "courseCode" |> trim_ |> matches_ courseCode_re
      |> withMessage "Course code must look like CCSW321";
    check "category" |> notEmpty_ |> withMessage "Major / track is required";
    check "projectType" |> notEmpty_ |> withMessage "Project type is required";
    check "projectName" |> trim_ |> isLength_ 3 60
      |> withMessage "Project title must be 3–60 characters";
    check "projectDesc" |> trim_ |> isLength_ 10 400
      |> withMessage "Description must be 10–400 characters" ].

(** [app.post("/api/contact", [...], async (req, res) => ...)] *)
Definition post_contact `{ValidatorLib} (o : outcome) (b : body) (st : store)
  : response * store :=
  let r := run_chains contact_validators b in
  match r.2 with
  | _ :: _ => (res_status_json 400 (ErrErrors r.2), st)
  | [] =>
      match o with
      | Completes =>
          (res_json (OkMsg "Your message was received successfully ✔"),
           insert_contact (Server.contact_params r.1) st)
      | Throws =>
          (res_status_json 500 (ErrMsg "Database error while saving your message."),
           st)
      end
  end.

(** [app.post("/api/project", [...], async (req, res) => ...)] *)
Definition post_project `{ValidatorLib} (o : outcome) (b : body) (st : store)
  : response * store :=
  let r := run_chains project_validators b in
  match r.2 with
  | _ :: _ => (res_status_json 400 (ErrErrors r.2), st)
  | [] =>
      match o with
      | Completes =>
          (res_json (OkMsg "Team project idea saved successfully ✔"),
           insert_project (Server.project_params r.1) st)
      | Throws =>
          (res_status_json 500 (ErrMsg "Database error while saving project."),
           st)
      end
  end.

(** The select list of the listing query of this copy. *)
Definition project_listing (e : N * project_row) : row :=
  [ ("id", JNum (Z.of_N e.1));
    ("team_name", team_name e.2);
    ("team_size", team_size e.2);
    ("course_code", course_code e.2);
    ("category", category e.2);
    ("project_type", project_type e.2);
    ("project_name", project_name e.2);
    ("rep_name", rep_name e.2);
    ("description", description e.2) ].

(** [app.get("/api/projects", async (req, res) => ...)] *)
Definition get_projects (o : outcome) (st : store) : response * store :=
  match o with
  | Completes => (res_json (OkData (map project_listing (select_desc st))), st)
  | Throws =>
      (res_status_json 500 (ErrMsg "Database error while loading projects."), st)
  end.

End Variant.

(* ===================================================================== *)
(** ** js/app.js: the patterns of the client-side checks *)

Module Client.
Import Chars Regex.

(** [namePattern = /^[A-Za-z]{2,30}$/] *)
Definition namePattern : regex := Between 2 30 (Sym CAlpha).

(** [mobilePattern = /^(?:\+9665\d{8}|05\d{8})$/] *)
Definition mobilePattern : regex :=
  Alt (Cat (Lit "+9665") (Rep 8 (Sym CDigit)))
      (Cat (Lit "05") (Rep 8 (Sym CDigit))).

(** [emailPattern = /^[^\s@]+@[^\s@]+\.[^\s@]+$/] *)
Definition emailPattern : regex :=
  Cat (AtLeast 1 (Sym CNotSpaceAt))
      (Cat (Lit "@")
           (Cat (AtLeast 1 (Sym CNotSpaceAt))
                (Cat (Lit ".") (AtLeast 1 (Sym CNotSpaceAt))))).

(** An email predicate to run the model with: the client's pattern. *)
Definition pattern_lib : ValidatorLib := {| isEmail := re_test emailPattern |}.

End Client.

(** Operations on listing rows used to compare the two listings. *)
Module Listing.
Import Js Http.




(** The value of a column of a row. *)
Fixpoint cell (c : string) (r : row) : option value :=
  match r with
  | [] => None
  | (k, v) :: r' => if String.eqb k c then Some v else cell c r'
  end.

End Listing.

(** Shapes of strings the claims speak about. *)
Module Shapes.
Import Chars.

(** Exactly [n] decimal digits. *)
Definition digits (n : nat) (s : string) : Prop :=
  String.length s = n /\ all_chars is_digit s = true.

(** [+9665] followed by 8 digits, or [05] followed by 8 digits. *)
Definition plus9665_or_05 (s : string) : Prop :=
  exists d, digits 8 d /\ (s = "+9665" +:+ d \/ s = "05" +:+ d).

(** As above, the leading [+] of the first form being optional. *)
Definition saudi_mobile (s : string) : Prop :=
  exists d, digits 8 d /\
    (s = "+9665" +:+ d \/ s = "9665" +:+ d \/ s = "05" +:+ d).

(** Two or more letters followed by two or more digits. *)
Definition course_code (s : string) : Prop :=
  exists l d, s = l +:+ d /\
    2 <= String.length l /\ all_chars is_alpha l = true /\
    2 <= String.length d /\ all_chars is_digit d = true.

(** Letters [A-Z], [a-z] only. *)
Definition letters_only (s : string) : bool := all_chars is_alpha s.

(** A list of identifiers in strictly descending order. *)
Definition strictly_descending (ids : list N) : Prop :=
  forall i j x y, ids !! i = Some x -> ids !! j = Some y -> i < j -> (y < x)%N.

End Shapes.

(** Concrete requests used to run the model. *)
Module Samples.
Import Js Db.

(** A contact submission that meets every rule of the server. *)
Definition contact_ok : body :=
  list_to_map
    [ ("firstName", JStr "Sara"); ("lastName", JStr "Ali");
      ("gender", JStr "female"); ("mobile", JStr "0512345678");
      ("dob", JStr "2001-05-17"); ("email", JStr "sara@example.com");
      ("language", JStr "en"); ("message", JStr "hello there!") ].

(** The same submission with a date of birth in the year 2999. *)
Definition contact_future_dob : body := <["dob" := JStr "2999-12-31"]> contact_ok.

(** The same submission with a date of birth that is no date. *)
Definition contact_no_date : body := <["dob" := JStr "tomorrow"]> contact_ok.

(** The same submission with a digit in the first name. *)
Definition contact_digit_name : body := <["firstName" := JStr "A1"]> contact_ok.

(** A contact submission that breaks three rules. *)
Definition contact_bad : body :=
  list_to_map
    [ ("firstName", JStr "S"); ("lastName", JStr "Ali");
      ("gender", JStr "female"); ("mobile", JStr "12345");
      ("dob", JStr "2001-05-17"); ("email", JStr "sara@example.com");
      ("language", JStr "en"); ("message", JStr "hi") ].

(** A project submission that meets every rule, without the two optional
    fields and with white space around the team name. *)
Definition project_ok : body :=
  list_to_map
    [ ("teamName", JStr "  Team CM3 "); ("teamSize", JNum 3);
      ("repName", JStr "Sara Ali"); ("repId", JStr "1234567");
      ("repEmail", JStr "sara@uj.edu.sa"); ("courseCode", JStr "ccsw321");
      ("category", JStr "cs"); ("projectType", JStr "group");
      ("projectName", JStr "Idea Hub");
      ("projectDesc", JStr "a place to share project ideas") ].

(** A store holding one project. *)
Definition one_project : store :=
  insert_project (Server.validated_project project_ok) empty_store.

End Samples.

(* ===================================================================== *)
(** ** js/app.js: the form handlers and the projects page

    The handlers are modelled on the values they read from the page and on
    what they leave in the error box and the table; the marking of single
    inputs ([showFieldError], [clearFormErrors]) is left out.  The submit
    listeners of the two forms follow with the requests in full ([Form]). *)

Module Dates.

Definition is_leap (y : Z) : bool :=
  ((y mod 4 =? 0) && negb (y mod 100 =? 0) || (y mod 400 =? 0))%Z.

(** The days of the month with index [m] (0 is January) of year [y]. *)
Definition days_in_month (y m : Z) : Z :=
  (if m =? 1 then (if is_leap y then 29 else 28)
   else if (m =? 3) || (m =? 5) || (m =? 8) || (m =? 10) then 30
   else 31)%Z.

(** The local calendar fields of a [Date]. *)
Record date : Type := Date { getFullYear : Z; getMonth : Z; getDate : Z }.

(** The time zone of the browser, as far as a date built from a year, a
    month and a day depends on it: the days the local calendar of the zone
    does not have.  [skips y m d] holds for such a day, [m] being the month
    index (Pacific/Apia went from 29 December 2011 to 31 December 2011). *)
Class TimeZone : Type := { skips : Z -> Z -> Z -> bool }.

(** The day of the calendar [day - 1] days after the first of the month
    with index [monthIndex], for a day between 1 and 32: a day past the end
    of the month runs into the next month. *)
Definition roll (y monthIndex day : Z) : date :=
  let n := days_in_month y monthIndex in
  (if day <=? n then Date y monthIndex day
   else if monthIndex =? 11 then Date (y + 1) 0 (day - n)
   else Date y (monthIndex + 1) (day - n))%Z.

(** [new Date(year, monthIndex, day)] for a month index between 0 and 11
    and a day between 1 and 31, read back in local time: a year between 0
    and 99 stands for 1900 + year; the local midnight of a day the zone
    skips does not exist, and the date is the day after it. *)
Definition new_Date `{TimeZone} (year monthIndex day : Z) : date :=
  let y := (if (0 <=? year) && (year <=? 99) then 1900 + year else year)%Z in
  let c := roll y monthIndex day in
  if skips (getFullYear c) (getMonth c) (getDate c)
  then roll (getFullYear c) (getMonth c) (getDate c + 1)
  else c.

End Dates.

Module App.
Import Chars Regex Js Validator Http Dates.

(** [/^(\d{4})-(\d{2})-(\d{2})$/] *)
Definition ymd_re : regex :=
  Cat (Rep 4 (Sym CDigit))
      (Cat (Lit "-") (Cat (Rep 2 (Sym CDigit))
                          (Cat (Lit "-") (Rep 2 (Sym CDigit))))).

(** [Number(m)] of a captured run of digits. *)
Definition Number_ (m : string) : Z := digits_value 0 m.

(** [isValidDateYMD(value)] *)
Definition isValidDateYMD `{TimeZone} (value : string) : bool :=
  if negb (re_test ymd_re value) then false
  else
    let year := Number_ (substring 0 4 value) in
    let month := Number_ (substring 5 2 value) in
    let day := Number_ (substring 8 2 value) in
    (if (month <? 1) || (month >? 12) || (day <? 1) || (day >? 31) then false
     else
       let d := new_Date year (month - 1) day in
       (getFullYear d =? year) && (getMonth d =? month - 1) && (getDate d =? day))%Z.

(** What [fetch] followed by [response.json()] gives: the body of the
    response, or an exception. *)
Inductive fetched : Type :=
| Resolved (p : payload)
| Rejected.

(** The error box after a response, and whether the form was reset. *)
Record shown : Type := Shown { className : string; textContent : string; reset : bool }.

(** [result.msg || d] *)
Definition msg_or (p : payload) (d : string) : string :=
  match p with
  | OkMsg m => if String.eqb m "" then d else m
  | ErrMsg m => if String.eqb m "" then d else m
  | OkData _ => d
  | ErrErrors _ => d
  end.

(** The submit listener of [initContactForm], after the request. *)
Definition contact_result (r : fetched) : shown :=
  match r with
  | Rejected => Shown "error-box" "Server error while sending your message." false
  | Resolved p =>
      if String.eqb (status_of p) "error"
      then Shown "error-box" (msg_or p "There was a problem sending your message.") false
      else Shown "success-msg" (msg_or p "Your message has been sent successfully.") true
  end.

(** [coursePattern = /^[A-Za-z]{2,}\d{2,}$/] *)
Definition coursePattern : regex :=
  Cat (AtLeast 2 (Sym CAlpha)) (AtLeast 2 (Sym CDigit)).

(** [/^\d{7}$/] *)
Definition repIdPattern : regex := Rep 7 (Sym CDigit).

(** The submit listener of [initProjectForm], after the request. *)
Definition project_result (r : fetched) : shown :=
  match r with
  | Rejected => Shown "error-box" "Server error while saving your project." false
  | Resolved p =>
      if String.eqb (status_of p) "error"
      then Shown "error-box" (msg_or p "There was a problem saving your project.") false
      else Shown "success-msg"
             (msg_or p "Team project idea has been saved successfully.") true
  end.

(** [${v}] in a template literal. *)
Definition template (v : value) : string :=
  match v with
  | JUndefined => "undefined"
  | JNull => "null"
  | JBool true => "true"
  | JBool false => "false"
  | JNum n => pretty n
  | JStr s => s
  end.

(** [p.k] for a row of the listing. *)
Definition prop (p : row) (k : string) : value :=
  default JUndefined (Listing.cell k p).

(** [formatMajor(code)] *)
Definition formatMajor (code : value) : value :=
  match code with
  | JStr s =>
      if String.eqb s "cybersecurity" then JStr "Cybersecurity"
      else if String.eqb s "cs" then JStr "Computer Science"
      else if String.eqb s "se" then JStr "Software Engineering"
      else if String.eqb s "is" then JStr "Information Systems"
      else if String.eqb s "ai" then JStr "Artificial Intelligence"
      else if String.eqb s "data" then JStr "Data Science"
      else or_else code (JStr "")
  | _ => or_else code (JStr "")
  end.

Definition nl : string := String (ascii_of_nat 10) "".

(** One cell of the template of a table row, on a line of its own. *)
Definition td (text : string) : string :=
  nl +:+ "          <td>" +:+ text +:+ "</td>".

(** The markup assigned to [tr.innerHTML] for one project. *)
Definition tr_innerHTML (p : row) : string :=
  td (template (prop p "id")) +:+
  td (template (prop p "team_name")) +:+
  td (template (prop p "team_size")) +:+
  td (template (prop p "course_code")) +:+
  td (template (formatMajor (prop p "category"))) +:+
  td (template (prop p "project_type")) +:+
  td (template (prop p "project_name")) +:+
  td (template (prop p "rep_name")) +:+
  td (template (prop p "description")) +:+
  nl +:+ "        ".

(** The projects page after [initProjectsList]: the status line and the
    rows appended to the table body. *)
Record projectsPage : Type := ProjectsPage { statusBox : string; projectsBody : list string }.

(** [initProjectsList()] on a page that has the table. *)
Definition initProjectsList (r : fetched) : projectsPage :=
  match r with
  | Rejected => ProjectsPage "Error loading projects." []
  | Resolved p =>
      if negb (String.eqb (status_of p) "ok")
      then ProjectsPage (msg_or p "Could not load projects.") []
      else
        match p with
        | OkData (p0 :: ps) =>
            ProjectsPage
              ("Loaded " +:+ pretty (length (p0 :: ps)) +:+ " project(s).")
              (map tr_innerHTML (p0 :: ps))
        | _ => ProjectsPage "No projects found yet." []
        end
  end.

End App.

(** Time zones to run the date check in. *)
Module Zones.

(** A time zone whose calendar has every day, such as UTC. *)
Definition every_day : Dates.TimeZone := {| Dates.skips := fun _ _ _ => false |}.

(** Pacific/Apia, which had no 30 December 2011. *)
Definition apia : Dates.TimeZone :=
  {| Dates.skips := fun y m d => ((y =? 2011) && (m =? 11) && (d =? 30))%Z |}.

End Zones.

(** More vocabulary for the properties of the server. *)
Module Tidy.
Import Chars Js Validator Db Http Server.

(** A string cell that trimming leaves as it is. *)
Definition trimmed_text (v : value) : Prop :=
  exists s, v = JStr s /\ trim s = s.

(** The columns of a contact row filled from trimmed fields. *)
Definition contact (r : contact_row) : Prop :=
  trimmed_text (first_name r) /\ trimmed_text (last_name r) /\
  trimmed_text (Db.mobile r) /\ trimmed_text (Db.dob r) /\
  trimmed_text (Db.email r) /\ trimmed_text (Db.message r).

(** The columns of a project row filled from trimmed fields. *)
Definition project (r : project_row) : Prop :=
  trimmed_text (team_name r) /\ trimmed_text (rep_name r) /\
  trimmed_text (rep_id r) /\ trimmed_text (rep_email r) /\
  trimmed_text (course_code r) /\ trimmed_text (project_name r) /\
  trimmed_text (description r).

Definition all_rows (st : store) : Prop :=
  Forall contact (contact_messages st) /\
  map_Forall (fun _ r => project r) (projects st).

(** The properties of [req.body] a handler reads. *)
Definition read_fields (rq : request) : list string :=
  match rq with
  | PostContact _ =>
      [ "firstName"; "lastName"; "gender"; "mobile"; "dob"; "email";
        "language"; "message" ]
  | PostProject _ =>
      [ "teamName"; "teamSize"; "repName"; "repId"; "repEmail"; "otherMembers";
        "courseCode"; "category"; "projectType"; "projectName"; "projectDesc";
        "tools" ]
  | GetProjects => []
  end.

(** The request with one more property in its body. *)
Definition with_field (f : string) (v : value) (rq : request) : request :=
  match rq with
  | PostContact b => PostContact (<[f := v]> b)
  | PostProject b => PostProject (<[f := v]> b)
  | GetProjects => GetProjects
  end.

(** The request whose body is the body the validators left. *)
Definition sanitized_request `{ValidatorLib} (rq : request) : request :=
  match rq with
  | PostContact b => PostContact (run_chains contact_validators b).1
  | PostProject b => PostProject (run_chains project_validators b).1
  | GetProjects => GetProjects
  end.

(** A non-empty run of decimal digits, optionally after [+], whose value
    lies between the bounds. *)
Definition numeral_between (lo hi : Z) (s : string) : Prop :=
  exists d, d <> "" /\ all_chars is_digit d = true /\
            (s = d \/ s = "+" +:+ d) /\ (lo <= digits_value 0 d <= hi)%Z.

(** The trimmed text of a field of a body, as the validators see it. *)
Definition seen (b : body) (f : string) : string := trim (toString (get b f)).

End Tidy.

(* ===================================================================== *)
(** ** Requests in full

    The modules above take a submission as the body it carries and its
    texts as strings of characters below 256.  The modules below model the
    two submission routes on the whole request.

    - A text is a JavaScript string, the sequence of its UTF-16 code units
      ([Utf16]).
    - [check(field)] selects the field in the body, the cookies, the
      headers, the route parameters and the query string of the request,
      and the handlers read [req.body] ([Req], [Express], [Api]).  No
      middleware of [server.js] fills [req.cookies], and the two routes
      have no parameters: these two locations never hold a field.
    - What a request holds for a field is a JSON scalar or a list of
      scalars; objects and lists inside lists are left out, and numbers are
      integers as before. *)

Module Utf16.
Import Regex.

(** A JavaScript string: its UTF-16 code units. *)
Definition ustring : Type := list N.

(** The string of a text of characters below 256. *)
Fixpoint of_string (s : string) : ustring :=
  match s with
  | EmptyString => []
  | String a s' => Chars.code a :: of_string s'
  end.

(** [\s]: the white space and the line terminators of the language. *)
Definition is_space (c : N) : bool :=
  (((9 <=? c) && (c <=? 13)) || (c =? 32) || (c =? 160) || (c =? 5760)
   || ((8192 <=? c) && (c <=? 8202)) || (c =? 8232) || (c =? 8233)
   || (c =? 8239) || (c =? 8287) || (c =? 12288) || (c =? 65279))%N.

(** [\d] *)
Definition is_digit (c : N) : bool := ((48 <=? c) && (c <=? 57))%N.

(** [[A-Za-z]] *)
Definition is_alpha (c : N) : bool :=
  (((65 <=? c) && (c <=? 90)) || ((97 <=? c) && (c <=? 122)))%N.

(** [str.replace(/^\s+/g, '')], as [validator.ltrim] without [chars]. *)
Fixpoint ltrim (u : ustring) : ustring :=
  match u with
  | [] => []
  | c :: u' => if is_space c then ltrim u' else u
  end.

(** [validator.rtrim] without [chars]: drop the trailing white space. *)
Fixpoint rtrim (u : ustring) : ustring :=
  match u with
  | [] => []
  | c :: u' =>
      match rtrim u' with
      | [] => if is_space c then [] else [c]
      | t => c :: t
      end
  end.

(** [validator.trim(str)], and [String.prototype.trim] of the client, which
    drops the same characters. *)
Definition trim (u : ustring) : ustring := rtrim (ltrim u).

(** [[\uD800-\uDBFF]] and [[\uDC00-\uDFFF]] *)
Definition is_high (c : N) : bool := ((55296 <=? c) && (c <=? 56319))%N.
Definition is_low (c : N) : bool := ((56320 <=? c) && (c <=? 57343))%N.

(** The matches of [/[\uD800-\uDBFF][\uDC00-\uDFFF]/g], from left to right. *)
Fixpoint surrogate_pairs (u : ustring) : nat :=
  match u with
  | [] => 0
  | h :: u' =>
      match u' with
      | [] => 0
      | l :: u'' =>
          if is_high h && is_low l then S (surrogate_pairs u'')
          else surrogate_pairs u'
      end
  end.

(** [\uFE0F] or [\uFE0E] *)
Definition is_selector (c : N) : bool := ((c =? 65039) || (c =? 65038))%N.

(** The matches of [/(\uFE0F|\uFE0E)/g]. *)
Definition presentation_sequences (u : ustring) : nat :=
  length (List.filter is_selector u).

(** The length [isLength] of validator.js compares with its bounds:
    [str.length - presentationSequences.length - surrogatePairs.length]. *)
Definition len (u : ustring) : nat :=
  length u - presentation_sequences u - surrogate_pairs u.

(** A character class on code units. *)
Definition cls_mem (c : cls) (n : N) : bool :=
  match c with
  | CChar b => (n =? Chars.code b)%N
  | CDigit => is_digit n
  | CAlpha => is_alpha n
  | CSign => ((n =? 45) || (n =? 43))%N
  | CNotSpaceAt => negb (is_space n) && negb (n =? 64)%N
  end.

Fixpoint deriv (a : N) (r : regex) : regex :=
  match r with
  | Void => Void
  | Eps => Void
  | Sym c => if cls_mem c a then Eps else Void
  | Cat r1 r2 =>
      if nullable r1
      then Alt (Cat (deriv a r1) r2) (deriv a r2)
      else Cat (deriv a r1) r2
  | Alt r1 r2 => Alt (deriv a r1) (deriv a r2)
  | Star r1 => Cat (deriv a r1) (Star r1)
  end.

(** [/^r$/.test(u)]: the patterns have no [u] flag and see code units. *)
Fixpoint re_test (r : regex) (u : ustring) : bool :=
  match u with
  | [] => nullable r
  | a :: u' => re_test (deriv a r) u'
  end.

Definition digit_value (c : N) : Z := (Z.of_N c - 48)%Z.

Fixpoint digits_value (acc : Z) (u : ustring) : Z :=
  match u with
  | [] => acc
  | c :: u' => digits_value (10 * acc + digit_value c)%Z u'
  end.

(** [Number(str)] on the strings [/^[-+]?[0-9]+$/] accepts; [None] stands
    for every other string. *)
Definition to_number (u : ustring) : option Z :=
  if re_test Validator.intLeadingZeroes u then
    match u with
    | 45%N :: u' => Some (- digits_value 0 u')%Z
    | 43%N :: u' => Some (digits_value 0 u')
    | _ => Some (digits_value 0 u)
    end
  else None.

(** A pattern whose classes hold characters below 256 only. *)
Fixpoint narrow (r : regex) : bool :=
  match r with
  | Void => true
  | Eps => true
  | Sym CNotSpaceAt => false
  | Sym _ => true
  | Cat r1 r2 => narrow r1 && narrow r2
  | Alt r1 r2 => narrow r1 && narrow r2
  | Star r1 => narrow r1
  end.

(** A pattern that by its form matches no string. *)
Fixpoint void (r : regex) : bool :=
  match r with
  | Void => true
  | Eps => false
  | Sym _ => false
  | Cat r1 r2 => void r1 || void r2
  | Alt r1 r2 => void r1 && void r2
  | Star _ => false
  end.

(** A text without surrogate pair and without variation selector. *)
Definition plain (u : ustring) : Prop :=
  surrogate_pairs u = 0 /\ presentation_sequences u = 0.

End Utf16.

Module Req.
Import Utf16.

Inductive value : Type :=
| JUndefined
| JNull
| JBool (b : bool)
| JNum (n : Z)
| JStr (u : ustring).

#[global] Instance value_eq_dec : EqDecision value.
Proof. solve_decision. Defined.

(** What a request holds for a field: a scalar, or a list of scalars. *)
Inductive data : Type :=
| One (v : value)
| Many (l : list value).

#[global] Instance data_eq_dec : EqDecision data.
Proof. solve_decision. Defined.

(** [toString] of express-validator on a scalar. *)
Definition toString (v : value) : ustring :=
  match v with
  | JUndefined => []
  | JNull => []
  | JBool true => of_string "true"
  | JBool false => of_string "false"
  | JNum n => of_string (pretty n)
  | JStr u => u
  end.

(** [Array.isArray(value) ? value : [value]] *)
Definition values (d : data) : list value :=
  match d with
  | One v => [v]
  | Many l => l
  end.

(** [Array.isArray(value) ? value.map(f) : f(value)] *)
Definition map_data (f : value -> value) (d : data) : data :=
  match d with
  | One v => One (f v)
  | Many l => Many (map f l)
  end.

(** [ToBoolean]: a list is an object, which is true. *)
Definition truthy (d : data) : bool :=
  match d with
  | One JUndefined => false
  | One JNull => false
  | One (JBool b) => b
  | One (JNum n) => negb (n =? 0)%Z
  | One (JStr u) => if u is [] then false else true
  | Many _ => true
  end.

(** [d || e] *)
Definition or_else (d e : data) : data := if truthy d then d else e.

(** [value !== undefined] *)
Definition defined (d : data) : bool :=
  if decide (d = One JUndefined) then false else true.

(** The locations [check] looks at that can hold a field, in its order. *)
Inductive location : Type := Body | Headers | Query.

#[global] Instance location_eq_dec : EqDecision location.
Proof. solve_decision. Defined.

Definition locations : list location := [Body; Headers; Query].

Definition location_name (l : location) : string :=
  match l with
  | Body => "body"
  | Headers => "headers"
  | Query => "query"
  end.

(** [req.body], [req.headers] and [req.query]; the names of the headers are
    in lower case. *)
Record request : Type := Request {
  body : gmap string data;
  headers : gmap string data;
  query : gmap string data
}.

Definition lower (a : ascii) : ascii :=
  if ((65 <=? Chars.code a) && (Chars.code a <=? 90))%N
  then ascii_of_N (Chars.code a + 32) else a.

(** [field.toLowerCase()] for the names of the fields of the source, which
    are letters [A-Z], [a-z]. *)
Fixpoint toLowerCase (s : string) : string :=
  match s with
  | EmptyString => EmptyString
  | String a s' => String (lower a) (toLowerCase s')
  end.

(** The path of a field at a location: a header goes by its name in lower
    case. *)
Definition path_at (l : location) (f : string) : string :=
  match l with
  | Headers => toLowerCase f
  | _ => f
  end.

Definition at_ (rq : request) (l : location) : gmap string data :=
  match l with
  | Body => body rq
  | Headers => headers rq
  | Query => query rq
  end.

(** [obj[k]]: a missing property reads as [undefined]. *)
Definition get (m : gmap string data) (k : string) : data :=
  default (One JUndefined) (m !! k).

(** [_.get(req[location], path)] *)
Definition read (rq : request) (l : location) (f : string) : data :=
  get (at_ rq l) (path_at l f).

(** [_.set(req[location], path, d)] *)
Definition write (rq : request) (l : location) (f : string) (d : data) : request :=
  match l with
  | Body => Request (<[path_at l f := d]> (body rq)) (headers rq) (query rq)
  | Headers => Request (body rq) (<[path_at l f := d]> (headers rq)) (query rq)
  | Query => Request (body rq) (headers rq) (<[path_at l f := d]> (query rq))
  end.

(** A request that carries a body and nothing else. *)
Definition of_body (b : gmap string data) : request := Request b ∅ ∅.

End Req.

Module Express.
Import Regex Utf16 Req.
Import Validator (validator, IsLength, NotEmpty, Matches, IsEmail, IsInt,
                  item, Trim, Validate, chain, field, stack).

(** [isEmail] of validator.js with its default options is not modelled;
    every result below holds for any such predicate. *)
Class Library : Type := { isEmail : ustring -> bool }.

(** [isLength(str, {min, max})] *)
Definition isLength (min max : nat) (u : ustring) : bool :=
  (min <=? len u)%nat && (len u <=? max)%nat.

(** [isEmpty(str)] *)
Definition isEmpty (u : ustring) : bool := (length u =? 0)%nat.

(** [matches(str, /^r$/)] *)
Definition matches (r : regex) (u : ustring) : bool := re_test r u.

(** [isInt(str, {min, max})]:
    [regex.test(str) && str >= min && str <= max]. *)
Definition isInt (min max : Z) (u : ustring) : bool :=
  re_test Validator.intLeadingZeroes u &&
  match to_number u with
  | Some n => (min <=? n)%Z && (n <=? max)%Z
  | None => false
  end.

Definition eval `{Library} (v : validator) (u : ustring) : bool :=
  match v with
  | IsLength lo hi => isLength lo hi u
  | NotEmpty => negb (isEmpty u)
  | Matches r => matches r u
  | IsEmail => isEmail u
  | IsInt lo hi => isInt lo hi u
  end.

(** One entry of [validationResult(req).array()]. *)
Record verror : Type := VError {
  err_value : value;
  err_msg : string;
  err_path : string;
  err_location : string
}.

(** A field instance: the value of the field at one location. *)
Record instance : Type := Instance { location_of : location; ivalue : data }.

(** [selectFields(req, [field], locations)]: one instance per location,
    whether the location holds the field or not. *)
Definition selectFields (rq : request) (f : string) : list instance :=
  map (fun l => Instance l (read rq l f)) locations.

Definition has_value (i : instance) : bool := defined (ivalue i).

(** [context.getData()], the instances an item of the chain runs on: those
    that have a value, or the first one when none has. *)
Definition getData (ins : list instance) : list instance :=
  match List.filter has_value ins with
  | [] => take 1 ins
  | w => w
  end.

(** Whether an instance is among those an item runs on. *)
Definition runs_on (ins : list instance) (i : instance) : bool :=
  bool_decide (location_of i ∈ map location_of (getData ins)).

(** [.trim()] on one value. *)
Definition trimmed (v : value) : value := JStr (trim (toString v)).

(** A standard validator on an instance: each value of the instance that
    the validator rejects, once stringified, is an error. *)
Definition validate `{Library} (f : string) (vd : validator) (m : string)
  (i : instance) : list verror :=
  flat_map
    (fun v => if eval vd (toString v) then []
              else [VError v m (path_at (location_of i) f)
                           (location_name (location_of i))])
    (values (ivalue i)).

(** One item of the stack on the instances of a field: a sanitizer replaces
    the values of the instances it runs on, a validator records errors. *)
Definition run_item `{Library} (f : string) (it : item) (ins : list instance)
  : list instance * list verror :=
  match it with
  | Trim =>
      (map (fun i => if runs_on ins i
                     then Instance (location_of i) (map_data trimmed (ivalue i))
                     else i) ins, [])
  | Validate vd m => (ins, flat_map (validate f vd m) (getData ins))
  end.

(** The items run one after the other. *)
Fixpoint run_stack `{Library} (f : string) (items : list item) (ins : list instance)
  : list instance * list verror :=
  match items with
  | [] => (ins, [])
  | it :: k =>
      let r1 := run_item f it ins in
      let r2 := run_stack f k r1.1 in
      (r2.1, (r1.2 ++ r2.2)%list)
  end.

(** The value of an instance is written back to the request when it differs
    from what the request holds. *)
Definition write_back (f : string) (rq : request) (i : instance) : request :=
  if decide (ivalue i = read rq (location_of i) f) then rq
  else write rq (location_of i) f (ivalue i).

(** Running a chain as a middleware.  The runner writes an instance back
    after each item; the items read the instances, so it is the same to
    write them back once, after the last item. *)
Definition run_chain `{Library} (c : chain) (rq : request) : request * list verror :=
  let r := run_stack (field c) (stack c) (selectFields rq (field c)) in
  (foldl (write_back (field c)) rq r.1, r.2).

(** The chains of a route run in order; their errors accumulate. *)
Fixpoint run_chains `{Library} (cs : list chain) (rq : request)
  : request * list verror :=
  match cs with
  | [] => (rq, [])
  | c :: k =>
      let r1 := run_chain c rq in
      let r2 := run_chains k r1.1 in
      (r2.1, (r1.2 ++ r2.2)%list)
  end.

(** A request passes the validators of a route when they collect no error. *)
Definition passes `{Library} (cs : list chain) (rq : request) : Prop :=
  (run_chains cs rq).2 = [].

(** The errors a chain records for a request. *)
Definition errors_of `{Library} (c : chain) (rq : request) : list verror :=
  (run_chain c rq).2.

(** The chains of a route that a request violates, in the order of the
    route. *)
Definition violated `{Library} (cs : list chain) (rq : request) : list chain :=
  List.filter (fun c => if errors_of c rq is [] then false else true) cs.

(** The texts of a field the validators of its chain look at: the
    stringified values of the instances they run on. *)
Definition texts (rq : request) (f : string) : list ustring :=
  flat_map (fun i => map toString (values (ivalue i)))
           (getData (selectFields rq f)).

(** Every text of a field the validators look at satisfies [P]. *)
Definition held (rq : request) (f : string) (P : ustring -> Prop) : Prop :=
  Forall P (texts rq f).

(** Whether the items of a chain run on the instance of a location. *)
Definition looked_at (rq : request) (f : string) (l : location) : bool :=
  bool_decide (l ∈ map location_of (getData (selectFields rq f))).

(** What a chain leaves in the request for its field at a location. *)
Definition left_at `{Library} (c : chain) (rq : request) (l : location) : data :=
  read (run_chain c rq).1 l (field c).

End Express.

(** The two submission routes of [backend/server.js] on whole requests. *)
Module Api.
Import Utf16 Req Express.
Import Validator (chain, field, stack).
Import Db (outcome, Completes, Throws).

(** The two tables; a row is the list of the parameters its insert bound. *)
Record store : Type := Store {
  contact_messages : list (list data);
  projects : gmap N (list data)
}.

Definition empty_store : store := Store [] ∅.

Definition max_id (t : gmap N (list data)) : N :=
  foldr N.max 0%N (map fst (map_to_list t)).

(** Modelled from the spec: the table definition of [projects] is not in the
    repository; the store assigns "a monotonically increasing identifier",
    here the successor of the largest identifier in use. *)
Definition next_id (t : gmap N (list data)) : N := N.succ (max_id t).

(** [insert into contact_messages (...) values (...)] *)
Definition insert_contact (r : list data) (st : store) : store :=
  Store (contact_messages st ++ [r])%list (projects st).

(** [insert into projects (...) values (...)] *)
Definition insert_project (r : list data) (st : store) : store :=
  Store (contact_messages st) (<[next_id (projects st) := r]> (projects st)).

(** The three JSON bodies the two routes send. *)
Inductive payload : Type :=
| OkMsg (msg : string)              (* {status: "ok", msg} *)
| ErrErrors (errors : list verror)  (* {status: "error", errors} *)
| ErrMsg (msg : string).            (* {status: "error", msg} *)

Record response : Type := Response { status_code : nat; json : payload }.

(** The parameters bound by the insert of the contact handler, read from
    [req.body]. *)
Definition contact_params (b : gmap string data) : list data :=
  [ get b "firstName"; get b "lastName"; get b "gender"; get b "mobile";
    get b "dob"; get b "email"; get b "language"; get b "message" ].

(** The parameters bound by the insert of the project handler. *)
Definition project_params (b : gmap string data) : list data :=
  [ get b "teamName"; get b "teamSize"; get b "repName"; get b "repId";
    get b "repEmail"; or_else (get b "otherMembers") (One (JStr []));
    get b "courseCode"; get b "category"; get b "projectType";
    get b "projectName"; get b "projectDesc";
    or_else (get b "tools") (One (JStr [])) ].

(** [app.post("/api/contact", [...], async (req, res) => ...)] *)
Definition post_contact `{Library} (o : outcome) (rq : request) (st : store)
  : response * store :=
  let r := run_chains Server.contact_validators rq in
  match r.2 with
  | _ :: _ => (Response 400 (ErrErrors r.2), st)
  | [] =>
      match o with
      | Completes =>
          (Response 200 (OkMsg "your message was received successfully ✔"),
           insert_contact (contact_params (body r.1)) st)
      | Throws =>
          (Response 500 (ErrMsg "database error while saving your message."), st)
      end
  end.

(** [app.post("/api/project", [...], async (req, res) => ...)] *)
Definition post_project `{Library} (o : outcome) (rq : request) (st : store)
  : response * store :=
  let r := run_chains Server.project_validators rq in
  match r.2 with
  | _ :: _ => (Response 400 (ErrErrors r.2), st)
  | [] =>
      match o with
      | Completes =>
          (Response 200 (OkMsg "team project idea saved successfully ✔"),
           insert_project (project_params (body r.1)) st)
      | Throws =>
          (Response 500 (ErrMsg "database error while saving project."), st)
      end
  end.

(** A call of one of the two routes. *)
Inductive call : Type :=
| PostContact (rq : request)
| PostProject (rq : request).

Definition handle `{Library} (o : outcome) (c : call) (st : store)
  : response * store :=
  match c with
  | PostContact rq => post_contact o rq st
  | PostProject rq => post_project o rq st
  end.

Definition validators_for (c : call) : list chain :=
  match c with
  | PostContact _ => Server.contact_validators
  | PostProject _ => Server.project_validators
  end.

Definition request_of (c : call) : request :=
  match c with
  | PostContact rq => rq
  | PostProject rq => rq
  end.


(** The stores the server reaches through calls that satisfy [P].  The
    listing and the pages perform no insert, so these are the states of the
    store whatever else is requested in between. *)
Inductive reachable_by `{Library} (P : call -> Prop) : store -> Prop :=
| reach_empty : reachable_by P empty_store
| reach_step st o c : reachable_by P st -> P c -> reachable_by P (handle o c st).2.

Definition reachable `{Library} : store -> Prop := reachable_by (fun _ => True).

(** The fields of the chains come in the body alone, each as a scalar. *)
Definition body_borne (cs : list chain) (rq : request) : Prop :=
  Forall (fun c => read rq Headers (field c) = One JUndefined /\
                   read rq Query (field c) = One JUndefined /\
                   exists v, read rq Body (field c) = One v) cs.



End Api.

(** What validation guarantees about the rows the two routes store. *)
Module Checked.
Import Utf16 Req Express Api.

(** A string whose text satisfies [P]. *)
Definition text (P : ustring -> Prop) (v : value) : Prop :=
  exists u, v = JStr u /\ P u.

(** A text within the bounds, by the count of [isLength]. *)
Definition length_between (lo hi : nat) (u : ustring) : Prop :=
  lo <= len u <= hi.

(** A text of characters below 256 that satisfies [P]. *)
Definition ascii (P : string -> Prop) (u : ustring) : Prop :=
  exists s, u = of_string s /\ P s.

(** A value that does not print as the empty string. *)
Definition present (v : value) : Prop := toString v <> [].

(** An integer numeral between the bounds. *)
Definition numeral_between (lo hi : Z) (u : ustring) : Prop :=
  exists n, to_number u = Some n /\ (lo <= n <= hi)%Z.

(** A value that prints as an integer numeral between the bounds. *)
Definition integer_between (lo hi : Z) (v : value) : Prop :=
  numeral_between lo hi (toString v).

(** An optional cell: what was sent, or the empty string. *)
Definition defaulted (d : data) : Prop := truthy d = true \/ d = One (JStr []).

(** The rules of the eight columns of a contact row. *)
Definition contact_rules `{Library} : list (value -> Prop) :=
  [ text (length_between 2 30);
    text (length_between 2 30);
    present;
    text (ascii Shapes.saudi_mobile);
    text (fun u => u <> []);
    text (fun u => isEmail u = true);
    present;
    text (length_between 10 1000) ].

(** The rules of the twelve columns of a project row; the two optional
    columns have none. *)
Definition project_rules `{Library} : list (option (value -> Prop)) :=
  [ Some (text (length_between 3 50));
    Some (integer_between 1 10);
    Some (text (length_between 3 50));
    Some (text (ascii (Shapes.digits 7)));
    Some (text (fun u => isEmail u = true));
    None;
    Some (text (ascii Shapes.course_code));
    Some present;
    Some present;
    Some (text (length_between 3 60));
    Some (text (length_between 10 400));
    None ].



Definition contact_row `{Library} (cell : (value -> Prop) -> data -> Prop)
  (r : list data) : Prop :=
  Forall2 cell contact_rules r.

Definition project_row `{Library} (cell : (value -> Prop) -> data -> Prop)
  (r : list data) : Prop :=
  Forall2 (fun P d => match P with Some P => cell P d | None => defaulted d end)
          project_rules r.

Definition all_rows `{Library} (cell : (value -> Prop) -> data -> Prop)
  (st : store) : Prop :=
  Forall (contact_row cell) (contact_messages st) /\
  map_Forall (fun _ r => project_row cell r) (projects st).

(** A field the request does not supply: no location holds it, or the body
    holds [null] or the empty string for it. *)
Definition lacking (rq : request) (f : string) : Prop :=
  (forall l, read rq l f = One JUndefined) \/
  (exists v, read rq Body f = One v /\ v <> JUndefined /\ toString v = []).

End Checked.

(** ** js/app.js: the submit listeners of the two forms *)

Module Form.
Import Regex Utf16 Req.
Import Validator (chain, field).

(** [new Date(s) > new Date()]: whether the browser reads [s] as a moment
    after the present one. *)
Class Browser : Type := { date_after_now : ustring -> bool }.

(** The longest run of decimal digits a string starts with. *)
Fixpoint take_digits (u : ustring) : ustring :=
  match u with
  | [] => []
  | c :: u' => if is_digit c then c :: take_digits u' else []
  end.

(** [parseInt(s, 10)]: leading white space is dropped, then an optional
    sign and the longest run of digits are read; [None] is [NaN].  The
    value is exact; the rounding of JavaScript beyond 2^53 changes no
    comparison with 1 or 10. *)
Definition parseInt (u : ustring) : option Z :=
  let u1 := ltrim u in
  let signed :=
    match u1 with
    | 45%N :: r => (true, r)
    | 43%N :: r => (false, r)
    | _ => (false, u1)
    end in
  match take_digits signed.2 with
  | [] => None
  | z => Some (if signed.1 then (- digits_value 0 z)%Z else digits_value 0 z)
  end.

(** What a submit listener does: it throws, or stops with the list of its
    error messages, or sends a request with a body. *)
Inductive submitted : Type :=
| Thrown
| Blocked (errors : list string)
| Sent (b : gmap string data).

(** The values the contact form handler reads from the page. *)
Record contactForm : Type := ContactForm {
  firstName : ustring;
  lastName : ustring;
  genderChecked : option ustring;
  mobile : ustring;
  dob : ustring;
  email : ustring;
  language : ustring;
  message : ustring
}.

(** The checks of the submit listener of [initContactForm], in order, for a
    form with a checked gender option. *)
Definition contact_errors `{Browser} (form : contactForm) : list string :=
  ((if re_test Client.namePattern (trim (firstName form)) then []
    else ["First name must be 2–30 letters (A–Z) only."]) ++
   (if re_test Client.namePattern (trim (lastName form)) then []
    else ["Last name must be 2–30 letters (A–Z) only."]) ++
   (if re_test Client.mobilePattern (trim (mobile form)) then []
    else ["Mobile must be a valid Saudi number (+9665XXXXXXXX or 05XXXXXXXX)."]) ++
   (if dob form is [] then ["Date of birth is required."]
    else if date_after_now (dob form)
         then ["Date of birth cannot be in the future."] else []) ++
   (if trim (email form) is [] then ["Email is required."]
    else if re_test Client.emailPattern (trim (email form)) then []
         else ["Email must be in a valid format (name@example.com)."]) ++
   (if language form is [] then ["Please choose a preferred language."]
    else []) ++
   (if (length (trim (message form)) <? 10)%nat
       || (1000 <? length (trim (message form)))%nat
    then ["Message must be between 10 and 1000 characters."] else []))%list.

(** The body the contact form handler sends. *)
Definition contact_request (form : contactForm) : gmap string data :=
  list_to_map
    [ ("firstName", One (JStr (trim (firstName form))));
      ("lastName", One (JStr (trim (lastName form))));
      ("gender", One (JStr (default [] (genderChecked form))));
      ("mobile", One (JStr (trim (mobile form))));
      ("dob", One (JStr (trim (dob form))));
      ("email", One (JStr (trim (email form))));
      ("language", One (JStr (language form)));
      ("message", One (JStr (trim (message form)))) ].

(** The submit listener of [initContactForm], up to the request.  With no
    gender option checked the listener reaches
    [form.querySelector('fieldset.form-group legend:contains("Gender")')],
    whose selector is not one of CSS: the call throws, and the listener ends
    there without a message and without a request. *)
Definition contact_submit `{Browser} (form : contactForm) : submitted :=
  match genderChecked form with
  | None => Thrown
  | Some _ =>
      match contact_errors form with
      | [] => Sent (contact_request form)
      | _ :: _ => Blocked (contact_errors form)
      end
  end.

(** The values the project form handler reads from the page. *)
Record projectForm : Type := ProjectForm {
  teamName : ustring;
  teamSize : ustring;
  repName : ustring;
  repId : ustring;
  repEmail : ustring;
  otherMembers : ustring;
  courseCode : ustring;
  projectName : ustring;
  category : ustring;
  projectDesc : ustring;
  tools : ustring;
  projectTypeChecked : option ustring
}.

(** [Number.isNaN(n) || n < 1 || n > 10] *)
Definition teamSize_bad (n : option Z) : bool :=
  match n with
  | None => true
  | Some z => ((z <? 1) || (z >? 10))%Z
  end.

(** The checks of the submit listener of [initProjectForm], in order. *)
Definition project_errors (form : projectForm) : list string :=
  ((if (length (trim (teamName form)) <? 3)%nat
    then ["Team name must be at least 3 characters."] else []) ++
   (if teamSize_bad (parseInt (teamSize form))
    then ["Team size must be between 1 and 10."] else []) ++
   (if (length (trim (repName form)) <? 3)%nat
    then ["Representative name must be at least 3 characters."] else []) ++
   (if re_test App.repIdPattern (trim (repId form)) then []
    else ["Representative ID must be exactly 7 digits."]) ++
   (if re_test Client.emailPattern (trim (repEmail form)) then []
    else ["Representative email must be valid."]) ++
   (if re_test App.coursePattern (trim (courseCode form)) then []
    else ["Course code must follow a pattern like CCSW321."]) ++
   (if (length (trim (projectName form)) <? 3)%nat
    then ["Project title must be at least 3 characters."] else []) ++
   (if category form is [] then ["Please select a major / track."]
    else []) ++
   (match projectTypeChecked form with
    | Some _ => []
    | None => ["Please select a project type."]
    end) ++
   (if (length (trim (projectDesc form)) <? 10)%nat
    then ["Project description must be at least 10 characters."] else []))%list.

(** [teamSize: teamSizeVal] in the request: the parsed number ([NaN] is
    serialized as [null]). *)
Definition teamSize_json (n : option Z) : data :=
  match n with
  | Some z => One (JNum z)
  | None => One JNull
  end.

(** The body the project form handler sends. *)
Definition project_request (form : projectForm) : gmap string data :=
  list_to_map
    [ ("teamName", One (JStr (trim (teamName form))));
      ("teamSize", teamSize_json (parseInt (teamSize form)));
      ("repName", One (JStr (trim (repName form))));
      ("repId", One (JStr (trim (repId form))));
      ("repEmail", One (JStr (trim (repEmail form))));
      ("otherMembers", One (JStr (trim (otherMembers form))));
      ("courseCode", One (JStr (trim (courseCode form))));
      ("category", One (JStr (category form)));
      ("projectType", One (JStr (default [] (projectTypeChecked form))));
      ("projectName", One (JStr (trim (projectName form))));
      ("projectDesc", One (JStr (trim (projectDesc form))));
      ("tools", One (JStr (trim (tools form)))) ].

(** The submit listener of [initProjectForm], up to the request. *)
Definition project_submit (form : projectForm) : submitted :=
  match project_errors form with
  | [] => Sent (project_request form)
  | _ :: _ => Blocked (project_errors form)
  end.

(** The requests [fetch] makes of a body for a route: the body as it is, no
    query string, and headers (the content type and those the browser adds)
    that are none of the fields of the route. *)
Definition fetch (cs : list chain) (b : gmap string data) (rq : request) : Prop :=
  body rq = b /\ query rq = ∅ /\
  Forall (fun c => read rq Headers (field c) = One JUndefined) cs.

End Form.

(** Requests and form contents used to run the routes and the listeners. *)
Module Requests.
Import Utf16 Req Express Form.

(** A text of the source as the value of a field. *)
Definition str (s : string) : data := One (JStr (of_string s)).

(** An email predicate to run the model with: the client's pattern. *)
Definition pattern_lib : Library := {| isEmail := re_test Client.emailPattern |}.

(** A contact submission that meets every rule of the server. *)
Definition contact_ok : gmap string data :=
  list_to_map
    [ ("firstName", str "Sara"); ("lastName", str "Ali");
      ("gender", str "female"); ("mobile", str "0512345678");
      ("dob", str "2001-05-17"); ("email", str "sara@example.com");
      ("language", str "en"); ("message", str "hello there!") ].



(** A project submission that meets every rule, without the two optional
    fields. *)
Definition project_ok : gmap string data :=
  list_to_map
    [ ("teamName", str "  Team CM3 "); ("teamSize", One (JNum 3));
      ("repName", str "Sara Ali"); ("repId", str "1234567");
      ("repEmail", str "sara@uj.edu.sa"); ("courseCode", str "ccsw321");
      ("category", str "cs"); ("projectType", str "group");
      ("projectName", str "Idea Hub");
      ("projectDesc", str "a place to share project ideas") ].

(** The header a form of the pages sends with its body. *)
Definition json_headers : gmap string data :=
  {[ "content-type" := str "application/json" ]}.

(** A browser whose clock reads every date as past. *)
Definition all_past : Browser := {| date_after_now := fun _ => false |}.

(** GRINNING FACE, one character in two code units. *)
Definition grinning : ustring := [55357; 56832]%N.

Definition contact_filled : contactForm :=
  ContactForm (of_string " Sara ") (of_string "Ali") (Some (of_string "female"))
              (of_string "0512345678") (of_string "2001-05-17")
              (of_string "sara@example.com") (of_string "en")
              (of_string "hello there, classmates!").

(** The same form with a message of five such characters. *)
Definition contact_emoji : contactForm :=
  ContactForm (of_string " Sara ") (of_string "Ali") (Some (of_string "female"))
              (of_string "0512345678") (of_string "2001-05-17")
              (of_string "sara@example.com") (of_string "en")
              (grinning ++ grinning ++ grinning ++ grinning ++ grinning)%list.

Definition project_filled : projectForm :=
  ProjectForm (of_string " Team CM3 ") (of_string "3") (of_string "Sara Ali")
              (of_string "1234567") (of_string "sara@uj.edu.sa") []
              (of_string "ccsw321") (of_string "Idea Hub") (of_string "cs")
              (of_string "a place to share project ideas") []
              (Some (of_string "group")).

End Requests.

(** The submissions of the first model among the requests in full: a body
    of scalars whose texts are of characters below 256, and nothing else in
    the request. *)
Module Lift.
Import Utf16 Req.

Definition value (v : Js.value) : Req.value :=
  match v with
  | Js.JUndefined => JUndefined
  | Js.JNull => JNull
  | Js.JBool b => JBool b
  | Js.JNum n => JNum n
  | Js.JStr s => JStr (of_string s)
  end.

Definition cell (v : Js.value) : data := One (value v).

Definition body (b : gmap string Js.value) : gmap string data := cell <$> b.

Definition request (b : gmap string Js.value) : request := of_body (body b).

Definition verror (e : Validator.verror) : Express.verror :=
  Express.VError (value (Validator.err_value e)) (Validator.err_msg e)
                 (Validator.err_path e) (Validator.err_location e).

Definition contact_row (r : Db.contact_row) : list data :=
  [ cell (Db.first_name r); cell (Db.last_name r); cell (Db.gender r);
    cell (Db.mobile r); cell (Db.dob r); cell (Db.email r);
    cell (Db.language r); cell (Db.message r) ].

Definition project_row (r : Db.project_row) : list data :=
  [ cell (Db.team_name r); cell (Db.team_size r); cell (Db.rep_name r);
    cell (Db.rep_id r); cell (Db.rep_email r); cell (Db.other_members r);
    cell (Db.course_code r); cell (Db.category r); cell (Db.project_type r);
    cell (Db.project_name r); cell (Db.description r); cell (Db.tools r) ].

Definition store (st : Db.store) : Api.store :=
  Api.Store (map contact_row (Db.contact_messages st))
            (project_row <$> Db.projects st).

(** The bodies the two submission routes send. *)
Definition payload (p : Http.payload) : option Api.payload :=
  match p with
  | Http.OkMsg m => Some (Api.OkMsg m)
  | Http.ErrErrors es => Some (Api.ErrErrors (map verror es))
  | Http.ErrMsg m => Some (Api.ErrMsg m)
  | Http.OkData _ => None
  end.

Definition response (r : Http.response) : option Api.response :=
  Api.Response (Http.status_code r) <$> payload (Http.json r).

(** [isEmail] on texts of characters below 256. *)
Definition library (L : Express.Library) : ValidatorLib :=
  {| isEmail := fun s => Express.isEmail (of_string s) |}.

End Lift.

(* ===================================================================== *)
(** * Properties *)

(** ** Strings *)

Module StringFacts.
Import Chars.

Lemma append_cons (a : ascii) (s t : string) : String a s +:+ t = String a (s +:+ t).
Proof. reflexivity. Qed.

Lemma append_nil_l (s : string) : "" +:+ s = s.
Proof. reflexivity. Qed.

Lemma append_nil_r (s : string) : s +:+ "" = s.
Proof. induction s as [|a s IH]; [reflexivity | now rewrite append_cons, IH]. Qed.

Lemma append_assoc (s1 s2 s3 : string) : (s1 +:+ s2) +:+ s3 = s1 +:+ (s2 +:+ s3).
Proof.
  induction s1 as [|a s1 IH]; [reflexivity | now rewrite !append_cons, IH].
Qed.

Lemma length_append (s1 s2 : string) :
  String.length (s1 +:+ s2) = String.length s1 + String.length s2.
Proof.
  induction s1 as [|a s1 IH]; [reflexivity | rewrite append_cons; simpl; now rewrite IH].
Qed.

Lemma append_eq_nil (s1 s2 : string) : s1 +:+ s2 = "" -> s1 = "" /\ s2 = "".
Proof. destruct s1; [rewrite append_nil_l; auto | rewrite append_cons; discriminate]. Qed.

Lemma append_eq_cons (s1 s2 : string) (a : ascii) (s : string) :
  s1 +:+ s2 = String a s ->
  (s1 = "" /\ s2 = String a s) \/ (exists t, s1 = String a t /\ s = t +:+ s2).
Proof.
  destruct s1 as [|b t]; [rewrite append_nil_l | rewrite append_cons]; intros E.
  - left; auto.
  - right. injection E as -> <-. eauto.
Qed.

Lemma length_zero (s : string) : String.length s = 0 -> s = "".
Proof. destruct s; [reflexivity | discriminate]. Qed.

Lemma all_chars_append (p : ascii -> bool) (s1 s2 : string) :
  all_chars p (s1 +:+ s2) = all_chars p s1 && all_chars p s2.
Proof.
  induction s1 as [|a s1 IH]; [reflexivity|].
  rewrite append_cons. simpl. rewrite IH. now rewrite andb_assoc.
Qed.

(** What is left of a string by [ltrim] does not start with white space. *)
Lemma ltrim_head (s : string) :
  ltrim s = "" \/ exists a t, ltrim s = String a t /\ is_space a = false.
Proof.
  induction s as [|a s IH]; [now left|].
  simpl. destruct (is_space a) eqn:E; [exact IH|]. right. eauto.
Qed.

Lemma rtrim_cons (a : ascii) (s : string) :
  is_space a = false -> exists t, rtrim (String a s) = String a t.
Proof.
  intros E. simpl. destruct (rtrim s); [rewrite E|]; eauto.
Qed.

(** What is left of a string by [rtrim] does not end with white space. *)
Lemma rtrim_last (s t : string) (a : ascii) :
  rtrim s = t +:+ String a "" -> is_space a = false.
Proof.
  revert t. induction s as [|b s IH]; intros t E.
  - destruct t; discriminate.
  - simpl in E. destruct (rtrim s) as [|c u] eqn:Es.
    + destruct (is_space b) eqn:Eb.
      * destruct t; discriminate.
      * destruct t as [|d t].
        -- rewrite append_nil_l in E. now injection E as <-.
        -- rewrite append_cons in E. injection E as _ E. destruct t; discriminate.
    + destruct t as [|d t].
      * rewrite append_nil_l in E. discriminate.
      * rewrite append_cons in E. injection E as _ E. now apply (IH t).
Qed.

Lemma rtrim_idempotent (s : string) : rtrim (rtrim s) = rtrim s.
Proof.
  induction s as [|a s IH]; [reflexivity|].
  simpl. destruct (rtrim s) as [|b t] eqn:Es.
  - destruct (is_space a) eqn:Ea; [reflexivity|]. simpl. now rewrite Ea.
  - change (rtrim (String a (String b t))) with
      (match rtrim (String b t) with
       | EmptyString => if is_space a then EmptyString else String a EmptyString
       | u => String a u
       end).
    now rewrite IH.
Qed.

(** Trimming twice is trimming once. *)
Lemma trim_idempotent (s : string) : trim (trim s) = trim s.
Proof.
  unfold trim. destruct (ltrim_head s) as [E | (a & t & E & Ea)].
  - rewrite E. reflexivity.
  - rewrite E. destruct (rtrim_cons a t Ea) as (u & Eu). rewrite Eu.
    simpl ltrim. rewrite Ea. rewrite <- Eu. apply rtrim_idempotent.
Qed.

End StringFacts.

(** ** The matcher decides the language of a pattern *)

Module RegexFacts.
Import Chars Regex StringFacts.

Lemma lang_nil_nullable (r : regex) : lang r "" -> nullable r = true.
Proof.
  intros H. remember "" as s eqn:E.
  induction H; simpl; try discriminate; try reflexivity.
  - apply append_eq_nil in E as [-> ->]. now rewrite IHlang1, IHlang2.
  - now rewrite IHlang.
  - rewrite IHlang by assumption. apply orb_true_r.
Qed.

Lemma nullable_lang (r : regex) : nullable r = true -> lang r "".
Proof.
  induction r; simpl; intros H; try discriminate.
  - constructor.
  - apply andb_true_iff in H as [H1 H2].
    change "" with ("" +:+ ""). constructor; auto.
  - apply orb_true_iff in H as [H|H]; [apply L_AltL | apply L_AltR]; auto.
  - constructor.
Qed.

Lemma lang_cons_deriv (a : ascii) (r : regex) (s : string) :
  lang r (String a s) -> lang (deriv a r) s.
Proof.
  intros H. remember (String a s) as t eqn:E. revert s E.
  induction H; intros u E; simpl; try discriminate.
  - injection E as -> <-. rewrite H. constructor.
  - apply append_eq_cons in E as [[-> ->] | (t & -> & ->)].
    + rewrite (lang_nil_nullable _ H). apply L_AltR. now apply IHlang2.
    + destruct (nullable r1); [apply L_AltL|]; constructor; auto.
  - apply L_AltL. auto.
  - apply L_AltR. auto.
  - apply append_eq_cons in E as [[-> ->] | (t & -> & ->)].
    + now apply IHlang2.
    + constructor; auto.
Qed.

Lemma lang_deriv_cons (a : ascii) (r : regex) (s : string) :
  lang (deriv a r) s -> lang r (String a s).
Proof.
  revert s. induction r; simpl; intros s H.
  - inversion H.
  - inversion H.
  - destruct (cls_mem c a) eqn:E; inversion H; subst. now constructor.
  - destruct (nullable r1) eqn:E.
    + inversion H as [| |? ? ? ? ? ?|? ? ? H1|? ? ? H1| |]; subst.
      * inversion H1; subst.
        change (String a (s1 +:+ s2)) with (String a s1 +:+ s2).
        constructor; auto.
      * change (String a s) with ("" +:+ String a s).
        constructor; [now apply nullable_lang | auto].
    + inversion H; subst.
      change (String a (s1 +:+ s2)) with (String a s1 +:+ s2).
      constructor; auto.
  - inversion H; subst; [apply L_AltL | apply L_AltR]; auto.
  - inversion H; subst.
    change (String a (s1 +:+ s2)) with (String a s1 +:+ s2).
    constructor; auto.
Qed.

(** [re_test] is membership in [lang]. *)
Lemma re_test_lang (r : regex) (s : string) : re_test r s = true <-> lang r s.
Proof.
  revert r. induction s as [|a s IH]; intros r; simpl.
  - split; [apply nullable_lang | apply lang_nil_nullable].
  - rewrite IH. split; [apply lang_deriv_cons | apply lang_cons_deriv].
Qed.

Lemma lang_Cat (r1 r2 : regex) (s : string) :
  lang (Cat r1 r2) s <-> exists s1 s2, s = s1 +:+ s2 /\ lang r1 s1 /\ lang r2 s2.
Proof.
  split.
  - intros H; inversion H; subst; eauto.
  - intros (s1 & s2 & -> & H1 & H2). now constructor.
Qed.

Lemma lang_Alt (r1 r2 : regex) (s : string) :
  lang (Alt r1 r2) s <-> lang r1 s \/ lang r2 s.
Proof.
  split.
  - intros H; inversion H; subst; auto.
  - intros [H|H]; [apply L_AltL | apply L_AltR]; auto.
Qed.

Lemma lang_Eps (s : string) : lang Eps s <-> s = "".
Proof. split; [intros H; now inversion H | intros ->; constructor]. Qed.

Lemma lang_Sym (c : cls) (s : string) :
  lang (Sym c) s <-> exists a, s = String a "" /\ cls_mem c a = true.
Proof.
  split.
  - intros H; inversion H; subst; eauto.
  - intros (a & -> & H). now constructor.
Qed.

Lemma lang_Opt (r : regex) (s : string) : lang (Opt r) s <-> lang r s \/ s = "".
Proof. unfold Opt. now rewrite lang_Alt, lang_Eps. Qed.

Lemma cls_mem_CChar (a b : ascii) : cls_mem (CChar a) b = true <-> b = a.
Proof. simpl. destruct (decide (b = a)); split; congruence. Qed.

Lemma lang_Lit (t s : string) : lang (Lit t) s <-> s = t.
Proof.
  revert s. induction t as [|a t IH]; intros s; simpl.
  - apply lang_Eps.
  - rewrite lang_Cat. split.
    + intros (s1 & s2 & -> & H1 & H2).
      apply lang_Sym in H1 as (b & -> & Hb). apply cls_mem_CChar in Hb as ->.
      apply IH in H2 as ->. reflexivity.
    + intros ->. exists (String a ""), t. split; [reflexivity|]. split.
      * apply lang_Sym. exists a. split; [reflexivity | now apply cls_mem_CChar].
      * now apply IH.
Qed.

Lemma lang_Rep_Sym (n : nat) (c : cls) (s : string) :
  lang (Rep n (Sym c)) s <->
  String.length s = n /\ all_chars (cls_mem c) s = true.
Proof.
  revert s. induction n as [|n IH]; intros s; simpl.
  - rewrite lang_Eps. split.
    + intros ->. auto.
    + intros [H _]. now apply length_zero.
  - rewrite lang_Cat. split.
    + intros (s1 & s2 & -> & H1 & H2).
      apply lang_Sym in H1 as (a & -> & Ha). apply IH in H2 as [<- H2].
      rewrite append_cons, append_nil_l. simpl. rewrite Ha, H2. auto.
    + intros [Hl Hc]. destruct s as [|a s]; [discriminate|].
      simpl in *. apply andb_true_iff in Hc as [Ha Hc].
      exists (String a ""), s. split; [reflexivity|]. split.
      * apply lang_Sym; eauto.
      * apply IH. split; [lia | assumption].
Qed.

Lemma lang_Star_Sym (c : cls) (s : string) :
  lang (Star (Sym c)) s <-> all_chars (cls_mem c) s = true.
Proof.
  split.
  - intros H. remember (Star (Sym c)) as r eqn:E.
    induction H; try discriminate; [reflexivity|].
    injection E as ->. apply lang_Sym in H as (a & -> & Ha).
    rewrite append_cons, append_nil_l. simpl. rewrite Ha. now apply IHlang2.
  - induction s as [|a s IH]; simpl; intros H.
    + constructor.
    + apply andb_true_iff in H as [Ha H].
      change (String a s) with (String a "" +:+ s).
      constructor; [apply lang_Sym; eauto | auto].
Qed.

Lemma lang_AtLeast_Sym (n : nat) (c : cls) (s : string) :
  lang (AtLeast n (Sym c)) s <->
  n <= String.length s /\ all_chars (cls_mem c) s = true.
Proof.
  unfold AtLeast. rewrite lang_Cat. split.
  - intros (s1 & s2 & -> & H1 & H2).
    apply lang_Rep_Sym in H1 as [<- H1]. apply lang_Star_Sym in H2.
    rewrite length_append, all_chars_append, H1, H2. split; [lia | reflexivity].
  - revert s. induction n as [|n IH]; intros s [Hl Hc].
    + exists "", s. split; [reflexivity|]. split.
      * apply lang_Rep_Sym. auto.
      * now apply lang_Star_Sym.
    + destruct s as [|a s]; simpl in *; [lia|].
      apply andb_true_iff in Hc as [Ha Hc].
      destruct (IH s) as (s1 & s2 & -> & H1 & H2); [split; [lia | assumption]|].
      exists (String a s1), s2. split; [reflexivity|]. split; [|assumption].
      apply lang_Rep_Sym in H1 as [Hn H1].
      apply (proj2 (lang_Rep_Sym (S n) c (String a s1))).
      simpl. rewrite Ha, H1, Hn. auto.
Qed.

End RegexFacts.

(** ** Running validation chains *)

Module ValidatorFacts.
Import Chars Regex Js Validator.

Section WithLib.
Context `{ValidatorLib}.

Lemma get_insert (b : body) (f g : string) (v : value) :
  get (<[f := v]> b) g = if decide (f = g) then v else get b g.
Proof.
  unfold get. rewrite lookup_insert. now destruct (decide (f = g)).
Qed.

(** A chain touches its own field only, and leaves there its sanitized value. *)
Lemma run_chain_get (c : chain) (b : body) (g : string) :
  get (run_chain c b).1 g =
  if decide (field c = g) then sanitized c (get b g) else get b g.
Proof.
  unfold run_chain, sanitized. simpl.
  destruct (decide ((run_stack (field c) (stack c) (get b (field c))).1
                    = get b (field c))) as [E|E].
  - destruct (decide (field c = g)) as [<-|]; [now rewrite E | reflexivity].
  - rewrite get_insert. now destruct (decide (field c = g)) as [<-|].
Qed.

Lemma run_chain_errors (c : chain) (b : body) :
  (run_chain c b).2 = errors_of c (get b (field c)).
Proof. reflexivity. Qed.

Lemma run_chains_cons_body (c : chain) (k : list chain) (b : body) :
  (run_chains (c :: k) b).1 = (run_chains k (run_chain c b).1).1.
Proof. reflexivity. Qed.

Lemma run_chains_cons_errors (c : chain) (k : list chain) (b : body) :
  (run_chains (c :: k) b).2 =
  ((run_chain c b).2 ++ (run_chains k (run_chain c b).1).2)%list.
Proof. reflexivity. Qed.

Lemma run_chains_get_other (cs : list chain) (b : body) (g : string) :
  g ∉ map field cs -> get (run_chains cs b).1 g = get b g.
Proof.
  revert b. induction cs as [|c k IH]; intros b Hg; [reflexivity|].
  rewrite run_chains_cons_body.
  simpl in Hg. apply not_elem_of_cons in Hg as [Hc Hk].
  rewrite IH by assumption. rewrite run_chain_get.
  destruct (decide (field c = g)); congruence.
Qed.

Lemma run_chains_get (cs : list chain) (b : body) (c : chain) :
  NoDup (map field cs) -> c ∈ cs ->
  get (run_chains cs b).1 (field c) = sanitized c (get b (field c)).
Proof.
  revert b. induction cs as [|c0 k IH]; intros b Hnd Hin.
  - inversion Hin.
  - rewrite run_chains_cons_body.
    simpl in Hnd. apply NoDup_cons in Hnd as [Hc0 Hnd].
    apply elem_of_cons in Hin as [->|Hin].
    + rewrite run_chains_get_other by assumption.
      rewrite run_chain_get. now destruct (decide (field c0 = field c0)).
    + rewrite IH by assumption. rewrite run_chain_get.
      destruct (decide (field c0 = field c)) as [E|]; [|reflexivity].
      exfalso. apply Hc0. rewrite E. now apply list_elem_of_fmap_2.
Qed.

Lemma run_chains_errors_gen (cs : list chain) (b b0 : body) :
  NoDup (map field cs) ->
  (forall c, c ∈ cs -> get b (field c) = get b0 (field c)) ->
  (run_chains cs b).2 = flat_map (fun c => errors_of c (get b0 (field c))) cs.
Proof.
  revert b. induction cs as [|c k IH]; intros b Hnd Hb; [reflexivity|].
  rewrite run_chains_cons_errors. simpl flat_map.
  simpl in Hnd. apply NoDup_cons in Hnd as [Hc Hnd].
  rewrite run_chain_errors, (Hb c) by apply list_elem_of_here.
  f_equal. apply IH; [assumption|].
  intros c' Hc'. rewrite run_chain_get.
  destruct (decide (field c = field c')) as [E|].
  - exfalso. apply Hc. rewrite E. now apply list_elem_of_fmap_2.
  - apply Hb. now apply list_elem_of_further.
Qed.

(** The errors of a route are the errors of its chains on the fields of
    the request body, in the order of the route. *)
Lemma run_chains_errors (cs : list chain) (b : body) :
  NoDup (map field cs) ->
  (run_chains cs b).2 = flat_map (fun c => errors_of c (get b (field c))) cs.
Proof. intros Hnd. now apply run_chains_errors_gen. Qed.

Lemma accepts_true (c : chain) (v : value) :
  accepts c v = true <-> errors_of c v = [].
Proof. unfold accepts. destruct (errors_of c v); split; congruence. Qed.

Lemma flat_map_nil {A B} (f : A -> list B) (l : list A) :
  flat_map f l = [] <-> Forall (fun x => f x = []) l.
Proof.
  induction l as [|x l IH]; simpl.
  - split; [constructor | reflexivity].
  - rewrite Forall_cons, <- IH. split.
    + intros E. now apply app_eq_nil in E.
    + intros [-> ->]. reflexivity.
Qed.

(** A body passes a route exactly when every chain accepts its field. *)
Lemma passes_iff (cs : list chain) (b : body) :
  NoDup (map field cs) ->
  (run_chains cs b).2 = [] <->
  Forall (fun c => accepts c (get b (field c)) = true) cs.
Proof.
  intros Hnd. rewrite run_chains_errors by assumption.
  rewrite flat_map_nil. apply Forall_iff. intros c. symmetry. apply accepts_true.
Qed.


End WithLib.

End ValidatorFacts.

(** ** The store: fresh identifiers and the ordered listing *)

Module DbFacts.
Import Js Db.

Lemma le_foldr_max (k : N) (l : list N) : k ∈ l -> (k <= foldr N.max 0 l)%N.
Proof.
  induction l as [|x l IH]; intros Hk.
  - inversion Hk.
  - simpl. apply elem_of_cons in Hk as [->|Hk]; [lia|].
    specialize (IH Hk). lia.
Qed.

Lemma le_max_id (t : gmap N project_row) (k : N) (r : project_row) :
  t !! k = Some r -> (k <= max_id t)%N.
Proof.
  intros Hk. unfold max_id. apply le_foldr_max.
  apply elem_of_map_to_list in Hk.
  apply (list_elem_of_fmap_2 fst) in Hk. exact Hk.
Qed.

(** The identifier given to a new project is not in use. *)
Lemma next_id_fresh (t : gmap N project_row) : t !! next_id t = None.
Proof.
  destruct (t !! next_id t) as [r|] eqn:E; [|reflexivity].
  apply le_max_id in E. unfold next_id in E. lia.
Qed.

(** It is larger than every identifier in use. *)
Lemma next_id_above (t : gmap N project_row) (k : N) (r : project_row) :
  t !! k = Some r -> (k < next_id t)%N.
Proof. intros Hk. apply le_max_id in Hk. unfold next_id. lia. Qed.

#[local] Instance id_desc_trans : Transitive id_desc.
Proof. intros x y z; unfold id_desc; lia. Qed.

#[local] Instance id_desc_total : Total id_desc.
Proof. intros x y; unfold id_desc; lia. Qed.

Lemma select_desc_perm (st : store) : select_desc st ≡ₚ map_to_list (projects st).
Proof. apply merge_sort_Permutation. Qed.

Lemma select_desc_sorted (st : store) : StronglySorted id_desc (select_desc st).
Proof. apply StronglySorted_merge_sort; apply _. Qed.

Lemma select_desc_ids_NoDup (st : store) : NoDup (map fst (select_desc st)).
Proof.
  change (NoDup ((select_desc st).*1)).
  rewrite select_desc_perm. apply NoDup_fst_map_to_list.
Qed.

Lemma StronglySorted_lookup {A} (R : relation A) (l : list A) (i j : nat) (a b : A) :
  StronglySorted R l -> l !! i = Some a -> l !! j = Some b -> i < j -> R a b.
Proof.
  intros Hs. revert i j. induction Hs as [|x l Hs IH Hx]; intros i j Hi Hj Hij.
  - discriminate.
  - destruct j as [|j]; [lia|]. simpl in Hj. destruct i as [|i].
    + simpl in Hi. injection Hi as <-.
      rewrite Forall_forall in Hx. apply Hx. eapply list_elem_of_lookup_2; eauto.
    + simpl in Hi. apply (IH i j); [assumption | assumption | lia].
Qed.

(** The listing is in strictly descending order of identifier. *)
Lemma select_desc_strict (st : store) :
  Shapes.strictly_descending (map fst (select_desc st)).
Proof.
  intros i j x y Hi Hj Hij.
  change (map fst (select_desc st)) with ((select_desc st).*1) in Hi, Hj.
  rewrite list_lookup_fmap in Hi, Hj.
  destruct (select_desc st !! i) as [a|] eqn:Ea; [|discriminate].
  destruct (select_desc st !! j) as [b|] eqn:Eb; [|discriminate].
  simpl in Hi, Hj. injection Hi as <-. injection Hj as <-.
  pose proof (StronglySorted_lookup _ _ _ _ _ _ (select_desc_sorted st) Ea Eb Hij) as Hle.
  unfold id_desc in Hle.
  assert (a.1 <> b.1) as Hne.
  { intros E. pose proof (select_desc_ids_NoDup st) as Hnd.
    change (map fst (select_desc st)) with ((select_desc st).*1) in Hnd.
    assert (i = j) as ->; [|lia].
    eapply NoDup_lookup; [exact Hnd | |].
    - rewrite list_lookup_fmap, Ea. reflexivity.
    - rewrite list_lookup_fmap, Eb. simpl. now rewrite E. }
  lia.
Qed.

(** A stored project is listed, with its identifier, exactly once. *)
Lemma select_desc_complete (st : store) (k : N) (r : project_row) :
  (k, r) ∈ select_desc st <-> projects st !! k = Some r.
Proof. rewrite select_desc_perm. apply elem_of_map_to_list. Qed.

Lemma select_desc_empty (cm : list contact_row) : select_desc (Store cm ∅) = [].
Proof. unfold select_desc. simpl. rewrite map_to_list_empty. reflexivity. Qed.

End DbFacts.

(** ** The rules of backend/server.js, field by field *)

Module ServerFacts.
Import Chars Regex Js Validator Db Http Server.
Import StringFacts RegexFacts ValidatorFacts.

Lemma lang_Lit_Rep (t : string) (n : nat) (c : cls) (s : string) :
  lang (Cat (Lit t) (Rep n (Sym c))) s <->
  exists d, s = t +:+ d /\ String.length d = n /\ all_chars (cls_mem c) d = true.
Proof.
  rewrite lang_Cat. split.
  - intros (s1 & s2 & -> & H1 & H2). apply lang_Lit in H1 as ->.
    apply lang_Rep_Sym in H2. eauto.
  - intros (d & -> & Hd). exists t, d. split; [reflexivity|]. split.
    + now apply lang_Lit.
    + now apply lang_Rep_Sym.
Qed.

(** The language of the mobile pattern of the server. *)
Lemma lang_mobile_re (s : string) : lang mobile_re s <-> Shapes.saudi_mobile s.
Proof.
  unfold mobile_re, Shapes.saudi_mobile, Shapes.digits.
  rewrite lang_Alt, lang_Cat, lang_Lit_Rep. split.
  - intros [(s1 & s2 & -> & H1 & H2) | (d & -> & Hd)].
    + apply lang_Lit_Rep in H2 as (d & -> & Hd). exists d. split; [exact Hd|].
      apply lang_Opt in H1 as [H1 | ->].
      * apply lang_Sym in H1 as (a & -> & Ha). apply cls_mem_CChar in Ha as ->.
        left. reflexivity.
      * right; left. reflexivity.
    + exists d. split; [exact Hd|]. right; right. reflexivity.
  - intros (d & Hd & [-> | [-> | ->]]).
    + left. exists "+", ("9665" +:+ d). split; [reflexivity|]. split.
      * apply lang_Opt. left. apply lang_Sym. exists "+"%char.
        split; [reflexivity | now apply cls_mem_CChar].
      * apply lang_Lit_Rep. eauto.
    + left. exists "", ("9665" +:+ d). split; [reflexivity|]. split.
      * apply lang_Opt. now right.
      * apply lang_Lit_Rep. eauto.
    + right. eauto.
Qed.

(** The language of the representative-id pattern. *)
Lemma lang_repId_re (s : string) : lang repId_re s <-> Shapes.digits 7 s.
Proof. apply lang_Rep_Sym. Qed.

(** The language of the course-code pattern. *)
Lemma lang_courseCode_re (s : string) :
  lang courseCode_re s <-> Shapes.course_code s.
Proof.
  unfold courseCode_re, Shapes.course_code. rewrite lang_Cat. split.
  - intros (l & d & -> & Hl & Hd).
    apply lang_AtLeast_Sym in Hl as [Hl1 Hl2].
    apply lang_AtLeast_Sym in Hd as [Hd1 Hd2].
    exists l, d. auto.
  - intros (l & d & -> & Hl1 & Hl2 & Hd1 & Hd2).
    exists l, d. split; [reflexivity|].
    split; apply lang_AtLeast_Sym; auto.
Qed.

(** The language of the mobile pattern of the client. *)
Lemma lang_mobilePattern (s : string) :
  lang Client.mobilePattern s <-> Shapes.plus9665_or_05 s.
Proof.
  unfold Client.mobilePattern, Shapes.plus9665_or_05, Shapes.digits.
  rewrite lang_Alt, !lang_Lit_Rep. split.
  - intros [(d & -> & Hd) | (d & -> & Hd)]; exists d; auto.
  - intros (d & Hd & [-> | ->]); [left | right]; eauto.
Qed.

Section WithLib.
Context `{ValidatorLib}.

Lemma accepts_trim_validate (f : string) (vd : validator) (m : string) (v : value) :
  accepts (Chain f [Trim; Validate vd m]) v = eval vd (trim (toString v)).
Proof.
  unfold accepts, errors_of. cbn [run_stack stack field fst snd toString].
  destruct (eval vd (trim (toString v))); reflexivity.
Qed.

Lemma accepts_validate (f : string) (vd : validator) (m : string) (v : value) :
  accepts (Chain f [Validate vd m]) v = eval vd (toString v).
Proof.
  unfold accepts, errors_of. cbn [run_stack stack field fst snd].
  destruct (eval vd (toString v)); reflexivity.
Qed.

Lemma sanitized_trim_validate (f : string) (vd : validator) (m : string) (v : value) :
  sanitized (Chain f [Trim; Validate vd m]) v = trimmed v.
Proof. reflexivity. Qed.

Lemma sanitized_validate (f : string) (vd : validator) (m : string) (v : value) :
  sanitized (Chain f [Validate vd m]) v = v.
Proof. reflexivity. Qed.



Lemma contact_fields_NoDup : NoDup (map field contact_validators).
Proof. apply (bool_decide_unpack _). vm_compute. exact I. Qed.

Lemma project_fields_NoDup : NoDup (map field project_validators).
Proof. apply (bool_decide_unpack _). vm_compute. exact I. Qed.



Lemma isLength_spec (lo hi : nat) (s : string) :
  isLength lo hi s = true <-> lo <= String.length s <= hi.
Proof.
  unfold isLength. rewrite andb_true_iff, !Nat.leb_le. reflexivity.
Qed.

Lemma notEmpty_spec (s : string) : negb (isEmpty s) = true <-> s <> "".
Proof.
  unfold isEmpty. destruct s; simpl; split; congruence.
Qed.

End WithLib.

Section Accepts.
Context `{ValidatorLib}.

Ltac by_shape :=
  first [ exact (accepts_trim_validate _ _ _ _) | exact (accepts_validate _ _ _ _) ].

Lemma accepts_firstName (v : value) :
  accepts check_firstName v = isLength 2 30 (trim (toString v)).
Proof. by_shape. Qed.

Lemma accepts_lastName (v : value) :
  accepts check_lastName v = isLength 2 30 (trim (toString v)).
Proof. by_shape. Qed.

Lemma accepts_gender (v : value) :
  accepts check_gender v = negb (isEmpty (toString v)).
Proof. by_shape. Qed.

Lemma accepts_mobile (v : value) :
  accepts check_mobile v = re_test mobile_re (trim (toString v)).
Proof. by_shape. Qed.

Lemma accepts_dob (v : value) :
  accepts check_dob v = negb (isEmpty (trim (toString v))).
Proof. by_shape. Qed.

Lemma accepts_email (v : value) :
  accepts check_email v = isEmail (trim (toString v)).
Proof. by_shape. Qed.

Lemma accepts_language (v : value) :
  accepts check_language v = negb (isEmpty (toString v)).
Proof. by_shape. Qed.

Lemma accepts_message (v : value) :
  accepts check_message v = isLength 10 1000 (trim (toString v)).
Proof. by_shape. Qed.

Lemma accepts_teamName (v : value) :
  accepts check_teamName v = isLength 3 50 (trim (toString v)).
Proof. by_shape. Qed.

Lemma accepts_teamSize (v : value) :
  accepts check_teamSize v = isInt 1 10 (toString v).
Proof. by_shape. Qed.

Lemma accepts_repName (v : value) :
  accepts check_repName v = isLength 3 50 (trim (toString v)).
Proof. by_shape. Qed.

Lemma accepts_repId (v : value) :
  accepts check_repId v = re_test repId_re (trim (toString v)).
Proof. by_shape. Qed.

Lemma accepts_repEmail (v : value) :
  accepts check_repEmail v = isEmail (trim (toString v)).
Proof. by_shape. Qed.

Lemma accepts_courseCode (v : value) :
  accepts check_courseCode v = re_test courseCode_re (trim (toString v)).
Proof. by_shape. Qed.

Lemma accepts_category (v : value) :
  accepts check_category v = negb (isEmpty (toString v)).
Proof. by_shape. Qed.

Lemma accepts_projectType (v : value) :
  accepts check_projectType v = negb (isEmpty (toString v)).
Proof. by_shape. Qed.

Lemma accepts_projectName (v : value) :
  accepts check_projectName v = isLength 3 60 (trim (toString v)).
Proof. by_shape. Qed.

Lemma accepts_projectDesc (v : value) :
  accepts check_projectDesc v = isLength 10 400 (trim (toString v)).
Proof. by_shape. Qed.

(** The rule set of [POST /api/contact], spelled out. *)
Lemma contact_passes_iff (b : body) :
  passes contact_validators b <->
  isLength 2 30 (trim (toString (get b "firstName"))) = true /\
  isLength 2 30 (trim (toString (get b "lastName"))) = true /\
  toString (get b "gender") <> "" /\
  re_test mobile_re (trim (toString (get b "mobile"))) = true /\
  trim (toString (get b "dob")) <> "" /\
  isEmail (trim (toString (get b "email"))) = true /\
  toString (get b "language") <> "" /\
  isLength 10 1000 (trim (toString (get b "message"))) = true.
Proof.
  unfold passes. rewrite (passes_iff _ _ contact_fields_NoDup).
  unfold contact_validators. rewrite !Forall_cons, Forall_nil.
  rewrite accepts_firstName, accepts_lastName, accepts_gender, accepts_mobile,
    accepts_dob, accepts_email, accepts_language, accepts_message.
  rewrite !notEmpty_spec. cbn [field check_firstName check_lastName check_gender
    check_mobile check_dob check_email check_language check_message
    withMessage trim_ isLength_ notEmpty_ matches_ isEmail_ push check].
  tauto.
Qed.

(** The rule set of [POST /api/project], spelled out. *)
Lemma project_passes_iff (b : body) :
  passes project_validators b <->
  isLength 3 50 (trim (toString (get b "teamName"))) = true /\
  isInt 1 10 (toString (get b "teamSize")) = true /\
  isLength 3 50 (trim (toString (get b "repName"))) = true /\
  re_test repId_re (trim (toString (get b "repId"))) = true /\
  isEmail (trim (toString (get b "repEmail"))) = true /\
  re_test courseCode_re (trim (toString (get b "courseCode"))) = true /\
  toString (get b "category") <> "" /\
  toString (get b "projectType") <> "" /\
  isLength 3 60 (trim (toString (get b "projectName"))) = true /\
  isLength 10 400 (trim (toString (get b "projectDesc"))) = true.
Proof.
  unfold passes. rewrite (passes_iff _ _ project_fields_NoDup).
  unfold project_validators. rewrite !Forall_cons, Forall_nil.
  rewrite accepts_teamName, accepts_teamSize, accepts_repName, accepts_repId,
    accepts_repEmail, accepts_courseCode, accepts_category, accepts_projectType,
    accepts_projectName, accepts_projectDesc.
  rewrite !notEmpty_spec. cbn [field check_teamName check_teamSize check_repName
    check_repId check_repEmail check_courseCode check_category check_projectType
    check_projectName check_projectDesc
    withMessage trim_ isLength_ notEmpty_ matches_ isEmail_ isInt_ push check].
  tauto.
Qed.

End Accepts.

End ServerFacts.

(** ** What the server's rules accept *)

Module Rules.
Import Chars Regex Js Validator Db Http Server.
Import StringFacts RegexFacts ValidatorFacts ServerFacts.

(** C2 (as amended).  The mobile rule of the server accepts a value exactly
    when its trimmed string is [+9665] or [9665] followed by 8 digits, or
    [05] followed by 8 digits: the leading [+] is optional.  Of the four
    boundary strings, [05012345678] (11 characters) is rejected,
    [0501234567] (10 characters) is accepted, [+966501234567] is accepted
    and [9665012345678] is rejected. *)
Theorem mobile_rule `{ValidatorLib} :
  (forall v : value,
     accepts check_mobile v = true <-> Shapes.saudi_mobile (trim (toString v))) /\
  accepts check_mobile (JStr "05012345678") = false /\
  accepts check_mobile (JStr "0501234567") = true /\
  accepts check_mobile (JStr "+966501234567") = true /\
  accepts check_mobile (JStr "9665012345678") = false.
Proof.
  split.
  - intros v. rewrite accepts_mobile, re_test_lang. apply lang_mobile_re.
  - rewrite !accepts_mobile. repeat split; vm_compute; reflexivity.
Qed.

(** C2, the claim as stated fails: the server rejects [05012345678],
    accepts [0501234567], and accepts [966512345678], which has neither the
    form [+9665] + 8 digits nor the form [05] + 8 digits. *)
Lemma mobile_claim_refuted :
  (forall lib : ValidatorLib,
     @accepts lib check_mobile (JStr "05012345678") = false) /\
  (forall lib : ValidatorLib,
     @accepts lib check_mobile (JStr "0501234567") = true) /\
  (forall lib : ValidatorLib,
     @accepts lib check_mobile (JStr "966512345678") = true) /\
  ~ Shapes.plus9665_or_05 "966512345678".
Proof.
  repeat split; try (intros lib; rewrite accepts_mobile; vm_compute; reflexivity).
  intros Hs. apply lang_mobilePattern, re_test_lang in Hs.
  vm_compute in Hs. discriminate.
Qed.

(** C3 (as amended).  The date-of-birth rule of the server accepts a value
    exactly when its trimmed string is not empty; the server neither parses
    the value as a date nor compares it with the current date. *)
Theorem dob_rule `{ValidatorLib} (v : value) :
  accepts check_dob v = true <-> trim (toString v) <> "".
Proof. rewrite accepts_dob. apply notEmpty_spec. Qed.

(** C5 (as amended).  The name rules of the server accept a value exactly
    when its trimmed string has between 2 and 30 characters, whatever the
    characters are. *)
Theorem name_rules `{ValidatorLib} (v : value) :
  (accepts check_firstName v = true <->
   2 <= String.length (trim (toString v)) <= 30) /\
  (accepts check_lastName v = true <->
   2 <= String.length (trim (toString v)) <= 30).
Proof.
  rewrite accepts_firstName, accepts_lastName. split; apply isLength_spec.
Qed.

End Rules.

(** ** The submission handlers *)

Module Submission.
Import Chars Regex Js Validator Db Http Server.
Import StringFacts RegexFacts ValidatorFacts ServerFacts.

Ltac in_route :=
  repeat first [ apply list_elem_of_here | apply list_elem_of_further ].

Ltac not_in_route := apply (bool_decide_unpack _); vm_compute; exact I.

Section WithLib.
Context `{ValidatorLib}.

(** The parameters bound by the contact insert are the validated fields. *)
Lemma contact_params_validated (b : body) :
  contact_params (run_chains contact_validators b).1 = validated_contact b.
Proof.
  unfold contact_params, validated_contact.
  f_equal;
    match goal with
    | |- get _ ?f = _ =>
        first
          [ exact (run_chains_get contact_validators b check_firstName
                     contact_fields_NoDup ltac:(in_route))
          | exact (run_chains_get contact_validators b check_lastName
                     contact_fields_NoDup ltac:(in_route))
          | exact (run_chains_get contact_validators b check_gender
                     contact_fields_NoDup ltac:(in_route))
          | exact (run_chains_get contact_validators b check_mobile
                     contact_fields_NoDup ltac:(in_route))
          | exact (run_chains_get contact_validators b check_dob
                     contact_fields_NoDup ltac:(in_route))
          | exact (run_chains_get contact_validators b check_email
                     contact_fields_NoDup ltac:(in_route))
          | exact (run_chains_get contact_validators b check_language
                     contact_fields_NoDup ltac:(in_route))
          | exact (run_chains_get contact_validators b check_message
                     contact_fields_NoDup ltac:(in_route)) ]
    end.
Qed.

(** The parameters bound by the project insert are the validated fields,
    the two optional ones read from the body as it was sent. *)
Lemma project_params_validated (b : body) :
  project_params (run_chains project_validators b).1 = validated_project b.
Proof.
  unfold project_params, validated_project.
  rewrite (run_chains_get_other project_validators b "otherMembers")
    by not_in_route.
  rewrite (run_chains_get_other project_validators b "tools") by not_in_route.
  f_equal;
    match goal with
    | |- get _ ?f = _ =>
        first
          [ exact (run_chains_get project_validators b check_teamName
                     project_fields_NoDup ltac:(in_route))
          | exact (run_chains_get project_validators b check_teamSize
                     project_fields_NoDup ltac:(in_route))
          | exact (run_chains_get project_validators b check_repName
                     project_fields_NoDup ltac:(in_route))
          | exact (run_chains_get project_validators b check_repId
                     project_fields_NoDup ltac:(in_route))
          | exact (run_chains_get project_validators b check_repEmail
                     project_fields_NoDup ltac:(in_route))
          | exact (run_chains_get project_validators b check_courseCode
                     project_fields_NoDup ltac:(in_route))
          | exact (run_chains_get project_validators b check_category
                     project_fields_NoDup ltac:(in_route))
          | exact (run_chains_get project_validators b check_projectType
                     project_fields_NoDup ltac:(in_route))
          | exact (run_chains_get project_validators b check_projectName
                     project_fields_NoDup ltac:(in_route))
          | exact (run_chains_get project_validators b check_projectDesc
                     project_fields_NoDup ltac:(in_route)) ]
    end.
Qed.

Lemma post_contact_valid (o : outcome) (b : body) (st : store) :
  passes contact_validators b ->
  post_contact o b st =
  match o with
  | Completes =>
      (Response 200 (OkMsg "your message was received successfully ✔"),
       insert_contact (validated_contact b) st)
  | Throws =>
      (Response 500 (ErrMsg "database error while saving your message."), st)
  end.
Proof.
  unfold passes, post_contact. intros ->.
  rewrite contact_params_validated. destruct o; reflexivity.
Qed.

Lemma post_project_valid (o : outcome) (b : body) (st : store) :
  passes project_validators b ->
  post_project o b st =
  match o with
  | Completes =>
      (Response 200 (OkMsg "team project idea saved successfully ✔"),
       insert_project (validated_project b) st)
  | Throws =>
      (Response 500 (ErrMsg "database error while saving project."), st)
  end.
Proof.
  unfold passes, post_project. intros ->.
  rewrite project_params_validated. destruct o; reflexivity.
Qed.

Lemma post_contact_invalid (o : outcome) (b : body) (st : store) :
  ~ passes contact_validators b ->
  post_contact o b st =
  (Response 400 (ErrErrors (run_chains contact_validators b).2), st).
Proof.
  unfold passes, post_contact. intros Hn.
  destruct (run_chains contact_validators b).2; [congruence | reflexivity].
Qed.

Lemma post_project_invalid (o : outcome) (b : body) (st : store) :
  ~ passes project_validators b ->
  post_project o b st =
  (Response 400 (ErrErrors (run_chains project_validators b).2), st).
Proof.
  unfold passes, post_project. intros Hn.
  destruct (run_chains project_validators b).2; [congruence | reflexivity].
Qed.




End WithLib.

Section Claims.
Context `{ValidatorLib}.




Lemma post_cases (o : outcome) (rq : request) (st : store) :
  is_post rq ->
  (passes_request rq /\
   exists okm errm,
     handle o rq st =
     match o with
     | Completes => (Response 200 (OkMsg okm), (handle o rq st).2)
     | Throws => (Response 500 (ErrMsg errm), st)
     end) \/
  (~ passes_request rq /\
   exists e es, handle o rq st = (Response 400 (ErrErrors (e :: es)), st)).
Proof.
  destruct rq as [b|b|]; unfold passes_request, passes, handle;
    cbn [validators_for body_of is_post]; intros Hp; [| |destruct Hp].
  - destruct (run_chains contact_validators b).2 as [|e es] eqn:E.
    + left. split; [reflexivity|]. do 2 eexists.
      rewrite (post_contact_valid o b st E). destruct o; reflexivity.
    + right. split; [discriminate|]. exists e, es.
      rewrite post_contact_invalid by (unfold passes; congruence). now rewrite E.
  - destruct (run_chains project_validators b).2 as [|e es] eqn:E.
    + left. split; [reflexivity|]. do 2 eexists.
      rewrite (post_project_valid o b st E). destruct o; reflexivity.
    + right. split; [discriminate|]. exists e, es.
      rewrite post_project_invalid by (unfold passes; congruence). now rewrite E.
Qed.

(** C7.  A submission that passes validation and whose write throws is
    answered with 500 and [{status: "error", msg}]; a submission that fails
    validation is answered with 400 and [{status: "error", errors}]; the
    store is unchanged in both cases, and the status code as well as the
    property names of the body tell the two kinds of failure apart. *)
Theorem error_kinds_distinguishable (o : outcome) (rq : request) (st : store) :
  is_post rq ->
  (passes_request rq -> o = Throws ->
   exists m, handle o rq st = (Response 500 (ErrMsg m), st)) /\
  (~ passes_request rq ->
   exists es, es <> [] /\ handle o rq st = (Response 400 (ErrErrors es), st)) /\
  (status_of (json (handle o rq st).1) = "error" ->
   (handle o rq st).2 = st /\
   (status_code (handle o rq st).1 = 500 /\
    keys_of (json (handle o rq st).1) = ["status"; "msg"] /\
    passes_request rq /\ o = Throws
    \/
    status_code (handle o rq st).1 = 400 /\
    keys_of (json (handle o rq st).1) = ["status"; "errors"] /\
    ~ passes_request rq)).
Proof.
  intros Hp.
  destruct (post_cases o rq st Hp)
    as [(Hv & okm & errm & E) | (Hn & e & es & E)].
  - split; [|split].
    + intros _ ->. eauto.
    + intros Hn. now destruct Hn.
    + destruct o; rewrite E; cbn [fst snd json status_of status_code keys_of].
      * discriminate.
      * intros _. split; [reflexivity|]. left. auto.
  - split; [|split].
    + intros Hv. now destruct Hn.
    + intros _. exists (e :: es). split; [discriminate | exact E].
    + rewrite E. cbn [fst snd json status_of status_code keys_of].
      intros _. split; [reflexivity|]. right. auto.
Qed.

(** C6 (as amended).  When a project submission passes validation and the
    insert completes, the response is the success message and the store
    gains exactly one project row, under an identifier not in use before
    and larger than those in use, holding the fields as validated;
    [otherMembers] and [tools] are stored as the empty string when the
    request has none.  The other rows are untouched. *)
Theorem project_written_once (b : body) (st : store) :
  passes project_validators b ->
  let st' := (post_project Completes b st).2 in
  let id := next_id (projects st) in
  (post_project Completes b st).1 =
    Response 200 (OkMsg "team project idea saved successfully ✔") /\
  projects st !! id = None /\
  (forall k r, projects st !! k = Some r -> (k < id)%N) /\
  projects st' = <[id := validated_project b]> (projects st) /\
  size (projects st') = S (size (projects st)) /\
  contact_messages st' = contact_messages st /\
  (b !! "otherMembers" = None -> other_members (validated_project b) = JStr "") /\
  (b !! "tools" = None -> tools (validated_project b) = JStr "").
Proof.
  intros Hp. rewrite (post_project_valid Completes b st Hp).
  cbn [fst snd insert_project projects contact_messages].
  pose proof (DbFacts.next_id_fresh (projects st)) as Hf.
  split; [reflexivity|]. split; [exact Hf|].
  split; [apply DbFacts.next_id_above|]. split; [reflexivity|].
  split; [now apply map_size_insert_None|]. split; [reflexivity|].
  unfold validated_project, get; cbn [other_members tools].
  split; intros ->; reflexivity.
Qed.

End Claims.

Ltac field_by_field He :=
  repeat split; vm_compute;
  first [ reflexivity | discriminate | exact He ].

Lemma contact_ok_passes `{ValidatorLib} :
  isEmail "sara@example.com" = true ->
  passes contact_validators Samples.contact_ok /\
  passes contact_validators Samples.contact_future_dob /\
  passes contact_validators Samples.contact_no_date /\
  passes contact_validators Samples.contact_digit_name.
Proof.
  intros He. repeat split; apply contact_passes_iff; field_by_field He.
Qed.

Lemma project_ok_passes `{ValidatorLib} :
  isEmail "sara@uj.edu.sa" = true ->
  passes project_validators Samples.project_ok.
Proof.
  intros He. apply project_passes_iff; field_by_field He.
Qed.


(** The three reports of that submission, in the order of the route. *)
Example contact_bad_reports :
  map report
    (@run_chains Client.pattern_lib contact_validators Samples.contact_bad).2 =
  [ ("firstName", "first name must be 2–30 characters");
    ("mobile", "use saudi format: +9665xxxxxxxx or 05xxxxxxxx");
    ("message", "message must be between 10 and 1000 characters") ].
Proof. vm_compute. reflexivity. Qed.

(** C7 at an accepted contact submission whose insert throws. *)
Lemma error_kinds_distinguishable_witness :
  is_post (PostContact Samples.contact_ok) /\
  exists m,
    @handle Client.pattern_lib Throws (PostContact Samples.contact_ok)
      empty_store = (Response 500 (ErrMsg m), empty_store).
Proof.
  split; [exact I|].
  refine (proj1 (@error_kinds_distinguishable Client.pattern_lib Throws
                   (PostContact Samples.contact_ok) empty_store I) _ eq_refl).
  apply (@contact_ok_passes Client.pattern_lib). vm_compute. reflexivity.
Defined.

(** C6 at a project submission without the optional fields. *)
Lemma project_written_once_witness :
  @passes Client.pattern_lib project_validators Samples.project_ok /\
  (@post_project Client.pattern_lib Completes Samples.project_ok empty_store).1 =
    Response 200 (OkMsg "team project idea saved successfully ✔") /\
  other_members (validated_project Samples.project_ok) = JStr "" /\
  tools (validated_project Samples.project_ok) = JStr "" /\
  team_name (validated_project Samples.project_ok) = JStr "Team CM3".
Proof.
  assert (@passes Client.pattern_lib project_validators Samples.project_ok) as Hp
    by (apply (@project_ok_passes Client.pattern_lib); vm_compute; reflexivity).
  split; [exact Hp|].
  pose proof (@project_written_once Client.pattern_lib Samples.project_ok
                empty_store Hp) as Hw.
  cbv zeta in Hw.
  destruct Hw as (Hr & _ & _ & _ & _ & _ & Ho & Ht).
  split; [exact Hr|]. split; [apply Ho; vm_compute; reflexivity|].
  split; [apply Ht; vm_compute; reflexivity|]. vm_compute. reflexivity.
Defined.

(** C6, the claim as stated fails: a project submission that passes every
    rule is answered with 500, and nothing is written, when the insert
    throws. *)
Lemma project_claim_refuted :
  get Samples.project_ok "repEmail" = JStr "sara@uj.edu.sa" /\
  (forall lib : ValidatorLib,
     @isEmail lib "sara@uj.edu.sa" = true ->
     @passes lib project_validators Samples.project_ok /\
     @post_project lib Throws Samples.project_ok empty_store =
     (Response 500 (ErrMsg "database error while saving project."), empty_store)).
Proof.
  split; [vm_compute; reflexivity|]. intros lib He.
  pose proof (@project_ok_passes lib He) as Hp. split; [exact Hp|].
  exact (@post_project_valid lib Throws _ empty_store Hp).
Qed.

(** C3, the claim as stated fails: the server accepts a date of birth in
    the year 2999, and one that is no date at all; the submission is
    answered with success and stored with that date of birth. *)
Lemma dob_claim_refuted :
  get Samples.contact_future_dob "dob" = JStr "2999-12-31" /\
  get Samples.contact_no_date "dob" = JStr "tomorrow" /\
  (forall lib : ValidatorLib,
     @isEmail lib "sara@example.com" = true ->
     forall st,
       @post_contact lib Completes Samples.contact_future_dob st =
       (Response 200 (OkMsg "your message was received successfully ✔"),
        insert_contact (validated_contact Samples.contact_future_dob) st) /\
       @post_contact lib Completes Samples.contact_no_date st =
       (Response 200 (OkMsg "your message was received successfully ✔"),
        insert_contact (validated_contact Samples.contact_no_date) st)) /\
  dob (validated_contact Samples.contact_future_dob) = JStr "2999-12-31" /\
  dob (validated_contact Samples.contact_no_date) = JStr "tomorrow".
Proof.
  split; [vm_compute; reflexivity|]. split; [vm_compute; reflexivity|].
  split; [|split; vm_compute; reflexivity].
  intros lib He st. destruct (@contact_ok_passes lib He) as (_ & Hf & Hn & _).
  split.
  - exact (@post_contact_valid lib Completes _ st Hf).
  - exact (@post_contact_valid lib Completes _ st Hn).
Qed.

(** C5, the claim as stated fails: the server accepts the first name [A1],
    which is two characters long and not made of letters only (the client
    pattern rejects it); the submission is answered with success and stored
    with that name. *)
Lemma name_claim_refuted :
  get Samples.contact_digit_name "firstName" = JStr "A1" /\
  Shapes.letters_only "A1" = false /\
  re_test Client.namePattern "A1" = false /\
  (forall lib : ValidatorLib,
     @accepts lib check_firstName (JStr "A1") = true /\
     @accepts lib check_lastName (JStr "A1") = true) /\
  (forall lib : ValidatorLib,
     @isEmail lib "sara@example.com" = true ->
     forall st,
       @post_contact lib Completes Samples.contact_digit_name st =
       (Response 200 (OkMsg "your message was received successfully ✔"),
        insert_contact (validated_contact Samples.contact_digit_name) st)) /\
  first_name (validated_contact Samples.contact_digit_name) = JStr "A1".
Proof.
  split; [vm_compute; reflexivity|]. split; [vm_compute; reflexivity|].
  split; [vm_compute; reflexivity|]. split; [|split].
  - intros lib. rewrite accepts_firstName, accepts_lastName.
    split; vm_compute; reflexivity.
  - intros lib He st. destruct (@contact_ok_passes lib He) as (_ & _ & _ & Hd).
    exact (@post_contact_valid lib Completes _ st Hd).
  - vm_compute. reflexivity.
Qed.

End Submission.

(** ** The listing handlers *)

Module Listings.
Import Js Validator Db Http Listing DbFacts.


Lemma listing_id_server (e : N * project_row) :
  cell "id" (Server.project_listing e) = Some (JNum (Z.of_N e.1)).
Proof. reflexivity. Qed.


Lemma listed_server (o : outcome) (st : store) :
  listed (Server.get_projects o st).1 =
  match o with
  | Completes => map Server.project_listing (select_desc st)
  | Throws => []
  end.
Proof. destruct o; reflexivity. Qed.


Lemma select_desc_length (st : store) :
  length (select_desc st) = size (projects st).
Proof.
  rewrite (Permutation_length (select_desc_perm st)).
  apply length_map_to_list.
Qed.

(** A project just written is listed first, before the projects listed
    until then. *)
Lemma new_project_listed_first (r : project_row) (st : store) :
  select_desc (insert_project r st) =
  (next_id (projects st), r) :: select_desc st.
Proof.
  pose proof (next_id_fresh (projects st)) as Hf.
  apply (StronglySorted_unique_strong id_desc).
  - intros [k1 r1] [k2 r2] H1 H2 Ha Hb. unfold id_desc in Ha, Hb.
    cbn [fst] in Ha, Hb. assert (k1 = k2) as -> by lia. f_equal.
    apply select_desc_complete in H1. cbn [insert_project projects] in H1.
    apply elem_of_cons in H2 as [E|H2].
    + injection E as -> ->. rewrite lookup_insert_eq in H1. congruence.
    + apply select_desc_complete in H2.
      rewrite lookup_insert_ne in H1 by congruence. congruence.
  - apply select_desc_sorted.
  - apply SSorted_cons; [apply select_desc_sorted|].
    apply Forall_forall. intros [k r'] Hk. apply select_desc_complete in Hk.
    apply next_id_above in Hk. unfold id_desc. cbn [fst]. lia.
  - rewrite !select_desc_perm. cbn [insert_project projects].
    now rewrite (map_to_list_insert _ _ _ Hf).
Qed.

(** Listing does not change the store, so listing twice gives the same
    answer. *)
Lemma listing_idempotent (o : outcome) (st : store) :
  Server.get_projects o (Server.get_projects o st).2 = Server.get_projects o st.
Proof. destruct o; reflexivity. Qed.

(** C8 (as amended).  Whenever the listing query completes, the response
    is [{status: "ok", data}] with status 200, [data] holding every stored
    project exactly once, in strictly descending order of identifier, each
    row carrying its identifier; with no project stored, [data] is empty. *)
Theorem listing_newest_first (st : store) :
  Server.get_projects Completes st =
    (Response 200 (OkData (map Server.project_listing (select_desc st))), st) /\
  (forall k r, (k, r) ∈ select_desc st <-> projects st !! k = Some r) /\
  length (select_desc st) = size (projects st) /\
  Shapes.strictly_descending (map fst (select_desc st)) /\
  map (cell "id") (map Server.project_listing (select_desc st)) =
    map (fun e => Some (JNum (Z.of_N e.1))) (select_desc st) /\
  (projects st = ∅ ->
   Server.get_projects Completes st = (Response 200 (OkData []), st)).
Proof.
  split; [reflexivity|]. split; [apply select_desc_complete|].
  split; [apply select_desc_length|]. split; [apply select_desc_strict|].
  split.
  - rewrite map_map. apply map_ext. intros e. apply listing_id_server.
  - intros He. unfold Server.get_projects, select_desc. rewrite He.
    rewrite map_to_list_empty. reflexivity.
Qed.

(** C8, the claim as stated fails: with no project stored and a listing
    query that throws, the response is 500 with [{status: "error", msg}]. *)
Lemma listing_claim_refuted :
  projects empty_store = ∅ /\
  Server.get_projects Throws empty_store =
    (Response 500 (ErrMsg "database error while loading projects."), empty_store) /\
  status_of (json (Server.get_projects Throws empty_store).1) = "error".
Proof. repeat split. Qed.

(** When the listing query throws the answer is the same whatever is
    stored, and the store is left as it was. *)
Lemma listing_query_throws (st : store) :
  Server.get_projects Throws st =
    (Response 500 (ErrMsg "database error while loading projects."), st).
Proof. reflexivity. Qed.


End Listings.

(** ** The two copies of the server validate alike *)

Module Variants.
Import Chars Regex Js Validator Db Http.
Import ValidatorFacts.

Section WithLib.
Context `{ValidatorLib}.

(** Stacks with the same sanitizers and validators, whatever their
    messages, sanitize alike and report alike. *)
Lemma run_stack_same_rules (f : string) (i1 i2 : list item) (v : value) :
  (rules (Chain f i1)).2 = (rules (Chain f i2)).2 ->
  (run_stack f i1 v).1 = (run_stack f i2 v).1 /\
  map strip (run_stack f i1 v).2 = map strip (run_stack f i2 v).2.
Proof.
  unfold rules. cbn [snd stack]. revert i2 v.
  induction i1 as [|a i1 IH]; intros [|a2 i2] v E; try discriminate.
  - split; reflexivity.
  - destruct a as [|vd m], a2 as [|vd2 m2]; try discriminate.
    + injection E as E. cbn [run_stack]. now apply IH.
    + injection E as -> E. cbn [run_stack fst snd].
      destruct (IH i2 v E) as [E1 E2]. split; [exact E1|].
      destruct (eval vd2 (toString v)); [exact E2|].
      cbn [map]. now rewrite E2.
Qed.

Lemma run_chain_same_rules (c1 c2 : chain) (b : body) :
  rules c1 = rules c2 ->
  (run_chain c1 b).1 = (run_chain c2 b).1 /\
  map strip (run_chain c1 b).2 = map strip (run_chain c2 b).2.
Proof.
  destruct c1 as [f1 i1], c2 as [f2 i2]. intros E.
  assert (f1 = f2) as -> by (now injection E).
  assert ((rules (Chain f2 i1)).2 = (rules (Chain f2 i2)).2) as E'
    by (now rewrite E).
  unfold run_chain. cbn [field stack fst snd].
  destruct (run_stack_same_rules f2 i1 i2 (get b f2) E') as [E1 E2].
  rewrite E1. split; [reflexivity | exact E2].
Qed.

Lemma run_chains_same_rules (cs1 cs2 : list chain) (b : body) :
  map rules cs1 = map rules cs2 ->
  (run_chains cs1 b).1 = (run_chains cs2 b).1 /\
  map strip (run_chains cs1 b).2 = map strip (run_chains cs2 b).2.
Proof.
  revert cs2 b. induction cs1 as [|c1 k1 IH]; intros [|c2 k2] b E;
    try discriminate.
  - split; reflexivity.
  - cbn [map] in E.
    pose proof (f_equal (hd (rules c1)) E) as Ec. cbn [hd] in Ec.
    pose proof (f_equal (@tl _) E) as Ek. cbn [tl] in Ek.
    rewrite !run_chains_cons_body, !run_chains_cons_errors.
    destruct (run_chain_same_rules c1 c2 b Ec) as [E1 E2]. rewrite E1.
    destruct (IH k2 (run_chain c2 b).1 Ek) as [E3 E4].
    split; [exact E3|]. rewrite !map_app. now rewrite E2, E4.
Qed.

Lemma passes_same_rules (cs1 cs2 : list chain) (b : body) :
  map rules cs1 = map rules cs2 ->
  (Server.passes cs1 b <-> Server.passes cs2 b).
Proof.
  intros E. destruct (run_chains_same_rules cs1 cs2 b E) as [_ Es].
  unfold Server.passes.
  destruct (run_chains cs1 b).2, (run_chains cs2 b).2; try discriminate;
    split; congruence.
Qed.

(** Both copies answer a contact submission with the same status code and
    leave the same store. *)
Lemma post_contact_agree (o : outcome) (b : body) (st : store) :
  status_code (Variant.post_contact o b st).1 =
    status_code (Server.post_contact o b st).1 /\
  (Variant.post_contact o b st).2 = (Server.post_contact o b st).2.
Proof.
  assert (map rules Server.contact_validators =
          map rules Variant.contact_validators) as Ec by reflexivity.
  destruct (run_chains_same_rules _ _ b Ec) as [E1 E2].
  unfold Variant.post_contact, Server.post_contact. rewrite <- E1. clear E1.
  destruct (run_chains Server.contact_validators b).2 as [|e1 l1],
           (run_chains Variant.contact_validators b).2 as [|e2 l2];
    cbn [map] in E2; try discriminate E2; destruct o; split; reflexivity.
Qed.

(** Both copies answer a project submission with the same status code and
    leave the same store. *)
Lemma post_project_agree (o : outcome) (b : body) (st : store) :
  status_code (Variant.post_project o b st).1 =
    status_code (Server.post_project o b st).1 /\
  (Variant.post_project o b st).2 = (Server.post_project o b st).2.
Proof.
  assert (map rules Server.project_validators =
          map rules Variant.project_validators) as Ep by reflexivity.
  destruct (run_chains_same_rules _ _ b Ep) as [E1 E2].
  unfold Variant.post_project, Server.post_project. rewrite <- E1. clear E1.
  destruct (run_chains Server.project_validators b).2 as [|e1 l1],
           (run_chains Variant.project_validators b).2 as [|e2 l2];
    cbn [map] in E2; try discriminate E2; destruct o; split; reflexivity.
Qed.

(** C10.  The two copies of the server attach the same sanitizers and
    validators, with the same bounds and patterns, to the same fields in the
    same order on both routes, and differ in the message texts; so for every
    request body they accept alike, leave the same sanitized body and report
    the same errors up to the message. *)
Theorem variants_validate_alike (b : body) :
  map rules Server.contact_validators = map rules Variant.contact_validators /\
  map rules Server.project_validators = map rules Variant.project_validators /\
  map message_of Server.contact_validators <>
    map message_of Variant.contact_validators /\
  map message_of Server.project_validators <>
    map message_of Variant.project_validators /\
  (Server.passes Server.contact_validators b <->
   Server.passes Variant.contact_validators b) /\
  (Server.passes Server.project_validators b <->
   Server.passes Variant.project_validators b) /\
  (run_chains Server.contact_validators b).1 =
    (run_chains Variant.contact_validators b).1 /\
  (run_chains Server.project_validators b).1 =
    (run_chains Variant.project_validators b).1 /\
  map strip (run_chains Server.contact_validators b).2 =
    map strip (run_chains Variant.contact_validators b).2 /\
  map strip (run_chains Server.project_validators b).2 =
    map strip (run_chains Variant.project_validators b).2.
Proof.
  assert (map rules Server.contact_validators =
          map rules Variant.contact_validators) as Ec by reflexivity.
  assert (map rules Server.project_validators =
          map rules Variant.project_validators) as Ep by reflexivity.
  split; [exact Ec|]. split; [exact Ep|].
  split; [vm_compute; discriminate|]. split; [vm_compute; discriminate|].
  split; [now apply passes_same_rules|]. split; [now apply passes_same_rules|].
  destruct (run_chains_same_rules _ _ b Ec) as [Ec1 Ec2].
  destruct (run_chains_same_rules _ _ b Ep) as [Ep1 Ep2].
  auto.
Qed.

End WithLib.

End Variants.

(** ** The boundary cases of the rules, run on the model *)

Module Boundaries.
Import Chars Regex Js Validator Server ServerFacts.

Example trim_both_ends : trim "  Sara Ali 	" = "Sara Ali".
Proof. reflexivity. Qed.

Example repId_seven_digits `{ValidatorLib} :
  accepts check_repId (JStr "1234567") = true /\
  accepts check_repId (JStr "123456") = false /\
  accepts check_repId (JStr "12345678") = false /\
  accepts check_repId (JNum 1234567) = true.
Proof. rewrite !accepts_repId. repeat split; vm_compute; reflexivity. Qed.

Example teamSize_bounds `{ValidatorLib} :
  accepts check_teamSize (JNum 0) = false /\
  accepts check_teamSize (JNum 1) = true /\
  accepts check_teamSize (JNum 10) = true /\
  accepts check_teamSize (JNum 11) = false /\
  accepts check_teamSize (JStr "10") = true /\
  accepts check_teamSize (JStr "+07") = true /\
  accepts check_teamSize (JStr " 7") = false /\
  accepts check_teamSize JUndefined = false.
Proof. rewrite !accepts_teamSize. repeat split; vm_compute; reflexivity. Qed.

Example message_length `{ValidatorLib} :
  accepts check_message (JStr "0123456789") = true /\
  accepts check_message (JStr "012345678") = false /\
  accepts check_message (JStr "  012345678  ") = false.
Proof. rewrite !accepts_message. repeat split; vm_compute; reflexivity. Qed.

Example courseCode_shape `{ValidatorLib} :
  accepts check_courseCode (JStr "ccsw321") = true /\
  accepts check_courseCode (JStr "CCSW321") = true /\
  accepts check_courseCode (JStr "c321") = false /\
  accepts check_courseCode (JStr "ccsw3") = false.
Proof. rewrite !accepts_courseCode. repeat split; vm_compute; reflexivity. Qed.

Example client_mobile_needs_plus :
  re_test Client.mobilePattern "966512345678" = false /\
  re_test Client.mobilePattern "+966512345678" = true /\
  re_test Client.mobilePattern "0512345678" = true.
Proof. repeat split; vm_compute; reflexivity. Qed.

End Boundaries.

(** ** Numerals: printing a number and reading it back *)

Module Numerals.
Import Chars Regex Js Validator.
Import StringFacts RegexFacts.

Lemma digits_value_append (acc : Z) (d1 d2 : string) :
  digits_value acc (d1 +:+ d2) = digits_value (digits_value acc d1) d2.
Proof.
  revert acc. induction d1 as [|a d1 IH]; intros acc; [reflexivity|].
  rewrite append_cons. simpl. apply IH.
Qed.

Lemma pretty_N_char_digit (k : N) :
  (k < 10)%N ->
  is_digit (pretty_N_char k) = true /\ digit_value (pretty_N_char k) = Z.of_N k.
Proof.
  intros Hk.
  assert (k = 0 \/ k = 1 \/ k = 2 \/ k = 3 \/ k = 4 \/ k = 5 \/ k = 6 \/ k = 7
          \/ k = 8 \/ k = 9)%N as Hc by lia.
  repeat (destruct Hc as [->|Hc]; [split; reflexivity|]).
  subst k. split; reflexivity.
Qed.

(** The printer puts the decimal digits of [x] in front of [s]. *)
Lemma pretty_N_go_digits (x : N) (s : string) :
  exists d, pretty_N_go x s = d +:+ s /\
            all_chars is_digit d = true /\
            digits_value 0 d = Z.of_N x /\
            ((0 < x)%N -> d <> "").
Proof.
  revert s. induction (N.lt_wf_0 x) as [x _ IH]. intros s.
  assert (x = 0 \/ 0 < x)%N as [->|Hx] by lia.
  - exists "". rewrite pretty_N_go_0. repeat split. lia.
  - rewrite pretty_N_go_step by assumption.
    destruct (IH (x `div` 10)%N (N.div_lt x 10 Hx eq_refl)
                 (String (pretty_N_char (x `mod` 10)) s))
      as (d & -> & Hd & Hv & _).
    destruct (pretty_N_char_digit (x `mod` 10)%N) as [Hc1 Hc2];
      [now apply N.mod_lt|].
    exists (d +:+ String (pretty_N_char (x `mod` 10)) "").
    rewrite append_assoc, append_cons, append_nil_l.
    split; [reflexivity|]. split; [|split].
    + rewrite all_chars_append, Hd. simpl. now rewrite Hc1.
    + rewrite digits_value_append, Hv. simpl. rewrite Hc2.
      rewrite (N.div_mod x 10) at 3 by lia. lia.
    + intros _ E. destruct d; discriminate.
Qed.

(** A printed natural number is a non-empty run of digits with its value. *)
Lemma pretty_N_numeral (x : N) :
  pretty x <> "" /\ all_chars is_digit (pretty x) = true /\
  digits_value 0 (pretty x) = Z.of_N x.
Proof.
  unfold pretty, pretty_N. destruct (decide (x = 0%N)) as [->|Hx].
  - repeat split. discriminate.
  - destruct (pretty_N_go_digits x "") as (d & -> & Hd & Hv & Hne).
    rewrite append_nil_r. split; [apply Hne; lia|]. split; assumption.
Qed.

Lemma digit_not_sign (a : ascii) :
  is_digit a = true -> a <> "-"%char /\ a <> "+"%char.
Proof. intros Hd. split; intros ->; discriminate. Qed.

Lemma lang_intLeadingZeroes (s : string) :
  lang intLeadingZeroes s <->
  exists d, d <> "" /\ all_chars is_digit d = true /\
            (s = d \/ s = "+" +:+ d \/ s = "-" +:+ d).
Proof.
  unfold intLeadingZeroes. rewrite lang_Cat. split.
  - intros (s1 & s2 & -> & H1 & H2).
    apply lang_AtLeast_Sym in H2 as [Hl Hd]. exists s2.
    split; [intros ->; simpl in Hl; lia|]. split; [exact Hd|].
    apply lang_Opt in H1 as [H1 | ->]; [|now left].
    apply lang_Sym in H1 as (a & -> & Ha). simpl in Ha.
    destruct (decide (a = "-"%char)) as [->|]; [right; right; reflexivity|].
    destruct (decide (a = "+"%char)) as [->|]; [right; left; reflexivity|].
    discriminate.
  - intros (d & Hne & Hd & Hs).
    assert (lang (AtLeast 1 (Sym CDigit)) d) as Hl.
    { apply lang_AtLeast_Sym. split; [|exact Hd]. destruct d; simpl; [congruence | lia]. }
    destruct Hs as [-> | [-> | ->]].
    + exists "", d. repeat split; [apply lang_Opt; now right | exact Hl].
    + exists "+", d. repeat split; [|exact Hl].
      apply lang_Opt. left. apply lang_Sym. exists "+"%char. auto.
    + exists "-", d. repeat split; [|exact Hl].
      apply lang_Opt. left. apply lang_Sym. exists "-"%char. auto.
Qed.

Lemma to_number_unsigned (d : string) :
  d <> "" -> all_chars is_digit d = true ->
  to_number d = Some (digits_value 0 d).
Proof.
  intros Hne Hd. unfold to_number.
  assert (re_test intLeadingZeroes d = true) as ->.
  { apply re_test_lang, lang_intLeadingZeroes. exists d. auto. }
  destruct d as [|a d]; [congruence|]. simpl in Hd.
  apply andb_true_iff in Hd as [Ha _].
  destruct a as [[] [] [] [] [] [] [] []]; try discriminate Ha; reflexivity.
Qed.

Lemma to_number_plus (d : string) :
  d <> "" -> all_chars is_digit d = true ->
  to_number ("+" +:+ d) = Some (digits_value 0 d).
Proof.
  intros Hne Hd. unfold to_number.
  assert (re_test intLeadingZeroes ("+" +:+ d) = true) as ->.
  { apply re_test_lang, lang_intLeadingZeroes. exists d. auto. }
  reflexivity.
Qed.

Lemma to_number_minus (d : string) :
  d <> "" -> all_chars is_digit d = true ->
  to_number ("-" +:+ d) = Some (- digits_value 0 d)%Z.
Proof.
  intros Hne Hd. unfold to_number.
  assert (re_test intLeadingZeroes ("-" +:+ d) = true) as ->.
  { apply re_test_lang, lang_intLeadingZeroes. exists d. auto. }
  reflexivity.
Qed.

(** Reading back a printed integer gives the integer. *)
Lemma to_number_pretty (n : Z) : to_number (pretty n) = Some n.
Proof.
  destruct n as [|p|p]; [reflexivity| |].
  - change (pretty (Z.pos p)) with (pretty (N.pos p)).
    destruct (pretty_N_numeral (N.pos p)) as (Hne & Hd & Hv).
    rewrite to_number_unsigned by assumption. now rewrite Hv.
  - change (pretty (Z.neg p)) with ("-" +:+ pretty (N.pos p)).
    destruct (pretty_N_numeral (N.pos p)) as (Hne & Hd & Hv).
    rewrite to_number_minus by assumption. now rewrite Hv.
Qed.

Lemma digits_value_nonneg (d : string) (acc : Z) :
  (0 <= acc)%Z -> all_chars is_digit d = true -> (0 <= digits_value acc d)%Z.
Proof.
  revert acc. induction d as [|a d IH]; intros acc Hacc Hd; [exact Hacc|].
  simpl in *. apply andb_true_iff in Hd as [Ha Hd]. apply IH; [|exact Hd].
  assert (0 <= digit_value a)%Z.
  { unfold digit_value, is_digit in *. apply andb_true_iff in Ha as [Ha _].
    apply N.leb_le in Ha. lia. }
  lia.
Qed.

(** [isInt] with bounds: the strings it accepts. *)
Lemma isInt_iff (lo hi : Z) (s : string) :
  isInt lo hi s = true <->
  exists d, d <> "" /\ all_chars is_digit d = true /\
    ((s = d \/ s = "+" +:+ d) /\ (lo <= digits_value 0 d <= hi)%Z \/
     s = "-" +:+ d /\ (lo <= - digits_value 0 d <= hi)%Z).
Proof.
  unfold isInt. rewrite andb_true_iff, re_test_lang, lang_intLeadingZeroes. split.
  - intros [(d & Hne & Hd & Hs) Hb]. exists d. split; [exact Hne|]. split; [exact Hd|].
    destruct Hs as [-> | [-> | ->]].
    + rewrite to_number_unsigned in Hb by assumption.
      apply andb_true_iff in Hb as [H1 H2]. apply Z.leb_le in H1, H2. left. auto.
    + rewrite to_number_plus in Hb by assumption.
      apply andb_true_iff in Hb as [H1 H2]. apply Z.leb_le in H1, H2. left. auto.
    + rewrite to_number_minus in Hb by assumption.
      apply andb_true_iff in Hb as [H1 H2]. apply Z.leb_le in H1, H2. right. auto.
  - intros (d & Hne & Hd & [[[-> | ->] [H1 H2]] | [-> [H1 H2]]]).
    + split; [exists d; auto|]. rewrite to_number_unsigned by assumption.
      apply andb_true_iff. split; now apply Z.leb_le.
    + split; [exists d; auto|]. rewrite to_number_plus by assumption.
      apply andb_true_iff. split; now apply Z.leb_le.
    + split; [exists d; auto|]. rewrite to_number_minus by assumption.
      apply andb_true_iff. split; now apply Z.leb_le.
Qed.

Lemma isInt_pretty (lo hi n : Z) :
  isInt lo hi (pretty n) = true <-> (lo <= n <= hi)%Z.
Proof.
  unfold isInt. rewrite to_number_pretty.
  assert (re_test intLeadingZeroes (pretty n) = true) as ->.
  { destruct (to_number (pretty n)) eqn:E.
    - unfold to_number in E. destruct (re_test intLeadingZeroes (pretty n));
        [reflexivity | discriminate].
    - now rewrite to_number_pretty in E. }
  simpl. rewrite andb_true_iff, !Z.leb_le. reflexivity.
Qed.

End Numerals.

(** ** More about the routes of the server *)

Module Routes.
Import Chars Regex Js Validator Db Http Server Tidy.
Import StringFacts RegexFacts ValidatorFacts ServerFacts Submission Numerals.

Section WithLib.
Context `{ValidatorLib}.

(** X1.  The team-size rule accepts a JSON number exactly when it is an
    integer between 1 and 10, and a JSON string exactly when it is a run of
    digits, optionally after [+], with a value between 1 and 10 (white
    space around it is not dropped); [null] and a missing field are
    rejected. *)
Theorem teamSize_rule :
  (forall n : Z, accepts check_teamSize (JNum n) = true <-> (1 <= n <= 10)%Z) /\
  (forall s : string,
     accepts check_teamSize (JStr s) = true <-> numeral_between 1 10 s) /\
  accepts check_teamSize JNull = false /\
  accepts check_teamSize JUndefined = false.
Proof.
  split; [|split; [|split]].
  - intros n. rewrite accepts_teamSize. apply isInt_pretty.
  - intros s. rewrite accepts_teamSize. cbn [toString].
    rewrite isInt_iff. unfold numeral_between. split.
    + intros (d & Hne & Hd & [[Hs Hb] | [Hs Hb]]); [eauto 6|].
      pose proof (digits_value_nonneg d 0 ltac:(lia) Hd). lia.
    + intros (d & Hne & Hd & Hs & Hb). exists d. auto.
  - now rewrite accepts_teamSize.
  - now rewrite accepts_teamSize.
Qed.

Lemma get_insert_ne (b : body) (f g : string) (v : value) :
  f <> g -> get (<[f := v]> b) g = get b g.
Proof.
  intros Hne. rewrite get_insert. destruct (decide (f = g)); congruence.
Qed.

(** A field no chain of the route names leaves the errors as they are. *)
Lemma errors_insert_other (cs : list chain) (b : body) (f : string) (v : value) :
  NoDup (map field cs) -> f ∉ map field cs ->
  (run_chains cs (<[f := v]> b)).2 = (run_chains cs b).2.
Proof.
  intros Hnd Hf. rewrite (run_chains_errors cs b Hnd).
  apply run_chains_errors_gen; [exact Hnd|].
  intros c Hc. apply get_insert_ne. intros ->. apply Hf.
  now apply list_elem_of_fmap_2.
Qed.

Ltac other_field Hf :=
  intros ->; apply Hf; cbn [read_fields];
  repeat first [ apply list_elem_of_here | apply list_elem_of_further ].

Lemma post_contact_same_errors (o : outcome) (b1 b2 : body) (st : store) :
  (run_chains contact_validators b1).2 = (run_chains contact_validators b2).2 ->
  validated_contact b1 = validated_contact b2 ->
  post_contact o b1 st = post_contact o b2 st.
Proof.
  intros Ee Ev.
  destruct (run_chains contact_validators b2).2 as [|e es] eqn:E2.
  - rewrite (post_contact_valid o b1 st Ee), (post_contact_valid o b2 st E2).
    now rewrite Ev.
  - rewrite !post_contact_invalid by (unfold passes; congruence).
    now rewrite Ee, E2.
Qed.

Lemma post_project_same_errors (o : outcome) (b1 b2 : body) (st : store) :
  (run_chains project_validators b1).2 = (run_chains project_validators b2).2 ->
  validated_project b1 = validated_project b2 ->
  post_project o b1 st = post_project o b2 st.
Proof.
  intros Ee Ev.
  destruct (run_chains project_validators b2).2 as [|e es] eqn:E2.
  - rewrite (post_project_valid o b1 st Ee), (post_project_valid o b2 st E2).
    now rewrite Ev.
  - rewrite !post_project_invalid by (unfold passes; congruence).
    now rewrite Ee, E2.
Qed.

(** X5.  A property of the body that the handler of the route does not
    read changes nothing: the response and the store are the same with and
    without it. *)
Theorem unread_fields_ignored
  (o : outcome) (rq : request) (st : store) (f : string) (v : value) :
  f ∉ read_fields rq ->
  handle o (with_field f v rq) st = handle o rq st.
Proof.
  intros Hf. destruct rq as [b|b|]; cbn [with_field handle]; [| |reflexivity].
  - apply post_contact_same_errors.
    + apply errors_insert_other; [apply contact_fields_NoDup | exact Hf].
    + unfold validated_contact.
      rewrite !get_insert_ne by other_field Hf. reflexivity.
  - apply post_project_same_errors.
    + apply errors_insert_other; [apply project_fields_NoDup|].
      intros Hin. apply Hf. cbn [read_fields].
      change (map field project_validators) with
        [ "teamName"; "teamSize"; "repName"; "repId"; "repEmail"; "courseCode";
          "category"; "projectType"; "projectName"; "projectDesc" ] in Hin.
      repeat (apply elem_of_cons in Hin as [->|Hin];
              [repeat first [ apply list_elem_of_here | apply list_elem_of_further ]|]).
      inversion Hin.
    + unfold validated_project.
      rewrite !get_insert_ne by other_field Hf. reflexivity.
Qed.

(** X6.  [otherMembers] and [tools] are never checked: whatever a request
    holds there, the response to it is the same. *)
Theorem optional_fields_unchecked
  (o : outcome) (b : body) (st : store) (f : string) (v : value) :
  f ∈ ["otherMembers"; "tools"] ->
  (post_project o (<[f := v]> b) st).1 = (post_project o b st).1.
Proof.
  intros Hf.
  assert ((run_chains project_validators (<[f := v]> b)).2 =
          (run_chains project_validators b).2) as Ee.
  { apply errors_insert_other; [apply project_fields_NoDup|].
    change (map field project_validators) with
      [ "teamName"; "teamSize"; "repName"; "repId"; "repEmail"; "courseCode";
        "category"; "projectType"; "projectName"; "projectDesc" ].
    apply elem_of_cons in Hf as [->|Hf];
      [|apply elem_of_cons in Hf as [->|Hf]; [|inversion Hf]];
      apply (bool_decide_unpack _); vm_compute; exact I. }
  destruct (run_chains project_validators b).2 as [|e es] eqn:E2.
  - rewrite (post_project_valid o _ st Ee), (post_project_valid o b st E2).
    destruct o; reflexivity.
  - rewrite !post_project_invalid by (unfold passes; congruence).
    now rewrite Ee, E2.
Qed.




Lemma run_chains_fixed (cs : list chain) (b : body) :
  (forall c, c ∈ cs -> sanitized c (get b (field c)) = get b (field c)) ->
  (run_chains cs b).1 = b.
Proof.
  induction cs as [|c k IH]; intros Hfix; [reflexivity|].
  rewrite run_chains_cons_body.
  assert ((run_chain c b).1 = b) as E.
  { unfold run_chain. cbn [fst].
    pose proof (Hfix c (list_elem_of_here _ _)) as Hc. unfold sanitized in Hc.
    destruct (decide _) as [_|Hn]; [reflexivity | now destruct Hn]. }
  rewrite E. apply IH. intros c' Hc'. apply Hfix. now apply list_elem_of_further.
Qed.

Lemma flat_map_ext_in {A B} (f g : A -> list B) (l : list A) :
  (forall x, x ∈ l -> f x = g x) -> flat_map f l = flat_map g l.
Proof.
  induction l as [|x l IH]; intros Hfg; [reflexivity|].
  simpl. rewrite (Hfg x) by apply list_elem_of_here.
  f_equal. apply IH. intros y Hy. apply Hfg. now apply list_elem_of_further.
Qed.

Lemma again_trim_validate (f : string) (vd : validator) (m : string) (v : value) :
  sanitized (Chain f [Trim; Validate vd m]) (sanitized (Chain f [Trim; Validate vd m]) v)
  = sanitized (Chain f [Trim; Validate vd m]) v /\
  errors_of (Chain f [Trim; Validate vd m]) (sanitized (Chain f [Trim; Validate vd m]) v)
  = errors_of (Chain f [Trim; Validate vd m]) v.
Proof.
  unfold sanitized, errors_of. cbn [run_stack stack field fst snd toString].
  rewrite trim_idempotent. split; reflexivity.
Qed.

Lemma again_validate (f : string) (vd : validator) (m : string) (v : value) :
  sanitized (Chain f [Validate vd m]) (sanitized (Chain f [Validate vd m]) v)
  = sanitized (Chain f [Validate vd m]) v /\
  errors_of (Chain f [Validate vd m]) (sanitized (Chain f [Validate vd m]) v)
  = errors_of (Chain f [Validate vd m]) v.
Proof. split; reflexivity. Qed.

Lemma contact_again :
  Forall (fun c => forall v,
            sanitized c (sanitized c v) = sanitized c v /\
            errors_of c (sanitized c v) = errors_of c v) contact_validators.
Proof.
  repeat (constructor;
          [intros v;
           first [ exact (again_trim_validate _ _ _ v)
                 | exact (again_validate _ _ _ v) ]|]).
  constructor.
Qed.

Lemma project_again :
  Forall (fun c => forall v,
            sanitized c (sanitized c v) = sanitized c v /\
            errors_of c (sanitized c v) = errors_of c v) project_validators.
Proof.
  repeat (constructor;
          [intros v;
           first [ exact (again_trim_validate _ _ _ v)
                 | exact (again_validate _ _ _ v) ]|]).
  constructor.
Qed.

(** Validating the body the validators left changes nothing more and
    reports the same errors. *)
Lemma run_chains_again (cs : list chain) (b : body) :
  NoDup (map field cs) ->
  Forall (fun c => forall v,
            sanitized c (sanitized c v) = sanitized c v /\
            errors_of c (sanitized c v) = errors_of c v) cs ->
  (run_chains cs (run_chains cs b).1).1 = (run_chains cs b).1 /\
  (run_chains cs (run_chains cs b).1).2 = (run_chains cs b).2.
Proof.
  intros Hnd Hag. rewrite Forall_forall in Hag. split.
  - apply run_chains_fixed. intros c Hc.
    rewrite (run_chains_get cs b c Hnd Hc). apply (Hag c Hc).
  - rewrite !run_chains_errors by assumption. apply flat_map_ext_in.
    intros c Hc. rewrite (run_chains_get cs b c Hnd Hc). apply (Hag c Hc).
Qed.

Lemma post_contact_again (o : outcome) (b : body) (st : store) :
  post_contact o (run_chains contact_validators b).1 st = post_contact o b st.
Proof.
  destruct (run_chains_again _ b contact_fields_NoDup contact_again) as [E1 E2].
  apply post_contact_same_errors; [exact E2|].
  rewrite <- (contact_params_validated b).
  rewrite <- (contact_params_validated (run_chains contact_validators b).1).
  now rewrite E1.
Qed.

Lemma post_project_again (o : outcome) (b : body) (st : store) :
  post_project o (run_chains project_validators b).1 st = post_project o b st.
Proof.
  destruct (run_chains_again _ b project_fields_NoDup project_again) as [E1 E2].
  apply post_project_same_errors; [exact E2|].
  rewrite <- (project_params_validated b).
  rewrite <- (project_params_validated (run_chains project_validators b).1).
  now rewrite E1.
Qed.

(** X8.  Validation is idempotent: the body the validators of a route
    leave passes through them unchanged with the same errors, so sending
    that body again gets the same response and leaves the same store. *)
Theorem revalidation_changes_nothing (o : outcome) (rq : request) (st : store) :
  (run_chains (validators_for rq) (body_of (sanitized_request rq))).1 =
    body_of (sanitized_request rq) /\
  (run_chains (validators_for rq) (body_of (sanitized_request rq))).2 =
    (run_chains (validators_for rq) (body_of rq)).2 /\
  handle o (sanitized_request rq) st = handle o rq st.
Proof.
  destruct rq as [b|b|].
  - destruct (run_chains_again _ b contact_fields_NoDup contact_again) as [E1 E2].
    split; [exact E1|]. split; [exact E2|]. apply post_contact_again.
  - destruct (run_chains_again _ b project_fields_NoDup project_again) as [E1 E2].
    split; [exact E1|]. split; [exact E2|]. apply post_project_again.
  - repeat split.
Qed.

(** X9.  A project that was just accepted and written heads the next
    listing, followed by the rows that were listed before. *)
Theorem submitted_project_listed_first (b : body) (st : store) :
  passes project_validators b ->
  listed (get_projects Completes (post_project Completes b st).2).1 =
  project_listing (next_id (projects st), validated_project b)
    :: listed (get_projects Completes st).1.
Proof.
  intros Hp. rewrite (post_project_valid Completes b st Hp).
  cbn [snd]. rewrite !Listings.listed_server.
  rewrite Listings.new_project_listed_first. reflexivity.
Qed.

(** X10.  The two copies of the server answer every submission with the
    same status code and the same shape of body, and leave the same store;
    their listings leave the store alone. *)
Theorem copies_answer_alike (o : outcome) (b : body) (st : store) :
  status_code (Variant.post_contact o b st).1 = status_code (post_contact o b st).1 /\
  keys_of (json (Variant.post_contact o b st).1) = keys_of (json (post_contact o b st).1) /\
  (Variant.post_contact o b st).2 = (post_contact o b st).2 /\
  status_code (Variant.post_project o b st).1 = status_code (post_project o b st).1 /\
  keys_of (json (Variant.post_project o b st).1) = keys_of (json (post_project o b st).1) /\
  (Variant.post_project o b st).2 = (post_project o b st).2 /\
  (Variant.get_projects o st).2 = st /\ (get_projects o st).2 = st.
Proof.
  assert (map rules contact_validators = map rules Variant.contact_validators)
    as Ec by reflexivity.
  assert (map rules project_validators = map rules Variant.project_validators)
    as Ep by reflexivity.
  destruct (Variants.run_chains_same_rules _ _ b Ec) as [Ec1 Ec2].
  destruct (Variants.run_chains_same_rules _ _ b Ep) as [Ep1 Ep2].
  unfold Variant.post_contact, Variant.post_project, post_contact, post_project.
  rewrite <- Ec1, <- Ep1. clear Ec1 Ep1 Ec Ep.
  destruct (run_chains contact_validators b).2 as [|e1 l1],
           (run_chains Variant.contact_validators b).2 as [|e2 l2];
    cbn [map] in Ec2; try discriminate Ec2;
    destruct (run_chains project_validators b).2 as [|e3 l3],
             (run_chains Variant.project_validators b).2 as [|e4 l4];
    cbn [map] in Ep2; try discriminate Ep2;
    destruct o; repeat split.
Qed.

End WithLib.

(** X5 at an accepted contact submission with one more property. *)
Lemma unread_fields_ignored_witness :
  ("isAdmin" ∉ read_fields (PostContact Samples.contact_ok)) /\
  @handle Client.pattern_lib Completes
    (with_field "isAdmin" (JBool true) (PostContact Samples.contact_ok))
    empty_store =
  @handle Client.pattern_lib Completes (PostContact Samples.contact_ok) empty_store.
Proof.
  assert ("isAdmin" ∉ read_fields (PostContact Samples.contact_ok)) as Hf
    by (apply (bool_decide_unpack _); vm_compute; exact I).
  split; [exact Hf|].
  exact (@unread_fields_ignored Client.pattern_lib Completes
           (PostContact Samples.contact_ok) empty_store "isAdmin" (JBool true) Hf).
Defined.

(** X6 at an accepted project submission with [tools] set to a number. *)
Lemma optional_fields_unchecked_witness :
  ("tools" ∈ ["otherMembers"; "tools"]) /\
  (@post_project Client.pattern_lib Completes
     (<["tools" := JNum 0]> Samples.project_ok) empty_store).1 =
  (@post_project Client.pattern_lib Completes Samples.project_ok empty_store).1.
Proof.
  assert ("tools" ∈ ["otherMembers"; "tools"]) as Hf
    by (apply list_elem_of_further, list_elem_of_here).
  split; [exact Hf|].
  exact (@optional_fields_unchecked Client.pattern_lib Completes
           Samples.project_ok empty_store "tools" (JNum 0) Hf).
Defined.


(** X9 at an accepted project submission to a store holding one project. *)
Lemma submitted_project_listed_first_witness :
  @passes Client.pattern_lib project_validators Samples.project_ok /\
  listed (get_projects Completes
            (@post_project Client.pattern_lib Completes Samples.project_ok
               Samples.one_project).2).1 =
  project_listing
    (next_id (projects Samples.one_project), validated_project Samples.project_ok)
    :: listed (get_projects Completes Samples.one_project).1.
Proof.
  assert (@passes Client.pattern_lib project_validators Samples.project_ok) as Hp
    by (apply (@project_ok_passes Client.pattern_lib); vm_compute; reflexivity).
  split; [exact Hp|].
  exact (@submitted_project_listed_first Client.pattern_lib Samples.project_ok
           Samples.one_project Hp).
Defined.

End Routes.


(** ** The client: its patterns against the rules of the server *)

Module Forms.
Import Chars Regex Js Validator Http Server App.
Import StringFacts RegexFacts ValidatorFacts ServerFacts Numerals.

Lemma lang_Rep_Opt_nil (k : nat) (r : regex) : lang (Rep k (Opt r)) "".
Proof.
  induction k as [|k IH]; simpl; [constructor|].
  change "" with ("" +:+ ""). constructor; [|exact IH].
  apply lang_Opt. now right.
Qed.

Lemma lang_Rep_Opt_Sym (k : nat) (c : cls) (s : string) :
  lang (Rep k (Opt (Sym c))) s <->
  String.length s <= k /\ all_chars (cls_mem c) s = true.
Proof.
  revert s. induction k as [|k IH]; intros s.
  - simpl. rewrite lang_Eps. split.
    + intros ->. split; [reflexivity | reflexivity].
    + intros [Hl _]. destruct s; [reflexivity | simpl in Hl; lia].
  - change (Rep (S k) (Opt (Sym c))) with (Cat (Opt (Sym c)) (Rep k (Opt (Sym c)))).
    rewrite lang_Cat. split.
    + intros (s1 & s2 & -> & H1 & H2). apply IH in H2 as [Hl Hc].
      apply lang_Opt in H1 as [H1 | ->].
      * apply lang_Sym in H1 as (a & -> & Ha).
        rewrite append_cons, append_nil_l. simpl. rewrite Ha, Hc. split; [lia | reflexivity].
      * rewrite append_nil_l. split; [lia | exact Hc].
    + intros [Hl Hc]. destruct s as [|a s].
      * exists "", "". split; [reflexivity|]. split;
          [apply lang_Opt; now right | apply lang_Rep_Opt_nil].
      * simpl in Hl, Hc. apply andb_true_iff in Hc as [Ha Hc].
        exists (String a ""), s. split; [reflexivity|]. split.
        -- apply lang_Opt. left. apply lang_Sym. eauto.
        -- apply IH. split; [lia | exact Hc].
Qed.

Lemma lang_Between_Sym (m n : nat) (c : cls) (s : string) :
  m <= n ->
  lang (Between m n (Sym c)) s <->
  m <= String.length s <= n /\ all_chars (cls_mem c) s = true.
Proof.
  intros Hmn. unfold Between. rewrite lang_Cat. split.
  - intros (s1 & s2 & -> & H1 & H2).
    apply lang_Rep_Sym in H1 as [H1 Hc1]. apply lang_Rep_Opt_Sym in H2 as [H2 Hc2].
    rewrite length_append, all_chars_append, Hc1, Hc2. split; [lia | reflexivity].
  - revert s. induction m as [|m IH] in n, Hmn |- *; intros s [Hl Hc].
    + exists "", s. split; [reflexivity|]. split; [constructor|].
      apply lang_Rep_Opt_Sym. split; [lia | exact Hc].
    + destruct s as [|a s]; [simpl in Hl; lia|]. simpl in Hl, Hc.
      apply andb_true_iff in Hc as [Ha Hc].
      destruct n as [|n]; [lia|].
      destruct (IH n ltac:(lia) s) as (s1 & s2 & -> & H1 & H2); [split; [lia | exact Hc]|].
      exists (String a s1), s2. split; [reflexivity|]. split; [|exact H2].
      change (Rep (S m) (Sym c)) with (Cat (Sym c) (Rep m (Sym c))).
      change (String a s1) with (String a "" +:+ s1).
      constructor; [apply lang_Sym; eauto | exact H1].
Qed.

(** X11.  The name check of the contact form accepts a trimmed name
    exactly when it is made of 2 to 30 letters [A-Z], [a-z]; every such name
    also meets the name rule of the server. *)
Theorem client_name_check `{ValidatorLib} (s : string) :
  (re_test Client.namePattern s = true <->
   2 <= String.length s <= 30 /\ Shapes.letters_only s = true) /\
  (re_test Client.namePattern (trim s) = true ->
   accepts check_firstName (JStr (trim s)) = true /\
   accepts check_lastName (JStr (trim s)) = true).
Proof.
  assert (forall t, re_test Client.namePattern t = true <->
                    2 <= String.length t <= 30 /\ Shapes.letters_only t = true) as Hn.
  { intros t. rewrite re_test_lang. unfold Client.namePattern.
    apply (lang_Between_Sym 2 30 CAlpha t). lia. }
  split; [apply Hn|]. intros Hp. apply Hn in Hp as [Hl _].
  rewrite accepts_firstName, accepts_lastName. cbn [toString].
  rewrite trim_idempotent. split; now apply isLength_spec.
Qed.

(** X12.  The server accepts every mobile the client pattern accepts, and
    beyond those exactly the strings [9665] followed by 8 digits, without
    the [+]. *)
Theorem mobile_patterns_compared (s : string) :
  re_test mobile_re s = true <->
  re_test Client.mobilePattern s = true \/
  exists d, Shapes.digits 8 d /\ s = "9665" +:+ d.
Proof.
  rewrite !re_test_lang, lang_mobile_re, lang_mobilePattern.
  unfold Shapes.saudi_mobile, Shapes.plus9665_or_05. split.
  - intros (d & Hd & [-> | [-> | ->]]); [left | right | left]; eauto.
  - intros [(d & Hd & [-> | ->]) | (d & Hd & ->)]; exists d; auto.
Qed.

End Forms.

(** ** The client: what it shows of the answers of the server *)

Module Pages.
Import Chars Regex Js Validator Db Http Server App Tidy.
Import StringFacts ValidatorFacts ServerFacts Submission DbFacts.

Section WithLib.
Context `{ValidatorLib}.

(** X15.  What the forms show of an answer: the success text of the server
    and a reset form when the record was written, the database error text
    of the server when the insert threw, and, when the server rejected the
    body, always the same fallback text, never the errors the server
    listed. *)
Theorem answer_as_shown (o : outcome) (b : body) (st : store) :
  (passes contact_validators b ->
   contact_result (Resolved (json (post_contact o b st).1)) =
   match o with
   | Completes => Shown "success-msg" "your message was received successfully ✔" true
   | Throws => Shown "error-box" "database error while saving your message." false
   end) /\
  (~ passes contact_validators b ->
   contact_result (Resolved (json (post_contact o b st).1)) =
   Shown "error-box" "There was a problem sending your message." false) /\
  (passes project_validators b ->
   project_result (Resolved (json (post_project o b st).1)) =
   match o with
   | Completes => Shown "success-msg" "team project idea saved successfully ✔" true
   | Throws => Shown "error-box" "database error while saving project." false
   end) /\
  (~ passes project_validators b ->
   project_result (Resolved (json (post_project o b st).1)) =
   Shown "error-box" "There was a problem saving your project." false).
Proof.
  split; [|split; [|split]].
  - intros Hp. rewrite (post_contact_valid o b st Hp). destruct o; reflexivity.
  - intros Hn. rewrite (post_contact_invalid o b st Hn). reflexivity.
  - intros Hp. rewrite (post_project_valid o b st Hp). destruct o; reflexivity.
  - intros Hn. rewrite (post_project_invalid o b st Hn). reflexivity.
Qed.

End WithLib.

Lemma tr_same_for_both (e : N * project_row) :
  tr_innerHTML (Variant.project_listing e) = tr_innerHTML (Server.project_listing e).
Proof. reflexivity. Qed.

Lemma page_of_rows (rows : list row) :
  initProjectsList (Resolved (OkData rows)) =
  match rows with
  | [] => ProjectsPage "No projects found yet." []
  | _ :: _ =>
      ProjectsPage ("Loaded " +:+ pretty (length rows) +:+ " project(s).")
                   (map tr_innerHTML rows)
  end.
Proof. destruct rows; reflexivity. Qed.

(** X16.  The projects page built from a listing that completed has one
    table row per stored project, newest first; its status line is the
    count of projects, or "No projects found yet." for an empty table.
    When the listing threw, the page shows the error text of the server and
    no row. *)
Theorem projects_page_of_store (st : store) :
  let page := initProjectsList (Resolved (json (get_projects Completes st).1)) in
  projectsBody page = map tr_innerHTML (map project_listing (select_desc st)) /\
  length (projectsBody page) = size (projects st) /\
  (projects st = ∅ -> statusBox page = "No projects found yet.") /\
  (projects st <> ∅ ->
   statusBox page = "Loaded " +:+ pretty (size (projects st)) +:+ " project(s).") /\
  initProjectsList (Resolved (json (get_projects Throws st).1)) =
    ProjectsPage "database error while loading projects." [].
Proof.
  intros page. subst page. cbn [get_projects fst json res_json].
  rewrite page_of_rows.
  pose proof (Listings.select_desc_length st) as Hl.
  destruct (select_desc st) as [|e l] eqn:E.
  - cbn [map projectsBody statusBox length]. simpl in Hl.
    split; [reflexivity|]. split; [exact Hl|]. split; [reflexivity|].
    split; [|reflexivity].
    intros Hne. exfalso. apply Hne. now apply map_size_empty_inv.
  - cbn [map projectsBody statusBox].
    split; [reflexivity|]. split.
    { rewrite <- Hl. cbn [length]. now rewrite !length_map. }
    split.
    { intros He. rewrite He, map_size_empty in Hl. discriminate Hl. }
    split; [|reflexivity].
    intros _. rewrite <- Hl. cbn [length]. now rewrite !length_map.
Qed.

(** X17.  The projects page is the same whichever copy of the server
    answers the listing: the two columns on which the copies differ are not
    shown. *)
Theorem projects_page_same_for_both_copies (o : outcome) (st : store) :
  projectsBody (initProjectsList (Resolved (json (Variant.get_projects o st).1))) =
  projectsBody (initProjectsList (Resolved (json (get_projects o st).1))) /\
  initProjectsList (Resolved (json (Variant.get_projects Completes st).1)) =
  initProjectsList (Resolved (json (get_projects Completes st).1)).
Proof.
  assert (map tr_innerHTML (map Variant.project_listing (select_desc st)) =
          map tr_innerHTML (map project_listing (select_desc st))) as Hm.
  { rewrite !map_map. apply map_ext. intros e. apply tr_same_for_both. }
  assert (initProjectsList (Resolved (json (Variant.get_projects Completes st).1)) =
          initProjectsList (Resolved (json (get_projects Completes st).1))) as Hc.
  { cbn [Variant.get_projects get_projects fst json res_json].
    rewrite !page_of_rows.
    destruct (select_desc st) as [|e l]; [reflexivity|].
    cbn [map] in *. rewrite Hm. cbn [length]. now rewrite !length_map. }
  split; [|exact Hc].
  destruct o; [now rewrite Hc | reflexivity].
Qed.

(** [formatMajor] leaves its own results as they are. *)
Lemma formatMajor_again_string (s : string) :
  formatMajor (formatMajor (JStr s)) = formatMajor (JStr s).
Proof.
  destruct (String.eqb s "cybersecurity") eqn:E1;
    [apply String.eqb_eq in E1; subst s; reflexivity|].
  destruct (String.eqb s "cs") eqn:E2;
    [apply String.eqb_eq in E2; subst s; reflexivity|].
  destruct (String.eqb s "se") eqn:E3;
    [apply String.eqb_eq in E3; subst s; reflexivity|].
  destruct (String.eqb s "is") eqn:E4;
    [apply String.eqb_eq in E4; subst s; reflexivity|].
  destruct (String.eqb s "ai") eqn:E5;
    [apply String.eqb_eq in E5; subst s; reflexivity|].
  destruct (String.eqb s "data") eqn:E6;
    [apply String.eqb_eq in E6; subst s; reflexivity|].
  assert (formatMajor (JStr s) = or_else (JStr s) (JStr "")) as Ed
    by (unfold formatMajor; now rewrite E1, E2, E3, E4, E5, E6).
  rewrite Ed. unfold or_else. cbn [truthy].
  destruct (String.eqb s "") eqn:E0; cbn [negb]; [reflexivity|].
  rewrite Ed. unfold or_else. cbn [truthy]. now rewrite E0.
Qed.

(** X19.  [formatMajor] is idempotent, and what it returns never prints as
    [undefined] or [null] unless the category is that very text: a
    missing, [null], [false] or zero category is shown as an empty cell. *)
Theorem formatMajor_shown (code : value) :
  formatMajor (formatMajor code) = formatMajor code /\
  (truthy code = false -> template (formatMajor code) = "") /\
  (template (formatMajor code) = "undefined" -> code = JStr "undefined") /\
  (template (formatMajor code) = "null" -> code = JStr "null").
Proof.
  split; [|split; [|split]].
  - destruct code as [| |[]|n|s]; try reflexivity.
    + assert (formatMajor (JNum n) = if (n =? 0)%Z then JStr "" else JNum n) as En
        by (unfold formatMajor, or_else; cbn [truthy];
            destruct (n =? 0)%Z; reflexivity).
      destruct (n =? 0)%Z eqn:E0; rewrite En; [reflexivity|].
      exact En.
    + apply formatMajor_again_string.
  - destruct code as [| |[]|n|s]; cbn [truthy]; try reflexivity; try discriminate.
    + unfold formatMajor, or_else. cbn [truthy]. intros ->. reflexivity.
    + intros Hs. apply negb_false_iff, String.eqb_eq in Hs. subst s. reflexivity.
  - destruct code as [| |[]|n|s]; try discriminate.
    + unfold formatMajor, or_else. cbn [truthy].
      destruct (n =? 0)%Z eqn:En; cbn [negb template]; [discriminate|].
      intros E. exfalso. pose proof (Numerals.to_number_pretty n) as Hp.
      rewrite E in Hp. vm_compute in Hp. discriminate Hp.
    + unfold formatMajor.
      destruct (String.eqb s "cybersecurity"); [discriminate|].
      destruct (String.eqb s "cs"); [discriminate|].
      destruct (String.eqb s "se"); [discriminate|].
      destruct (String.eqb s "is"); [discriminate|].
      destruct (String.eqb s "ai"); [discriminate|].
      destruct (String.eqb s "data"); [discriminate|].
      unfold or_else. cbn [truthy].
      destruct (String.eqb s ""); cbn [negb template]; [discriminate|].
      now intros ->.
  - destruct code as [| |[]|n|s]; try discriminate.
    + unfold formatMajor, or_else. cbn [truthy].
      destruct (n =? 0)%Z eqn:En; cbn [negb template]; [discriminate|].
      intros E. exfalso. pose proof (Numerals.to_number_pretty n) as Hp.
      rewrite E in Hp. vm_compute in Hp. discriminate Hp.
    + unfold formatMajor.
      destruct (String.eqb s "cybersecurity"); [discriminate|].
      destruct (String.eqb s "cs"); [discriminate|].
      destruct (String.eqb s "se"); [discriminate|].
      destruct (String.eqb s "is"); [discriminate|].
      destruct (String.eqb s "ai"); [discriminate|].
      destruct (String.eqb s "data"); [discriminate|].
      unfold or_else. cbn [truthy].
      destruct (String.eqb s ""); cbn [negb template]; [discriminate|].
      now intros ->.
Qed.

(** The markup of a row around its title and its description. *)
Lemma tr_around_text (p : row) :
  tr_innerHTML p =
  (td (template (prop p "id")) +:+ td (template (prop p "team_name")) +:+
   td (template (prop p "team_size")) +:+ td (template (prop p "course_code")) +:+
   td (template (formatMajor (prop p "category"))) +:+
   td (template (prop p "project_type")) +:+ nl +:+ "          ") +:+
  "<td>" +:+ template (prop p "project_name") +:+ "</td>" +:+
  (td (template (prop p "rep_name")) +:+ nl +:+ "          ") +:+
  "<td>" +:+ template (prop p "description") +:+ "</td>" +:+
  (nl +:+ "        ").
Proof. unfold tr_innerHTML, td. rewrite !append_assoc. reflexivity. Qed.

(** X18.  Text reaches the page as it was typed: after a project is
    accepted and written, the first row of the projects page holds its
    trimmed title and its trimmed description between [<td>] and [</td>]
    character for character; neither the validators, nor the store, nor
    the page escape or drop any character of them. *)
Theorem accepted_text_shown_verbatim `{ValidatorLib} (b : body) (st : store) :
  passes project_validators b ->
  exists pre mid post rest,
    projectsBody
      (initProjectsList
         (Resolved (json (get_projects Completes
                            (post_project Completes b st).2).1))) =
    (pre +:+ "<td>" +:+ seen b "projectName" +:+ "</td>" +:+ mid +:+
     "<td>" +:+ seen b "projectDesc" +:+ "</td>" +:+ post) :: rest.
Proof.
  intros Hp. rewrite (post_project_valid Completes b st Hp).
  cbn [snd get_projects fst json res_json].
  rewrite Listings.new_project_listed_first. rewrite page_of_rows.
  cbn [map projectsBody]. rewrite tr_around_text.
  do 4 eexists. reflexivity.
Qed.

(** X18 at an accepted project whose title is markup. *)
Lemma accepted_text_shown_verbatim_witness :
  let b := <["projectName" := JStr "<img src=x onerror=alert(1)>"]> Samples.project_ok in
  @passes Client.pattern_lib project_validators b /\
  exists pre mid post rest,
    projectsBody
      (initProjectsList
         (Resolved (json (get_projects Completes
            (@post_project Client.pattern_lib Completes b empty_store).2).1))) =
    (pre +:+ "<td>" +:+ "<img src=x onerror=alert(1)>" +:+ "</td>" +:+ mid +:+
     "<td>" +:+ "a place to share project ideas" +:+ "</td>" +:+ post) :: rest.
Proof.
  intros b.
  assert (@passes Client.pattern_lib project_validators b) as Hp
    by (vm_compute; reflexivity).
  split; [exact Hp|].
  exact (@accepted_text_shown_verbatim Client.pattern_lib b empty_store Hp).
Defined.

End Pages.

(** ** The client: the date check *)

Module DateCheck.
Import Chars Regex Js Validator Dates App.
Import StringFacts RegexFacts Numerals.

Lemma substring_prefix (y r : string) :
  substring 0 (String.length y) (y +:+ r) = y.
Proof.
  induction y as [|a y IH]; [destruct r; reflexivity|].
  rewrite append_cons. simpl. now rewrite IH.
Qed.

Lemma substring_skip (p r : string) (n : nat) :
  substring (String.length p) n (p +:+ r) = substring 0 n r.
Proof.
  induction p as [|a p IH]; [reflexivity|].
  rewrite append_cons. simpl. exact IH.
Qed.

(** The strings of the form [dddd-dd-dd]. *)
Lemma lang_ymd_re (s : string) :
  lang ymd_re s <->
  exists y m d, s = y +:+ "-" +:+ m +:+ "-" +:+ d /\
    Shapes.digits 4 y /\ Shapes.digits 2 m /\ Shapes.digits 2 d.
Proof.
  unfold ymd_re, Shapes.digits. split.
  - intros Hs. apply lang_Cat in Hs as (y & s1 & -> & Hy & Hs).
    apply lang_Cat in Hs as (h1 & s2 & -> & Hh1 & Hs).
    apply lang_Cat in Hs as (m & s3 & -> & Hm & Hs).
    apply lang_Cat in Hs as (h2 & d & -> & Hh2 & Hd).
    apply lang_Lit in Hh1 as ->. apply lang_Lit in Hh2 as ->.
    apply lang_Rep_Sym in Hy, Hm, Hd. exists y, m, d. auto.
  - intros (y & m & d & -> & Hy & Hm & Hd).
    apply lang_Cat. exists y, ("-" +:+ m +:+ "-" +:+ d).
    split; [reflexivity|]. split; [now apply lang_Rep_Sym|].
    apply lang_Cat. exists "-", (m +:+ "-" +:+ d).
    split; [reflexivity|]. split; [now apply lang_Lit|].
    apply lang_Cat. exists m, ("-" +:+ d).
    split; [reflexivity|]. split; [now apply lang_Rep_Sym|].
    apply lang_Cat. exists "-", d.
    split; [reflexivity|]. split; [now apply lang_Lit | now apply lang_Rep_Sym].
Qed.

(** The three captured groups. *)
Lemma ymd_groups (y m d : string) :
  String.length y = 4 -> String.length m = 2 -> String.length d = 2 ->
  let s := y +:+ "-" +:+ m +:+ "-" +:+ d in
  substring 0 4 s = y /\ substring 5 2 s = m /\ substring 8 2 s = d.
Proof.
  intros Hy Hm Hd s. subst s. split; [|split].
  - rewrite <- Hy. apply substring_prefix.
  - rewrite <- (append_assoc y "-").
    replace 5 with (String.length (y +:+ "-")) by (rewrite length_append, Hy; reflexivity).
    rewrite substring_skip. rewrite <- Hm. apply substring_prefix.
  - rewrite <- (append_assoc y "-"), <- (append_assoc (y +:+ "-") m),
      <- (append_assoc ((y +:+ "-") +:+ m) "-").
    replace 8 with (String.length (((y +:+ "-") +:+ m) +:+ "-"))
      by (rewrite !length_append, Hy, Hm; reflexivity).
    rewrite substring_skip. rewrite <- (append_nil_r d) at 1.
    rewrite <- Hd. apply substring_prefix.
Qed.

Lemma days_in_month_bounds (y m : Z) : (28 <= days_in_month y m <= 31)%Z.
Proof.
  unfold days_in_month.
  destruct (m =? 1)%Z; [destruct (is_leap y); lia|].
  destruct ((m =? 3) || (m =? 5) || (m =? 8) || (m =? 10))%Z; lia.
Qed.

Lemma roll_within (y m d : Z) :
  (d <= days_in_month y m)%Z -> roll y m d = Date y m d.
Proof. intros Hd. unfold roll. apply Z.leb_le in Hd. now rewrite Hd. Qed.

Lemma roll_past (y m d : Z) :
  (days_in_month y m < d)%Z -> (0 <= m <= 11)%Z ->
  getMonth (roll y m d) <> m /\ getDate (roll y m d) = (d - days_in_month y m)%Z.
Proof.
  intros Hd Hm. unfold roll. apply Z.leb_gt in Hd. rewrite Hd.
  destruct (m =? 11)%Z eqn:E11; cbn [getMonth getDate]; split; try reflexivity.
  - apply Z.eqb_eq in E11. lia.
  - lia.
Qed.

(** The day after a day of the calendar is another day. *)
Lemma roll_next (y m d : Z) :
  (0 <= m <= 11)%Z -> (1 <= d <= days_in_month y m)%Z ->
  getMonth (roll y m (d + 1)) <> m \/ getDate (roll y m (d + 1)) <> d.
Proof.
  intros Hm Hd. destruct (Z_le_gt_dec (d + 1) (days_in_month y m)) as [Hl|Hg].
  - right. rewrite roll_within by exact Hl. cbn [getDate]. lia.
  - left. apply roll_past; lia.
Qed.

Section InZone.
Context `{TimeZone}.

(** Building a [Date] from a year, a month and a day and reading the three
    back gives them again exactly for the days that exist in the calendar
    and in the zone, from the year 100 on. *)
Lemma date_round_trip (year month day : Z) :
  (0 <= year)%Z -> (1 <= month <= 12)%Z -> (1 <= day <= 31)%Z ->
  (let d := new_Date year (month - 1) day in
   (getFullYear d =? year) && (getMonth d =? month - 1) && (getDate d =? day))%Z
  = true <->
  (100 <= year)%Z /\ (day <= days_in_month year (month - 1))%Z /\
  skips year (month - 1) day = false.
Proof.
  intros Hy Hm Hd. cbv zeta.
  rewrite !andb_true_iff, !Z.eqb_eq. unfold new_Date.
  set (y := (if (0 <=? year) && (year <=? 99) then 1900 + year else year)%Z).
  assert ((100 <= year /\ y = year) \/ (year <= 99 /\ 1900 <= y))%Z as Hcase.
  { subst y. destruct ((0 <=? year) && (year <=? 99))%Z eqn:Ec.
    - apply andb_true_iff in Ec as [_ Ec]. apply Z.leb_le in Ec. lia.
    - apply andb_false_iff in Ec as [Ec|Ec]; apply Z.leb_gt in Ec; lia. }
  clearbody y.
  pose proof (days_in_month_bounds y (month - 1)) as Hb.
  destruct (Z_le_gt_dec day (days_in_month y (month - 1))) as [Hl|Hg].
  - rewrite (roll_within y (month - 1) day Hl). cbn [getFullYear getMonth getDate].
    destruct (skips y (month - 1) day) eqn:Es.
    + destruct (roll_next y (month - 1) day ltac:(lia) ltac:(lia)) as [Hn|Hn].
      * split; [intros [[_ Hk] _]; contradiction|].
        intros (H100 & _ & Hs). destruct Hcase as [[_ ->]|[? ?]]; [congruence | lia].
      * split; [intros [_ Hk]; contradiction|].
        intros (H100 & _ & Hs). destruct Hcase as [[_ ->]|[? ?]]; [congruence | lia].
    + cbn [getFullYear getMonth getDate].
      destruct Hcase as [[H100 ->]|[H99 H1900]]; [tauto|].
      split; [intros [[Hk _] _]; lia | intros (? & _); lia].
  - destruct (roll_past y (month - 1) day ltac:(lia) ltac:(lia)) as [Hmo Hda].
    set (c := roll y (month - 1) day) in *.
    assert (0 <= getMonth c <= 11)%Z as Hc.
    { subst c. unfold roll. destruct (day <=? days_in_month y (month - 1))%Z;
        [|destruct (month - 1 =? 11)%Z eqn:E11]; cbn [getMonth]; lia. }
    split.
    + intros [[_ Hk] Hk'].
      destruct (skips (getFullYear c) (getMonth c) (getDate c)); [|contradiction].
      pose proof (days_in_month_bounds (getFullYear c) (getMonth c)) as Hb'.
      rewrite roll_within in Hk, Hk' by lia.
      cbn [getMonth getDate] in Hk, Hk'. contradiction.
    + intros (H100 & Hle & _). destruct Hcase as [[_ ->]|[? ?]]; lia.
Qed.

(** X20.  [isValidDateYMD] accepts exactly the strings [yyyy-mm-dd] of
    digits that name, from the year 0100 on, a day of the calendar which the
    time zone of the browser has: the month is between 01 and 12, the day
    between 01 and the last day of that month, leap years counted, and the
    zone does not skip the day.  Years 0000 to 0099 are rejected, the date
    object reading them as 1900 to 1999. *)
Theorem isValidDateYMD_spec (value : string) :
  isValidDateYMD value = true <->
  exists y m d,
    value = y +:+ "-" +:+ m +:+ "-" +:+ d /\
    Shapes.digits 4 y /\ Shapes.digits 2 m /\ Shapes.digits 2 d /\
    (100 <= Number_ y)%Z /\ (1 <= Number_ m <= 12)%Z /\
    (1 <= Number_ d <= days_in_month (Number_ y) (Number_ m - 1))%Z /\
    skips (Number_ y) (Number_ m - 1) (Number_ d) = false.
Proof.
  unfold isValidDateYMD.
  destruct (re_test ymd_re value) eqn:Er; cbn [negb].
  - apply re_test_lang, lang_ymd_re in Er as (y & m & d & -> & Hy & Hm & Hd).
    destruct (ymd_groups y m d (proj1 Hy) (proj1 Hm) (proj1 Hd)) as (G1 & G2 & G3).
    rewrite G1, G2, G3.
    assert (0 <= Number_ y)%Z as Py
      by (apply digits_value_nonneg; [lia | apply Hy]).
    pose proof (days_in_month_bounds (Number_ y) (Number_ m - 1)) as Hb.
    destruct ((Number_ m <? 1) || (Number_ m >? 12) || (Number_ d <? 1)
              || (Number_ d >? 31))%Z eqn:Eg.
    + split; [discriminate|].
      intros (y' & m' & d' & E & Hy' & Hm' & Hd' & B1 & B2 & B3 & _).
      destruct (ymd_groups y' m' d' (proj1 Hy') (proj1 Hm') (proj1 Hd')) as (G1' & G2' & G3').
      cbv zeta in G1', G2', G3'. rewrite <- E in G1', G2', G3'.
      rewrite G1 in G1'. rewrite G2 in G2'. rewrite G3 in G3'. subst y' m' d'.
      rewrite !orb_true_iff in Eg. rewrite !Z.ltb_lt, !Z.gtb_ltb, !Z.ltb_lt in Eg. lia.
    + rewrite !orb_false_iff in Eg. destruct Eg as [[[E1 E2] E3] E4].
      apply Z.ltb_ge in E1, E3. rewrite Z.gtb_ltb in E2, E4.
      apply Z.ltb_ge in E2, E4.
      rewrite (date_round_trip (Number_ y) (Number_ m) (Number_ d) Py
                 ltac:(lia) ltac:(lia)).
      split.
      * intros (B1 & B3 & B4). exists y, m, d. repeat split; try apply Hy;
          try apply Hm; try apply Hd; try lia. exact B4.
      * intros (y' & m' & d' & E & Hy' & Hm' & Hd' & B1 & B2 & B3 & B4).
        destruct (ymd_groups y' m' d' (proj1 Hy') (proj1 Hm') (proj1 Hd'))
          as (G1' & G2' & G3').
        cbv zeta in G1', G2', G3'. rewrite <- E in G1', G2', G3'.
        rewrite G1 in G1'. rewrite G2 in G2'. rewrite G3 in G3'. subst y' m' d'.
        repeat split; try lia. exact B4.
  - split; [discriminate|]. intros (y & m & d & -> & Hy & Hm & Hd & _).
    assert (re_test ymd_re (y +:+ "-" +:+ m +:+ "-" +:+ d) = true) as Ht.
    { apply re_test_lang, lang_ymd_re. exists y, m, d. auto. }
    congruence.
Qed.

End InZone.

(** The check in a zone that has every day, and in Pacific/Apia. *)
Example isValidDateYMD_cases :
  @isValidDateYMD Zones.every_day "2024-02-29" = true /\
  @isValidDateYMD Zones.every_day "2023-02-29" = false /\
  @isValidDateYMD Zones.every_day "2023-04-31" = false /\
  @isValidDateYMD Zones.every_day "2023-13-01" = false /\
  @isValidDateYMD Zones.every_day "0099-01-01" = false /\
  @isValidDateYMD Zones.every_day "2023-1-01" = false /\
  @isValidDateYMD Zones.every_day "2011-12-30" = true /\
  @isValidDateYMD Zones.apia "2011-12-30" = false /\
  @isValidDateYMD Zones.apia "2011-12-31" = true.
Proof. repeat split; vm_compute; reflexivity. Qed.

End DateCheck.

(* ===================================================================== *)
(** ** Texts of code units *)

Module Utf16Facts.
Import Regex Utf16.
Import StringFacts RegexFacts.

Lemma code_below (a : ascii) : (Chars.code a < 256)%N.
Proof. apply N_ascii_bounded. Qed.

Lemma code_inj (a b : ascii) : Chars.code a = Chars.code b -> a = b.
Proof.
  unfold Chars.code. intros E.
  rewrite <- (ascii_N_embedding a), <- (ascii_N_embedding b). now rewrite E.
Qed.

Lemma is_space_code (a : ascii) : is_space (Chars.code a) = Chars.is_space a.
Proof. destruct a as [[] [] [] [] [] [] [] []]; reflexivity. Qed.

Lemma cls_mem_code (c : cls) (a : ascii) :
  cls_mem c (Chars.code a) = Regex.cls_mem c a.
Proof.
  destruct c as [b| | | |]; cbn [cls_mem Regex.cls_mem].
  - destruct (decide (a = b)) as [->|Hn]; [apply N.eqb_refl|].
    apply N.eqb_neq. intros E. apply Hn. now apply code_inj.
  - reflexivity.
  - reflexivity.
  - destruct a as [[] [] [] [] [] [] [] []]; reflexivity.
  - destruct a as [[] [] [] [] [] [] [] []]; reflexivity.
Qed.

Lemma deriv_code (a : ascii) (r : regex) :
  deriv (Chars.code a) r = Regex.deriv a r.
Proof.
  induction r as [| |c|r1 IH1 r2 IH2|r1 IH1 r2 IH2|r1 IH1];
    cbn [deriv Regex.deriv]; rewrite ?cls_mem_code, ?IH1, ?IH2; reflexivity.
Qed.

(** On a text of characters below 256 a pattern decides as before. *)
Lemma re_test_of_string (r : regex) (s : string) :
  re_test r (of_string s) = Regex.re_test r s.
Proof.
  revert r. induction s as [|a s IH]; intros r; [reflexivity|].
  cbn [of_string re_test Regex.re_test]. now rewrite deriv_code, IH.
Qed.

Lemma void_not_nullable (r : regex) : void r = true -> nullable r = false.
Proof.
  induction r as [| |c|r1 IH1 r2 IH2|r1 IH1 r2 IH2|r1 IH1];
    cbn [void nullable]; try discriminate; try reflexivity.
  - intros [E|E]%orb_true_iff; [rewrite (IH1 E) | rewrite (IH2 E)];
      [reflexivity | apply andb_false_r].
  - intros [E1 E2]%andb_true_iff. now rewrite (IH1 E1), (IH2 E2).
Qed.

Lemma void_deriv (a : N) (r : regex) : void r = true -> void (deriv a r) = true.
Proof.
  induction r as [| |c|r1 IH1 r2 IH2|r1 IH1 r2 IH2|r1 IH1];
    cbn [void deriv]; try discriminate; try reflexivity.
  - intros [E|E]%orb_true_iff.
    + rewrite (void_not_nullable r1 E). cbn [void]. now rewrite (IH1 E).
    + destruct (nullable r1); cbn [void]; rewrite ?E, ?(IH2 E), ?orb_true_r;
        reflexivity.
  - intros [E1 E2]%andb_true_iff. now rewrite (IH1 E1), (IH2 E2).
Qed.

Lemma void_re_test (r : regex) (u : ustring) : void r = true -> re_test r u = false.
Proof.
  revert r. induction u as [|a u IH]; intros r E; cbn [re_test].
  - now apply void_not_nullable.
  - apply IH. now apply void_deriv.
Qed.

Lemma narrow_deriv (a : N) (r : regex) : narrow r = true -> narrow (deriv a r) = true.
Proof.
  induction r as [| |c|r1 IH1 r2 IH2|r1 IH1 r2 IH2|r1 IH1];
    cbn [narrow deriv]; try reflexivity.
  - intros _. destruct (cls_mem c a); reflexivity.
  - intros [E1 E2]%andb_true_iff.
    destruct (nullable r1); cbn [narrow]; now rewrite ?(IH1 E1), ?E2, ?(IH2 E2).
  - intros [E1 E2]%andb_true_iff. now rewrite (IH1 E1), (IH2 E2).
  - intros E. now rewrite (IH1 E), E.
Qed.

Lemma narrow_cls (c : cls) (a : N) :
  narrow (Sym c) = true -> (256 <= a)%N -> cls_mem c a = false.
Proof.
  intros Hc Ha. destruct c as [b| | | |]; cbn [cls_mem]; try discriminate.
  - apply N.eqb_neq. pose proof (code_below b). lia.
  - unfold is_digit. apply andb_false_iff. right. apply N.leb_gt. lia.
  - unfold is_alpha. apply orb_false_iff.
    split; apply andb_false_iff; right; apply N.leb_gt; lia.
  - apply orb_false_iff. split; apply N.eqb_neq; lia.
Qed.

(** A character from 256 on takes a narrow pattern to one without match. *)
Lemma narrow_deriv_void (a : N) (r : regex) :
  narrow r = true -> (256 <= a)%N -> void (deriv a r) = true.
Proof.
  intros Hr Ha.
  induction r as [| |c|r1 IH1 r2 IH2|r1 IH1 r2 IH2|r1 IH1];
    cbn [deriv void]; try reflexivity.
  - now rewrite (narrow_cls c a Hr Ha).
  - cbn [narrow] in Hr. apply andb_true_iff in Hr as [E1 E2].
    destruct (nullable r1); cbn [void]; rewrite (IH1 E1), ?(IH2 E2); reflexivity.
  - cbn [narrow] in Hr. apply andb_true_iff in Hr as [E1 E2].
    now rewrite (IH1 E1), (IH2 E2).
  - cbn [narrow] in Hr. now rewrite (IH1 Hr).
Qed.

Lemma of_string_below (u : ustring) :
  Forall (fun c => (c < 256)%N) u -> exists s, u = of_string s.
Proof.
  induction 1 as [|c u Hc _ (s & ->)]; [now exists ""|].
  exists (String (ascii_of_N c) s). cbn [of_string]. f_equal.
  unfold Chars.code. now rewrite N_ascii_embedding.
Qed.

(** What a narrow pattern accepts is a text of characters below 256. *)
Lemma re_test_narrow (r : regex) (u : ustring) :
  narrow r = true -> re_test r u = true ->
  exists s, u = of_string s /\ Regex.re_test r s = true.
Proof.
  intros Hr Ht.
  assert (Forall (fun c => (c < 256)%N) u) as Hu.
  { revert r Hr Ht. induction u as [|a u IH]; intros r Hr Ht; constructor.
    - destruct (N.lt_ge_cases a 256) as [Hl|Hg]; [exact Hl|].
      cbn [re_test] in Ht.
      rewrite (void_re_test _ u (narrow_deriv_void a r Hr Hg)) in Ht. discriminate.
    - apply (IH (deriv a r)); [now apply narrow_deriv | exact Ht]. }
  destruct (of_string_below u Hu) as (s & ->). exists s. split; [reflexivity|].
  now rewrite <- re_test_of_string.
Qed.

Lemma re_test_narrow_iff (r : regex) (u : ustring) :
  narrow r = true ->
  re_test r u = true <-> exists s, u = of_string s /\ lang r s.
Proof.
  intros Hr. split.
  - intros Ht. destruct (re_test_narrow r u Hr Ht) as (s & -> & Hs).
    exists s. split; [reflexivity | now apply re_test_lang].
  - intros (s & -> & Hs). rewrite re_test_of_string. now apply re_test_lang.
Qed.

Lemma of_string_inj (s t : string) : of_string s = of_string t -> s = t.
Proof.
  revert t. induction s as [|a s IH]; intros [|b t] E; try discriminate;
    [reflexivity|].
  cbn [of_string] in E. injection E as Ea Es.
  f_equal; [now apply code_inj | now apply IH].
Qed.

Lemma length_of_string (s : string) : length (of_string s) = String.length s.
Proof. induction s as [|a s IH]; [reflexivity|]. cbn. now rewrite IH. Qed.

Lemma ltrim_of_string (s : string) : ltrim (of_string s) = of_string (Chars.ltrim s).
Proof.
  induction s as [|a s IH]; [reflexivity|].
  cbn [of_string ltrim Chars.ltrim]. rewrite is_space_code.
  destruct (Chars.is_space a); [exact IH | reflexivity].
Qed.

Lemma rtrim_of_string (s : string) : rtrim (of_string s) = of_string (Chars.rtrim s).
Proof.
  induction s as [|a s IH]; [reflexivity|].
  cbn [of_string rtrim Chars.rtrim]. rewrite IH, is_space_code.
  destruct (Chars.rtrim s); cbn [of_string]; [destruct (Chars.is_space a)|];
    reflexivity.
Qed.

Lemma trim_of_string (s : string) : trim (of_string s) = of_string (Chars.trim s).
Proof. unfold trim, Chars.trim. now rewrite ltrim_of_string, rtrim_of_string. Qed.

(** What is left of a text by [ltrim] does not start with white space. *)
Lemma ltrim_head16 (u : ustring) :
  ltrim u = [] \/ exists a t, ltrim u = a :: t /\ is_space a = false.
Proof.
  induction u as [|a u IH]; [now left|].
  cbn [ltrim]. destruct (is_space a) eqn:E; [exact IH|]. right. eauto.
Qed.

Lemma rtrim_cons16 (a : N) (u : ustring) :
  is_space a = false -> exists t, rtrim (a :: u) = a :: t.
Proof.
  intros E. cbn [rtrim]. destruct (rtrim u); [rewrite E|]; eauto.
Qed.

Lemma rtrim_idempotent16 (u : ustring) : rtrim (rtrim u) = rtrim u.
Proof.
  induction u as [|a u IH]; [reflexivity|].
  cbn [rtrim]. destruct (rtrim u) as [|b t] eqn:Es.
  - destruct (is_space a) eqn:Ea; [reflexivity|]. cbn [rtrim]. now rewrite Ea.
  - change (rtrim (a :: b :: t)) with
      (match rtrim (b :: t) with
       | [] => if is_space a then [] else [a]
       | w => a :: w
       end).
    now rewrite IH.
Qed.

(** Trimming twice is trimming once. *)
Lemma trim_idempotent16 (u : ustring) : trim (trim u) = trim u.
Proof.
  unfold trim. destruct (ltrim_head16 u) as [E | (a & t & E & Ea)].
  - rewrite E. reflexivity.
  - rewrite E. destruct (rtrim_cons16 a t Ea) as (w & Ew). rewrite Ew.
    cbn [ltrim]. rewrite Ea. rewrite <- Ew. apply rtrim_idempotent16.
Qed.

Lemma surrogate_pairs_cons (h l : N) (u : ustring) :
  surrogate_pairs (h :: l :: u) =
  if is_high h && is_low l then S (surrogate_pairs u) else surrogate_pairs (l :: u).
Proof. reflexivity. Qed.

Lemma surrogate_pairs_le (u : ustring) : 2 * surrogate_pairs u <= length u.
Proof.
  assert (forall n u, length u <= n -> 2 * surrogate_pairs u <= length u) as Hn.
  { clear u. induction n as [|n IH]; intros u Hu.
    - destruct u; [cbn; lia | cbn in Hu; lia].
    - destruct u as [|h [|l u]]; [cbn; lia | cbn; lia |].
      rewrite surrogate_pairs_cons. cbn [length] in *.
      destruct (is_high h && is_low l).
      + specialize (IH u ltac:(lia)). lia.
      + specialize (IH (l :: u) ltac:(cbn [length]; lia)). cbn [length] in IH. lia. }
  exact (Hn (length u) u (le_n _)).
Qed.

Lemma presentation_sequences_le (u : ustring) :
  presentation_sequences u <= length u.
Proof. unfold presentation_sequences. apply filter_length_le. Qed.

(** The count of [isLength] never exceeds the length of the string, and is
    the length when the text has no pair and no selector. *)
Lemma len_le (u : ustring) : len u <= length u.
Proof. unfold len. lia. Qed.

Lemma len_plain (u : ustring) : plain u -> len u = length u.
Proof. intros [E1 E2]. unfold len. rewrite E1, E2. lia. Qed.

Lemma plain_of_string (s : string) : plain (of_string s).
Proof.
  split.
  - assert (forall n s, String.length s <= n -> surrogate_pairs (of_string s) = 0)
      as Hn.
    { clear s. induction n as [|n IH]; intros s Hs.
      - destruct s; [reflexivity | cbn in Hs; lia].
      - destruct s as [|h [|l s]]; [reflexivity | reflexivity |].
        cbn [of_string]. rewrite surrogate_pairs_cons.
        assert (is_high (Chars.code h) = false) as ->.
        { unfold is_high. pose proof (code_below h).
          apply andb_false_iff. left. apply N.leb_gt. lia. }
        cbn [andb]. apply (IH (String l s)). cbn [String.length] in *. lia. }
    exact (Hn (String.length s) s (le_n _)).
  - unfold presentation_sequences.
    induction s as [|a s IH]; [reflexivity|].
    cbn [of_string List.filter].
    assert (is_selector (Chars.code a) = false) as ->; [|exact IH].
    unfold is_selector. pose proof (code_below a).
    apply orb_false_iff. split; apply N.eqb_neq; lia.
Qed.

Lemma len_of_string (s : string) : len (of_string s) = String.length s.
Proof. rewrite (len_plain _ (plain_of_string s)). apply length_of_string. Qed.

Lemma digits_value_of_string (acc : Z) (s : string) :
  digits_value acc (of_string s) = Validator.digits_value acc s.
Proof.
  revert acc. induction s as [|a s IH]; intros acc; [reflexivity|].
  cbn [of_string digits_value Validator.digits_value]. now rewrite IH.
Qed.

Lemma to_number_of_string (s : string) :
  to_number (of_string s) = Validator.to_number s.
Proof.
  unfold to_number, Validator.to_number. rewrite re_test_of_string.
  destruct (Regex.re_test Validator.intLeadingZeroes s); [|reflexivity].
  destruct s as [|a s]; [reflexivity|].
  cbn [of_string].
  destruct (decide (a = "-"%char)) as [->|Hm].
  { change (Chars.code "-"%char) with 45%N. lazy beta iota.
    now rewrite digits_value_of_string. }
  destruct (decide (a = "+"%char)) as [->|Hp].
  { change (Chars.code "+"%char) with 43%N. lazy beta iota.
    now rewrite digits_value_of_string. }
  transitivity (Some (digits_value 0 (Chars.code a :: of_string s))).
  - assert (Chars.code a <> 45%N) as H45
      by (intros E; apply Hm; now apply code_inj).
    assert (Chars.code a <> 43%N) as H43
      by (intros E; apply Hp; now apply code_inj).
    destruct (Chars.code a) as [|q]; [reflexivity|].
    do 6 (destruct q as [q|q|]; try reflexivity); congruence.
  - change (Chars.code a :: of_string s) with (of_string (String a s)).
    rewrite digits_value_of_string.
    destruct a as [[] [] [] [] [] [] [] []]; try reflexivity; congruence.
Qed.

End Utf16Facts.

(* ===================================================================== *)
(** ** Chains on whole requests *)

Module ExpressFacts.
Import Regex Utf16 Req Express.
Import Validator (validator, IsLength, NotEmpty, Matches, IsEmail, IsInt,
                  item, Trim, Validate, chain, Chain, field, stack, message_of).
Import Utf16Facts.


Lemma read_write_eq (rq : request) (l : location) (f : string) (d : data) :
  read (write rq l f d) l f = d.
Proof.
  destruct l; unfold read, write, get; cbn [at_ body headers query];
    now rewrite lookup_insert_eq.
Qed.

Lemma read_write_loc (rq : request) (l l' : location) (f g : string) (d : data) :
  l <> l' -> read (write rq l f d) l' g = read rq l' g.
Proof. intros Hl. destruct l, l'; try congruence; reflexivity. Qed.

Lemma read_write_path (rq : request) (l : location) (f g : string) (d : data) :
  path_at l f <> path_at l g -> read (write rq l f d) l g = read rq l g.
Proof.
  intros Hp. destruct l; unfold read, write, get; cbn [at_ body headers query];
    now rewrite lookup_insert_ne.
Qed.

Lemma toLowerCase_path (l : location) (f g : string) :
  toLowerCase f <> toLowerCase g -> path_at l f <> path_at l g.
Proof. intros Hn. destruct l; cbn [path_at]; congruence. Qed.

Lemma read_write_back_eq (f : string) (rq : request) (i : instance) :
  read (write_back f rq i) (location_of i) f = ivalue i.
Proof.
  unfold write_back. destruct (decide _) as [E|_]; [now rewrite E|].
  apply read_write_eq.
Qed.

Lemma read_write_back_loc (f g : string) (rq : request) (i : instance) (l : location) :
  location_of i <> l -> read (write_back f rq i) l g = read rq l g.
Proof.
  intros Hl. unfold write_back. destruct (decide _); [reflexivity|].
  now apply read_write_loc.
Qed.

Lemma read_write_back_other (f g : string) (rq : request) (i : instance) (l : location) :
  toLowerCase f <> toLowerCase g -> read (write_back f rq i) l g = read rq l g.
Proof.
  intros Hn. unfold write_back. destruct (decide _); [reflexivity|].
  destruct (decide (location_of i = l)) as [<-|Hl].
  - apply read_write_path. now apply toLowerCase_path.
  - now apply read_write_loc.
Qed.

Lemma read_foldl_write_back_other (f g : string) (ins : list instance) (rq : request)
  (l : location) :
  toLowerCase f <> toLowerCase g ->
  read (foldl (write_back f) rq ins) l g = read rq l g.
Proof.
  intros Hn. revert rq. induction ins as [|i ins IH]; intros rq; [reflexivity|].
  cbn [foldl]. rewrite IH. now apply read_write_back_other.
Qed.

(** Writing the three instances of a field back leaves their values in the request. *)
Lemma read_written_back (f : string) (rq : request) (b h q : data) (l : location) :
  read (foldl (write_back f) rq [Instance Body b; Instance Headers h; Instance Query q]) l f
  = match l with Body => b | Headers => h | Query => q end.
Proof.
  cbn [foldl]. destruct l.
  - rewrite !read_write_back_loc by (cbn; congruence).
    apply (read_write_back_eq f rq (Instance Body b)).
  - rewrite read_write_back_loc by (cbn; congruence).
    apply (read_write_back_eq f _ (Instance Headers h)).
  - apply (read_write_back_eq f _ (Instance Query q)).
Qed.

Lemma defined_trimmed (d : data) : defined (map_data trimmed d) = true.
Proof. destruct d; reflexivity. Qed.



Ltac by_locations rq f :=
  let Eb := fresh "Eb" in let Eh := fresh "Eh" in let Eq := fresh "Eq" in
  destruct (defined (read rq Body f)) eqn:Eb,
           (defined (read rq Headers f)) eqn:Eh,
           (defined (read rq Query f)) eqn:Eq.

Ltac decide_locations :=
  repeat match goal with
  | |- context [bool_decide (?l ∈ ?ls)] =>
      let b := eval vm_compute in (bool_decide (l ∈ ls)) in
      change (bool_decide (l ∈ ls)) with b
  end.

Section WithLib.
Context `{Library}.

Lemma texts_spec (rq : request) (f : string) :
  texts rq f =
  flat_map (fun l => if looked_at rq f l then map toString (values (read rq l f))
                     else []) locations.
Proof.
  unfold texts, looked_at, getData, selectFields, locations, has_value.
  cbn [map List.filter ivalue].
  by_locations rq f; cbn [map location_of take]; decide_locations;
    cbn [flat_map ivalue app]; rewrite ?app_nil_r; reflexivity.
Qed.

Lemma run_trim_validate (rq : request) (f : string) (vd : validator) (m : string) :
  run_stack f [Trim; Validate vd m] (selectFields rq f) =
  (map (fun l => Instance l (if looked_at rq f l then map_data trimmed (read rq l f)
                             else read rq l f)) locations,
   flat_map (fun l => if looked_at rq f l
                      then validate f vd m (Instance l (map_data trimmed (read rq l f)))
                      else []) locations).
Proof.
  unfold looked_at. cbn [run_stack run_item fst snd].
  unfold runs_on, getData, selectFields, locations, has_value.
  cbn [map List.filter ivalue location_of].
  by_locations rq f; cbn [map location_of take]; decide_locations;
    cbn [ivalue]; rewrite ?defined_trimmed, ?Eb, ?Eh, ?Eq;
    cbn [flat_map app]; rewrite ?app_nil_r; reflexivity.
Qed.

Lemma run_validate (rq : request) (f : string) (vd : validator) (m : string) :
  run_stack f [Validate vd m] (selectFields rq f) =
  (selectFields rq f,
   flat_map (fun l => if looked_at rq f l
                      then validate f vd m (Instance l (read rq l f))
                      else []) locations).
Proof.
  unfold looked_at. cbn [run_stack run_item fst snd].
  unfold getData, selectFields, locations, has_value.
  cbn [map List.filter ivalue location_of].
  by_locations rq f; cbn [map location_of take]; decide_locations;
    cbn [flat_map app]; rewrite ?app_nil_r; reflexivity.
Qed.

Lemma read_foldl_write_back (f : string) (ins : list instance) (rq : request)
  (l : location) :
  read (foldl (write_back f) rq ins) l f =
  foldl (fun d i => if decide (location_of i = l) then ivalue i else d)
        (read rq l f) ins.
Proof.
  revert rq. induction ins as [|i ins IH]; intros rq; [reflexivity|].
  cbn [foldl]. rewrite IH. f_equal.
  destruct (decide (location_of i = l)) as [<-|Hl].
  - apply read_write_back_eq.
  - now apply read_write_back_loc.
Qed.

Lemma selectFields_ext (rq rq' : request) (f : string) :
  (forall l, read rq l f = read rq' l f) -> selectFields rq f = selectFields rq' f.
Proof.
  intros E. unfold selectFields. apply map_ext. intros l. now rewrite E.
Qed.

(** A chain looks at its own field only, and changes nothing else. *)
Lemma run_chain_ext (c : chain) (rq rq' : request) :
  (forall l, read rq l (field c) = read rq' l (field c)) ->
  errors_of c rq = errors_of c rq' /\ forall l, left_at c rq l = left_at c rq' l.
Proof.
  intros E. unfold errors_of, left_at, run_chain. cbn [fst snd].
  rewrite (selectFields_ext rq rq' (field c) E). split; [reflexivity|].
  intros l. now rewrite !read_foldl_write_back, E.
Qed.

Lemma run_chain_read_other (c : chain) (rq : request) (l : location) (g : string) :
  toLowerCase (field c) <> toLowerCase g ->
  read (run_chain c rq).1 l g = read rq l g.
Proof. intros Hn. unfold run_chain. cbn [fst]. now apply read_foldl_write_back_other. Qed.

Lemma run_chains_read_other (cs : list chain) (rq : request) (l : location)
  (g : string) :
  Forall (fun c => toLowerCase (field c) <> toLowerCase g) cs ->
  read (run_chains cs rq).1 l g = read rq l g.
Proof.
  intros Hcs. revert rq. induction Hcs as [|c cs Hc _ IH]; intros rq; [reflexivity|].
  cbn [run_chains fst]. rewrite IH. now apply run_chain_read_other.
Qed.

Lemma run_chains_gen (cs : list chain) (rq rq0 : request) :
  NoDup (map (fun c => toLowerCase (field c)) cs) ->
  (forall c l, c ∈ cs -> read rq l (field c) = read rq0 l (field c)) ->
  (run_chains cs rq).2 = flat_map (fun c => errors_of c rq0) cs /\
  forall c l, c ∈ cs -> read (run_chains cs rq).1 l (field c) = left_at c rq0 l.
Proof.
  revert rq. induction cs as [|c cs IH]; intros rq Hnd E.
  - split; [reflexivity|]. intros c l Hc. now apply elem_of_nil in Hc.
  - cbn [map] in Hnd. apply NoDup_cons in Hnd as [Hc Hnd].
    assert (Forall (fun c' => toLowerCase (field c) <> toLowerCase (field c')) cs)
      as Hcs.
    { apply Forall_forall. intros c' Hc' Heq. apply Hc. rewrite Heq.
      apply (list_elem_of_fmap_2 (fun c => toLowerCase (field c))). exact Hc'. }
    destruct (run_chain_ext c rq rq0) as [Ee El].
    { intros l. apply E. apply list_elem_of_here. }
    destruct (IH (run_chain c rq).1 Hnd) as [IH1 IH2].
    { intros c' l Hc'. rewrite run_chain_read_other.
      - apply E. now apply list_elem_of_further.
      - rewrite Forall_forall in Hcs. now apply Hcs. }
    cbn [run_chains fst snd flat_map]. split.
    + now rewrite IH1, <- Ee.
    + intros c' l [->|Hc']%elem_of_cons.
      * rewrite run_chains_read_other.
        -- rewrite <- El. reflexivity.
        -- apply Forall_forall. intros c' Hc' Heq. apply Hc. rewrite <- Heq.
           apply (list_elem_of_fmap_2 (fun c => toLowerCase (field c))). exact Hc'.
      * now apply IH2.
Qed.

(** The errors of a route are those of its chains on the request as it
    came, in order. *)
Lemma run_chains_errors16 (cs : list chain) (rq : request) :
  NoDup (map (fun c => toLowerCase (field c)) cs) ->
  (run_chains cs rq).2 = flat_map (fun c => errors_of c rq) cs.
Proof. intros Hnd. now apply (run_chains_gen cs rq rq Hnd). Qed.


Lemma passes_iff16 (cs : list chain) (rq : request) :
  NoDup (map (fun c => toLowerCase (field c)) cs) ->
  passes cs rq <-> Forall (fun c => errors_of c rq = []) cs.
Proof.
  intros Hnd. unfold passes. rewrite run_chains_errors16 by exact Hnd.
  induction cs as [|c cs IH]; cbn [flat_map].
  - split; [constructor | reflexivity].
  - cbn [map] in Hnd. apply NoDup_cons in Hnd as [_ Hnd].
    rewrite Forall_cons. rewrite <- (IH Hnd).
    split.
    + intros E. now apply app_eq_nil in E.
    + intros [E1 E2]. now rewrite E1, E2.
Qed.

Lemma values_map_data (g : value -> value) (d : data) :
  values (map_data g d) = map g (values d).
Proof. destruct d; reflexivity. Qed.

Lemma validate_nil (f : string) (vd : validator) (m : string) (i : instance) :
  validate f vd m i = [] <->
  Forall (fun v => eval vd (toString v) = true) (values (ivalue i)).
Proof.
  unfold validate. induction (values (ivalue i)) as [|v vs IH]; cbn [flat_map].
  - split; [constructor | reflexivity].
  - rewrite Forall_cons, <- IH. destruct (eval vd (toString v)).
    + cbn [app]. tauto.
    + split; [discriminate | intros [? _]; discriminate].
Qed.



(** A chain that trims and validates records no error exactly when the
    validator accepts each text of its field, trimmed. *)
Lemma errors_trim_validate (c : chain) (rq : request) (vd : validator) (m : string) :
  stack c = [Trim; Validate vd m] ->
  errors_of c rq = [] <-> held rq (field c) (fun u => eval vd (trim u) = true).
Proof.
  intros Hs. unfold errors_of, run_chain, held. rewrite Hs, run_trim_validate.
  cbn [snd]. rewrite texts_spec. unfold locations. cbn [flat_map].
  rewrite !app_nil_r, !Forall_app.
  assert (forall l,
    (if looked_at rq (field c) l
     then validate (field c) vd m (Instance l (map_data trimmed (read rq l (field c))))
     else []) = [] <->
    Forall (fun u => eval vd (trim u) = true)
      (if looked_at rq (field c) l
       then map toString (values (read rq l (field c))) else [])) as Hl.
  { intros l. destruct (looked_at rq (field c) l).
    - rewrite validate_nil. cbn [ivalue]. rewrite values_map_data, !Forall_fmap.
      reflexivity.
    - split; [constructor | reflexivity]. }
  rewrite <- !Hl. split.
  - intros E. apply app_eq_nil in E as [E1 E]. apply app_eq_nil in E as [E2 E3]. auto.
  - intros (E1 & E2 & E3). now rewrite E1, E2, E3.
Qed.

(** A chain that only validates records no error exactly when the validator
    accepts each text of its field. *)
Lemma errors_validate (c : chain) (rq : request) (vd : validator) (m : string) :
  stack c = [Validate vd m] ->
  errors_of c rq = [] <-> held rq (field c) (fun u => eval vd u = true).
Proof.
  intros Hs. unfold errors_of, run_chain, held. rewrite Hs, run_validate.
  cbn [snd]. rewrite texts_spec. unfold locations. cbn [flat_map].
  rewrite !app_nil_r, !Forall_app.
  assert (forall l,
    (if looked_at rq (field c) l
     then validate (field c) vd m (Instance l (read rq l (field c)))
     else []) = [] <->
    Forall (fun u => eval vd u = true)
      (if looked_at rq (field c) l
       then map toString (values (read rq l (field c))) else [])) as Hl.
  { intros l. destruct (looked_at rq (field c) l).
    - rewrite validate_nil. cbn [ivalue]. rewrite !Forall_fmap. reflexivity.
    - split; [constructor | reflexivity]. }
  rewrite <- !Hl. split.
  - intros E. apply app_eq_nil in E as [E1 E]. apply app_eq_nil in E as [E2 E3]. auto.
  - intros (E1 & E2 & E3). now rewrite E1, E2, E3.
Qed.

End WithLib.

End ExpressFacts.

(* ===================================================================== *)
(** ** The rules of the fields, on code units *)

Module RouteFacts.
Import Regex Utf16 Req Express.
Import Validator (validator, IsLength, NotEmpty, Matches, IsEmail, IsInt,
                  item, Trim, Validate, chain, Chain, field, stack, message_of).
Import Api Checked.
Import Db (outcome, Completes, Throws).
Import Utf16Facts ExpressFacts.


Section WithLib.
Context `{Library}.

Lemma eval_isLength (lo hi : nat) (u : ustring) :
  eval (IsLength lo hi) u = true <-> length_between lo hi u.
Proof.
  cbn [eval]. unfold isLength, length_between.
  rewrite andb_true_iff, !Nat.leb_le. reflexivity.
Qed.

Lemma eval_notEmpty (u : ustring) : eval NotEmpty u = true <-> u <> [].
Proof. cbn [eval]. unfold isEmpty. destruct u; cbn; split; congruence. Qed.

Lemma eval_matches (r : regex) (u : ustring) :
  narrow r = true -> eval (Matches r) u = true <-> ascii (lang r) u.
Proof. intros Hr. cbn [eval]. unfold matches, ascii. now apply re_test_narrow_iff. Qed.

Lemma eval_isInt (lo hi : Z) (u : ustring) :
  eval (IsInt lo hi) u = true <->
  exists n, to_number u = Some n /\ (lo <= n <= hi)%Z.
Proof.
  cbn [eval]. unfold isInt. split.
  - intros [_ Hn]%andb_true_iff. destruct (to_number u) as [n|]; [|discriminate].
    exists n. split; [reflexivity|].
    apply andb_true_iff in Hn as [H1 H2]. apply Z.leb_le in H1, H2. lia.
  - intros (n & Hn & Hb). rewrite Hn. unfold to_number in Hn.
    destruct (re_test Validator.intLeadingZeroes u); [|discriminate].
    cbn [andb]. apply andb_true_iff. split; apply Z.leb_le; lia.
Qed.

Lemma looked_at_spec (rq : request) (f : string) (l : location) :
  looked_at rq f l =
  defined (read rq l f)
  || (negb (defined (read rq Body f)) && negb (defined (read rq Headers f))
      && negb (defined (read rq Query f)) && bool_decide (l = Body)).
Proof.
  unfold looked_at, getData, selectFields, locations, has_value.
  cbn [map List.filter ivalue].
  by_locations rq f; cbn [map location_of take]; destruct l;
    rewrite ?Eb, ?Eh, ?Eq; reflexivity.
Qed.


(** A field that the body alone holds. *)
Lemma looked_at_body_alone (rq : request) (f : string) :
  read rq Headers f = One JUndefined -> read rq Query f = One JUndefined ->
  looked_at rq f Body = true /\ looked_at rq f Headers = false /\
  looked_at rq f Query = false.
Proof.
  intros Eh Eq. rewrite !looked_at_spec, Eh, Eq.
  destruct (defined (read rq Body f)); repeat split; reflexivity.
Qed.

Lemma texts_body_alone (rq : request) (f : string) :
  read rq Headers f = One JUndefined -> read rq Query f = One JUndefined ->
  texts rq f = map toString (values (read rq Body f)).
Proof.
  intros Eh Eq. rewrite texts_spec. unfold locations. cbn [flat_map].
  destruct (looked_at_body_alone rq f Eh Eq) as (-> & -> & ->).
  cbn [app]. now rewrite !app_nil_r.
Qed.




End WithLib.

End RouteFacts.

(* ===================================================================== *)
(** ** What the two routes store *)

Module Stored.
Import Regex Utf16 Req Express.
Import Validator (validator, IsLength, NotEmpty, Matches, IsEmail, IsInt,
                  item, Trim, Validate, chain, Chain, field, stack, message_of).
Import Api Checked.
Import Db (outcome, Completes, Throws).
Import Utf16Facts ExpressFacts RouteFacts.


Lemma contact_lower_NoDup :
  NoDup (map (fun c => toLowerCase (field c)) Server.contact_validators).
Proof. apply (bool_decide_unpack _). vm_compute. exact I. Qed.

Lemma project_lower_NoDup :
  NoDup (map (fun c => toLowerCase (field c)) Server.project_validators).
Proof. apply (bool_decide_unpack _). vm_compute. exact I. Qed.

Ltac in_list := repeat first [apply list_elem_of_here | apply list_elem_of_further].

Section WithLib.
Context `{Library}.



















End WithLib.



End Stored.

(* ===================================================================== *)
(** ** What the two routes accept *)

Module Accepting.
Import Regex Utf16 Req Express.
Import Validator (validator, IsLength, NotEmpty, Matches, IsEmail, IsInt,
                  item, Trim, Validate, chain, Chain, field, stack, message_of).
Import Api Checked.
Import Db (outcome, Completes, Throws).
Import Utf16Facts ExpressFacts RouteFacts Stored.


Section WithLib.
Context `{Library}.

Lemma held_iff (rq : request) (f : string) (P Q : ustring -> Prop) :
  (forall u, P u <-> Q u) -> held rq f P <-> held rq f Q.
Proof. intros E. unfold held. apply Forall_iff. exact E. Qed.

Lemma accepts_trimmed (c : chain) (rq : request) (vd : validator) (m : string)
  (Q : ustring -> Prop) :
  stack c = [Trim; Validate vd m] -> (forall t, eval vd t = true <-> Q t) ->
  errors_of c rq = [] <-> held rq (field c) (fun u => Q (trim u)).
Proof.
  intros Hs HQ. rewrite (errors_trim_validate c rq vd m Hs).
  apply held_iff. intros u. apply HQ.
Qed.

Lemma accepts_as_it_came (c : chain) (rq : request) (vd : validator) (m : string)
  (Q : ustring -> Prop) :
  stack c = [Validate vd m] -> (forall t, eval vd t = true <-> Q t) ->
  errors_of c rq = [] <-> held rq (field c) Q.
Proof.
  intros Hs HQ. rewrite (errors_validate c rq vd m Hs).
  apply held_iff. intros u. apply HQ.
Qed.

Lemma eval_mobile (t : ustring) :
  eval (Matches Server.mobile_re) t = true <-> ascii Shapes.saudi_mobile t.
Proof.
  rewrite (eval_matches Server.mobile_re t eq_refl). unfold ascii.
  split; intros (s & Hs & Hl); exists s; (split; [exact Hs|]);
    now apply ServerFacts.lang_mobile_re.
Qed.

Lemma eval_repId (t : ustring) :
  eval (Matches Server.repId_re) t = true <-> ascii (Shapes.digits 7) t.
Proof.
  rewrite (eval_matches Server.repId_re t eq_refl). unfold ascii.
  split; intros (s & Hs & Hl); exists s; (split; [exact Hs|]);
    now apply ServerFacts.lang_repId_re.
Qed.

Lemma eval_courseCode (t : ustring) :
  eval (Matches Server.courseCode_re) t = true <-> ascii Shapes.course_code t.
Proof.
  rewrite (eval_matches Server.courseCode_re t eq_refl). unfold ascii.
  split; intros (s & Hs & Hl); exists s; (split; [exact Hs|]);
    now apply ServerFacts.lang_courseCode_re.
Qed.

Lemma eval_isEmail (t : ustring) : eval IsEmail t = true <-> isEmail t = true.
Proof. reflexivity. Qed.

(** The texts of a field that only the body holds, as one value. *)
Lemma texts_body_borne (cs : list chain) (rq : request) (c : chain) (v : value) :
  body_borne cs rq -> c ∈ cs -> read rq Body (field c) = One v ->
  texts rq (field c) = [toString v].
Proof.
  intros Hb Hc Ev. unfold body_borne in Hb. rewrite Forall_forall in Hb.
  destruct (Hb c Hc) as (Eh & Eq & _).
  rewrite (texts_body_alone rq (field c) Eh Eq), Ev. reflexivity.
Qed.

Lemma contact_passes_iff16 (rq : request) :
  passes Server.contact_validators rq <->
   held rq "firstName" (fun u => length_between 2 30 (trim u)) /\
   held rq "lastName" (fun u => length_between 2 30 (trim u)) /\
   held rq "gender" (fun u => u <> []) /\
   held rq "mobile" (fun u => ascii Shapes.saudi_mobile (trim u)) /\
   held rq "dob" (fun u => trim u <> []) /\
   held rq "email" (fun u => isEmail (trim u) = true) /\
   held rq "language" (fun u => u <> []) /\
   held rq "message" (fun u => length_between 10 1000 (trim u)).
Proof.
  rewrite (passes_iff16 _ _ contact_lower_NoDup).
  unfold Server.contact_validators. rewrite !Forall_cons.
  rewrite (accepts_trimmed Server.check_firstName rq _ _ _ eq_refl (eval_isLength 2 30)).
  rewrite (accepts_trimmed Server.check_lastName rq _ _ _ eq_refl (eval_isLength 2 30)).
  rewrite (accepts_as_it_came Server.check_gender rq _ _ _ eq_refl eval_notEmpty).
  rewrite (accepts_trimmed Server.check_mobile rq _ _ _ eq_refl eval_mobile).
  rewrite (accepts_trimmed Server.check_dob rq _ _ _ eq_refl eval_notEmpty).
  rewrite (accepts_trimmed Server.check_email rq _ _ _ eq_refl eval_isEmail).
  rewrite (accepts_as_it_came Server.check_language rq _ _ _ eq_refl eval_notEmpty).
  rewrite (accepts_trimmed Server.check_message rq _ _ _ eq_refl (eval_isLength 10 1000)).
  change (field Server.check_firstName) with "firstName".
  change (field Server.check_lastName) with "lastName".
  change (field Server.check_gender) with "gender".
  change (field Server.check_mobile) with "mobile".
  change (field Server.check_dob) with "dob".
  change (field Server.check_email) with "email".
  change (field Server.check_language) with "language".
  change (field Server.check_message) with "message".
  split; [tauto|]. intros (?&?&?&?&?&?&?&?). repeat split; try assumption.
  constructor.
Qed.

Lemma eval_teamSize (t : ustring) :
  eval (IsInt 1 10) t = true <-> numeral_between 1 10 t.
Proof. apply eval_isInt. Qed.

Lemma project_passes_iff16 (rq : request) :
  passes Server.project_validators rq <->
   held rq "teamName" (fun u => length_between 3 50 (trim u)) /\
   held rq "teamSize" (numeral_between 1 10) /\
   held rq "repName" (fun u => length_between 3 50 (trim u)) /\
   held rq "repId" (fun u => ascii (Shapes.digits 7) (trim u)) /\
   held rq "repEmail" (fun u => isEmail (trim u) = true) /\
   held rq "courseCode" (fun u => ascii Shapes.course_code (trim u)) /\
   held rq "category" (fun u => u <> []) /\
   held rq "projectType" (fun u => u <> []) /\
   held rq "projectName" (fun u => length_between 3 60 (trim u)) /\
   held rq "projectDesc" (fun u => length_between 10 400 (trim u)).
Proof.
  rewrite (passes_iff16 _ _ project_lower_NoDup).
  unfold Server.project_validators. rewrite !Forall_cons.
  rewrite (accepts_trimmed Server.check_teamName rq _ _ _ eq_refl (eval_isLength 3 50)).
  rewrite (accepts_as_it_came Server.check_teamSize rq _ _ _ eq_refl eval_teamSize).
  rewrite (accepts_trimmed Server.check_repName rq _ _ _ eq_refl (eval_isLength 3 50)).
  rewrite (accepts_trimmed Server.check_repId rq _ _ _ eq_refl eval_repId).
  rewrite (accepts_trimmed Server.check_repEmail rq _ _ _ eq_refl eval_isEmail).
  rewrite (accepts_trimmed Server.check_courseCode rq _ _ _ eq_refl eval_courseCode).
  rewrite (accepts_as_it_came Server.check_category rq _ _ _ eq_refl eval_notEmpty).
  rewrite (accepts_as_it_came Server.check_projectType rq _ _ _ eq_refl eval_notEmpty).
  rewrite (accepts_trimmed Server.check_projectName rq _ _ _ eq_refl (eval_isLength 3 60)).
  rewrite (accepts_trimmed Server.check_projectDesc rq _ _ _ eq_refl (eval_isLength 10 400)).
  change (field Server.check_teamName) with "teamName".
  change (field Server.check_teamSize) with "teamSize".
  change (field Server.check_repName) with "repName".
  change (field Server.check_repId) with "repId".
  change (field Server.check_repEmail) with "repEmail".
  change (field Server.check_courseCode) with "courseCode".
  change (field Server.check_category) with "category".
  change (field Server.check_projectType) with "projectType".
  change (field Server.check_projectName) with "projectName".
  change (field Server.check_projectDesc) with "projectDesc".
  split; [tauto|]. intros (?&?&?&?&?&?&?&?&?&?). repeat split; try assumption.
  constructor.
Qed.

(** X3.  [POST /api/contact] accepts a request exactly when every text of
    each field that its validators look at meets the rule of the field:
    after trimming, a first and a last name of 2 to 30 characters by the
    count of [isLength], a mobile of one of the three Saudi forms, a date of
    birth that is not empty, an email that passes [isEmail], a message of
    10 to 1000 characters, and a gender and a language that are not empty.
    The texts of a field are its values wherever the request holds it
    (body, headers, query string), element by element for a list, and the
    empty text when no location holds it; where only the body holds the
    fields, each as one value, that value is the one text. *)
Theorem contact_rule_set (rq : request) :
  (passes Server.contact_validators rq <->
   held rq "firstName" (fun u => length_between 2 30 (trim u)) /\
   held rq "lastName" (fun u => length_between 2 30 (trim u)) /\
   held rq "gender" (fun u => u <> []) /\
   held rq "mobile" (fun u => ascii Shapes.saudi_mobile (trim u)) /\
   held rq "dob" (fun u => trim u <> []) /\
   held rq "email" (fun u => isEmail (trim u) = true) /\
   held rq "language" (fun u => u <> []) /\
   held rq "message" (fun u => length_between 10 1000 (trim u))) /\
  (forall c v, body_borne Server.contact_validators rq ->
     c ∈ Server.contact_validators -> read rq Body (field c) = One v ->
     texts rq (field c) = [toString v]).
Proof.
  split; [apply contact_passes_iff16|].
  intros c v Hb Hc Ev. now apply (texts_body_borne _ rq c v Hb Hc Ev).
Qed.

(** X2.  [POST /api/project] accepts a request exactly when every text of
    each field that its validators look at meets the rule of the field:
    after trimming, a team name and a representative name of 3 to 50
    characters by the count of [isLength], a representative id of 7 digits,
    an email that passes [isEmail], a course code of two or more letters
    followed by two or more digits, a title of 3 to 60 and a description of
    10 to 400 characters; a team size that is an integer numeral between 1
    and 10; a category and a project type that are not empty.  The texts of
    a field are its values wherever the request holds it (body, headers,
    query string), element by element for a list, and the empty text when
    no location holds it; where only the body holds the fields, each as one
    value, that value is the one text. *)
Theorem project_rule_set (rq : request) :
  (passes Server.project_validators rq <->
   held rq "teamName" (fun u => length_between 3 50 (trim u)) /\
   held rq "teamSize" (numeral_between 1 10) /\
   held rq "repName" (fun u => length_between 3 50 (trim u)) /\
   held rq "repId" (fun u => ascii (Shapes.digits 7) (trim u)) /\
   held rq "repEmail" (fun u => isEmail (trim u) = true) /\
   held rq "courseCode" (fun u => ascii Shapes.course_code (trim u)) /\
   held rq "category" (fun u => u <> []) /\
   held rq "projectType" (fun u => u <> []) /\
   held rq "projectName" (fun u => length_between 3 60 (trim u)) /\
   held rq "projectDesc" (fun u => length_between 10 400 (trim u))) /\
  (forall c v, body_borne Server.project_validators rq ->
     c ∈ Server.project_validators -> read rq Body (field c) = One v ->
     texts rq (field c) = [toString v]).
Proof.
  split; [apply project_passes_iff16|].
  intros c v Hb Hc Ev. now apply (texts_body_borne _ rq c v Hb Hc Ev).
Qed.


Lemma in_flat_map_elem {A B} (f : A -> list B) (l : list A) (a : A) (b : B) :
  a ∈ l -> b ∈ f a -> b ∈ flat_map f l.
Proof.
  intros Ha Hb. apply list_elem_of_In, in_flat_map. exists a.
  split; now apply list_elem_of_In.
Qed.

(** The error a chain records for the body. *)
Lemma body_error (c : chain) (rq : request) (vd : validator) (m : string) (v : value) :
  stack c = [Trim; Validate vd m] \/ stack c = [Validate vd m] ->
  looked_at rq (field c) Body = true ->
  read rq Body (field c) = One v -> toString v = [] -> eval vd [] = false ->
  exists e, e ∈ errors_of c rq /\
    err_path e = field c /\ err_msg e = m /\ err_location e = "body".
Proof.
  intros [Hs|Hs] El Ev Et Hvd; unfold errors_of, run_chain; rewrite Hs.
  - rewrite run_trim_validate. cbn [snd]. unfold locations. cbn [flat_map].
    rewrite El, Ev. cbn [map_data]. unfold validate at 1.
    cbn [ivalue values flat_map location_of path_at location_name toString trimmed].
    rewrite Et. change (trim []) with (@nil N). rewrite Hvd.
    eexists. split; [apply list_elem_of_here|]. auto.
  - rewrite run_validate. cbn [snd]. unfold locations. cbn [flat_map].
    rewrite El, Ev. unfold validate at 1.
    cbn [ivalue values flat_map location_of path_at location_name].
    rewrite Et, Hvd.
    eexists. split; [apply list_elem_of_here|]. auto.
Qed.

Lemma lacking_body (rq : request) (f : string) :
  lacking rq f ->
  looked_at rq f Body = true /\ exists v, read rq Body f = One v /\ toString v = [].
Proof.
  intros [Hl|(v & Ev & Hv & Et)]; rewrite looked_at_spec.
  - rewrite !Hl. split; [reflexivity|]. now exists JUndefined.
  - rewrite Ev. split; [|now exists v].
    unfold defined. destruct (decide _) as [E|_]; [congruence | reflexivity].
Qed.


(** Each chain of the two routes is a validator, alone or after [trim],
    which rejects the empty text. *)
Lemma chains_reject_empty (cl : call) :
  isEmail [] = false ->
  Forall (fun c => exists vd m,
            (stack c = [Trim; Validate vd m] \/ stack c = [Validate vd m]) /\
            message_of c = m /\ eval vd [] = false)
         (validators_for cl).
Proof.
  intros He. destruct cl; cbn [validators_for];
    unfold Server.contact_validators, Server.project_validators;
    repeat (constructor;
            [eexists _, _; split;
               [first [left; reflexivity | right; reflexivity]|];
             split; [reflexivity | first [exact He | reflexivity]]|]);
    constructor.
Qed.

Lemma lower_NoDup (cl : call) :
  NoDup (map (fun c => toLowerCase (field c)) (validators_for cl)).
Proof. destruct cl; [apply contact_lower_NoDup | apply project_lower_NoDup]. Qed.

Lemma handle_rejects (o : outcome) (cl : call) (st : store) (e : verror) :
  e ∈ (run_chains (validators_for cl) (request_of cl)).2 ->
  exists es, handle o cl st = (Response 400 (ErrErrors es), st) /\ e ∈ es.
Proof.
  intros He. destruct cl as [rq|rq]; cbn [validators_for request_of handle] in *.
  - unfold post_contact. cbv zeta.
    destruct (run_chains Server.contact_validators rq).2 as [|e0 es] eqn:E.
    + now apply elem_of_nil in He.
    + eexists. split; [reflexivity | exact He].
  - unfold post_project. cbv zeta.
    destruct (run_chains Server.project_validators rq).2 as [|e0 es] eqn:E.
    + now apply elem_of_nil in He.
    + eexists. split; [reflexivity | exact He].
Qed.

(** X4.  Every field a route validates is required of the request: when
    no location of the request holds it, or when the body holds [null] or
    the empty string for it, the response is 400, it carries an error of
    that field in the body with the message of its rule, and nothing is
    written (given that [isEmail] rejects the empty string). *)
Theorem validated_fields_required
  (o : outcome) (cl : call) (st : store) (c : chain) :
  isEmail [] = false ->
  c ∈ validators_for cl ->
  lacking (request_of cl) (field c) ->
  exists es,
    handle o cl st = (Response 400 (ErrErrors es), st) /\
    exists e, e ∈ es /\ err_path e = field c /\ err_msg e = message_of c /\
              err_location e = "body".
Proof.
  intros He Hc Hl.
  pose proof (chains_reject_empty cl He) as Hall. rewrite Forall_forall in Hall.
  destruct (Hall c Hc) as (vd & m & Hs & Hm & Hvd).
  destruct (lacking_body _ _ Hl) as (El & v & Ev & Et).
  destruct (body_error c (request_of cl) vd m v Hs El Ev Et Hvd)
    as (e & Hin & Hp & Hmsg & Hloc).
  assert (e ∈ (run_chains (validators_for cl) (request_of cl)).2) as Hroute.
  { rewrite (run_chains_errors16 _ _ (lower_NoDup cl)).
    now apply (in_flat_map_elem _ _ c). }
  destruct (handle_rejects o cl st e Hroute) as (es & Eh & Hes).
  exists es. split; [exact Eh|]. exists e. rewrite Hm. auto.
Qed.

End WithLib.

Lemma validated_fields_required_witness :
  @isEmail Requests.pattern_lib [] = false /\
  Server.check_gender ∈ validators_for (PostContact (of_body (delete "gender" Requests.contact_ok))) /\
  lacking (of_body (delete "gender" Requests.contact_ok)) "gender" /\
  exists es,
    @handle Requests.pattern_lib Completes
      (PostContact (of_body (delete "gender" Requests.contact_ok))) empty_store
    = (Response 400 (ErrErrors es), empty_store) /\
    exists e, e ∈ es /\ err_path e = "gender" /\
              err_msg e = "please select a gender" /\ err_location e = "body".
Proof.
  assert (@isEmail Requests.pattern_lib [] = false) as He by reflexivity.
  assert (Server.check_gender ∈
          validators_for (PostContact (of_body (delete "gender" Requests.contact_ok))))
    as Hc by (cbn [validators_for]; in_list).
  assert (lacking (of_body (delete "gender" Requests.contact_ok)) "gender") as Hl.
  { left. intros l. destruct l; vm_compute; reflexivity. }
  split; [exact He|]. split; [exact Hc|]. split; [exact Hl|].
  exact (@validated_fields_required Requests.pattern_lib Completes
           (PostContact (of_body (delete "gender" Requests.contact_ok)))
           empty_store Server.check_gender He Hc Hl).
Defined.

(** Fields outside the body, on the model.  A project body without category
    sent to [/api/project?category=cs] passes; a body that meets every rule
    sent to [/api/project?teamName=x] is rejected on the team name of the
    query string; a contact body without gender passes with a header
    [gender: female]; a list of first names is checked element by element,
    and the error carries the element that failed. *)
Example fields_outside_the_body :
  (@run_chains Requests.pattern_lib Server.project_validators
     (Request (delete "category" Requests.project_ok) ∅
              {[ "category" := Requests.str "cs" ]})).2 = [] /\
  map (fun e => (err_path e, err_location e))
    (@run_chains Requests.pattern_lib Server.project_validators
       (Request Requests.project_ok ∅ {[ "teamName" := Requests.str "x" ]})).2
  = [("teamName", "query")] /\
  (@run_chains Requests.pattern_lib Server.contact_validators
     (Request (delete "gender" Requests.contact_ok)
              {[ "gender" := Requests.str "female" ]} ∅)).2 = [] /\
  (@run_chains Requests.pattern_lib Server.contact_validators
     (of_body (<["firstName" := Many [JStr (of_string "Sara"); JStr (of_string "A")]]>
                 Requests.contact_ok))).2
  = [VError (JStr (of_string "A")) "first name must be 2–30 characters"
            "firstName" "body"].
Proof. repeat split; vm_compute; reflexivity. Qed.

End Accepting.

(* ===================================================================== *)
(** ** The forms of the client against the two routes *)

Module Sending.
Import Regex Utf16 Req Express.
Import Validator (validator, IsLength, NotEmpty, Matches, IsEmail, IsInt,
                  item, Trim, Validate, chain, Chain, field, stack, message_of).
Import Api Checked Form.
Import Db (outcome, Completes, Throws).
Import RegexFacts Utf16Facts ExpressFacts RouteFacts Stored Accepting.


Lemma contact_request_fields (form : contactForm) :
  get (contact_request form) "firstName" = One (JStr (trim (firstName form))) /\
  get (contact_request form) "lastName" = One (JStr (trim (lastName form))) /\
  get (contact_request form) "gender" =
    One (JStr (default [] (genderChecked form))) /\
  get (contact_request form) "mobile" = One (JStr (trim (mobile form))) /\
  get (contact_request form) "dob" = One (JStr (trim (dob form))) /\
  get (contact_request form) "email" = One (JStr (trim (email form))) /\
  get (contact_request form) "language" = One (JStr (language form)) /\
  get (contact_request form) "message" = One (JStr (trim (message form))).
Proof. repeat split; vm_compute; reflexivity. Qed.

Lemma project_request_fields (form : projectForm) :
  get (project_request form) "teamName" = One (JStr (trim (teamName form))) /\
  get (project_request form) "teamSize" = teamSize_json (parseInt (teamSize form)) /\
  get (project_request form) "repName" = One (JStr (trim (repName form))) /\
  get (project_request form) "repId" = One (JStr (trim (repId form))) /\
  get (project_request form) "repEmail" = One (JStr (trim (repEmail form))) /\
  get (project_request form) "courseCode" = One (JStr (trim (courseCode form))) /\
  get (project_request form) "category" = One (JStr (category form)) /\
  get (project_request form) "projectType" =
    One (JStr (default [] (projectTypeChecked form))) /\
  get (project_request form) "projectName" = One (JStr (trim (projectName form))) /\
  get (project_request form) "projectDesc" = One (JStr (trim (projectDesc form))).
Proof. repeat split; vm_compute; reflexivity. Qed.

(** What the contact form handler has established when it sends. *)
Lemma contact_errors_nil `{Browser} (form : contactForm) :
  contact_errors form = [] ->
  re_test Client.namePattern (trim (firstName form)) = true /\
  re_test Client.namePattern (trim (lastName form)) = true /\
  re_test Client.mobilePattern (trim (mobile form)) = true /\
  dob form <> [] /\ date_after_now (dob form) = false /\
  trim (email form) <> [] /\
  re_test Client.emailPattern (trim (email form)) = true /\
  language form <> [] /\
  10 <= length (trim (message form)) <= 1000.
Proof.
  unfold contact_errors. intros E.
  apply app_eq_nil in E as [E1 E]. apply app_eq_nil in E as [E2 E].
  apply app_eq_nil in E as [E4 E].
  apply app_eq_nil in E as [E5 E]. apply app_eq_nil in E as [E6 E].
  apply app_eq_nil in E as [E7 E8].
  destruct (re_test Client.namePattern (trim (firstName form))); [|discriminate E1].
  destruct (re_test Client.namePattern (trim (lastName form))); [|discriminate E2].
  destruct (re_test Client.mobilePattern (trim (mobile form))); [|discriminate E4].
  destruct (dob form) as [|d0 d] eqn:Ed; [discriminate E5|].
  destruct (date_after_now (d0 :: d)); [discriminate E5|].
  destruct (trim (email form)) as [|e0 e] eqn:Ee; [discriminate E6|].
  destruct (re_test Client.emailPattern (e0 :: e)); [|discriminate E6].
  destruct (language form) as [|l0 l] eqn:El; [discriminate E7|].
  repeat (split; [first [reflexivity | discriminate]|]).
  destruct (_ || _) eqn:Em; [discriminate E8|].
  apply orb_false_iff in Em as [Em1 Em2].
  apply Nat.ltb_ge in Em1, Em2. lia.
Qed.

(** What the project form handler has established when it sends. *)
Lemma project_errors_nil (form : projectForm) :
  project_errors form = [] ->
  3 <= length (trim (teamName form)) /\
  (exists n, parseInt (teamSize form) = Some n /\ (1 <= n <= 10)%Z) /\
  3 <= length (trim (repName form)) /\
  re_test App.repIdPattern (trim (repId form)) = true /\
  re_test Client.emailPattern (trim (repEmail form)) = true /\
  re_test App.coursePattern (trim (courseCode form)) = true /\
  3 <= length (trim (projectName form)) /\
  category form <> [] /\
  (exists t, projectTypeChecked form = Some t) /\
  10 <= length (trim (projectDesc form)).
Proof.
  unfold project_errors. intros E.
  apply app_eq_nil in E as [E1 E]. apply app_eq_nil in E as [E2 E].
  apply app_eq_nil in E as [E3 E]. apply app_eq_nil in E as [E4 E].
  apply app_eq_nil in E as [E5 E]. apply app_eq_nil in E as [E6 E].
  apply app_eq_nil in E as [E7 E]. apply app_eq_nil in E as [E8 E].
  apply app_eq_nil in E as [E9 E10].
  destruct (length (trim (teamName form)) <? 3)%nat eqn:L1; [discriminate E1|].
  destruct (teamSize_bad (parseInt (teamSize form))) eqn:L2; [discriminate E2|].
  destruct (length (trim (repName form)) <? 3)%nat eqn:L3; [discriminate E3|].
  destruct (re_test App.repIdPattern (trim (repId form))); [|discriminate E4].
  destruct (re_test Client.emailPattern (trim (repEmail form))); [|discriminate E5].
  destruct (re_test App.coursePattern (trim (courseCode form))); [|discriminate E6].
  destruct (length (trim (projectName form)) <? 3)%nat eqn:L7; [discriminate E7|].
  destruct (category form) as [|c0 c] eqn:Ec; [discriminate E8|].
  destruct (projectTypeChecked form) as [t|]; [|discriminate E9].
  destruct (length (trim (projectDesc form)) <? 10)%nat eqn:L10; [discriminate E10|].
  apply Nat.ltb_ge in L1, L3, L7, L10.
  split; [exact L1|]. split.
  { destruct (parseInt (teamSize form)) as [n|]; [|discriminate L2].
    exists n. split; [reflexivity|]. cbn [teamSize_bad] in L2.
    apply orb_false_iff in L2 as [La Lb]. apply Z.ltb_ge in La.
    rewrite Z.gtb_ltb in Lb. apply Z.ltb_ge in Lb. lia. }
  split; [exact L3|]. repeat (split; [first [reflexivity | discriminate]|]).
  split; [exact L7|]. split; [discriminate|]. split; [eauto | exact L10].
Qed.

Section Composed.
Context `{Browser} `{Library}.

Lemma violated_among16 (P : chain -> Prop) (cs : list chain) (rq : request) :
  Forall (fun c => errors_of c rq = [] \/ P c) cs -> Forall P (violated cs rq).
Proof.
  unfold violated. induction 1 as [|c k Hc Hk IH]; [constructor|].
  cbn [List.filter]. destruct (errors_of c rq) eqn:E; [exact IH|].
  constructor; [|exact IH]. destruct Hc as [Hc|Hc]; [discriminate | exact Hc].
Qed.

(** The one text of a field of a request made by [fetch]. *)
Lemma texts_fetched (cs : list chain) (b : gmap string data) (rq : request)
  (c : chain) :
  fetch cs b rq -> c ∈ cs ->
  texts rq (field c) = map toString (values (get b (field c))).
Proof.
  intros (Eb & Eq & Hh) Hc. rewrite Forall_forall in Hh.
  rewrite (texts_body_alone rq (field c)).
  - unfold read. cbn [at_ path_at]. now rewrite Eb.
  - now apply Hh.
  - unfold read. cbn [at_ path_at]. now rewrite Eq.
Qed.

(** A name the pattern of the client accepts meets the rule of the server. *)
Lemma name_accepted (t : ustring) :
  re_test Client.namePattern t = true -> length_between 2 30 t.
Proof.
  intros Ht.
  apply (re_test_narrow_iff Client.namePattern t eq_refl) in Ht as (s & -> & Hs).
  unfold Client.namePattern in Hs.
  apply (Forms.lang_Between_Sym 2 30 CAlpha s ltac:(lia)) in Hs as [Hl _].
  unfold length_between. now rewrite len_of_string.
Qed.

(** A mobile the pattern of the client accepts meets the rule of the server. *)
Lemma mobile_accepted (t : ustring) :
  re_test Client.mobilePattern t = true -> ascii Shapes.saudi_mobile t.
Proof.
  intros Ht.
  apply (re_test_narrow_iff Client.mobilePattern t eq_refl) in Ht as (s & -> & Hs).
  exists s. split; [reflexivity|].
  apply ServerFacts.lang_mobilePattern in Hs as (d & Hd & [-> | ->]);
    exists d; auto.
Qed.

Lemma ascii_pattern (r : regex) (P : string -> Prop) (t : ustring) :
  narrow r = true -> (forall s, lang r s -> P s) ->
  re_test r t = true -> ascii P t.
Proof.
  intros Hr HP Ht. apply (re_test_narrow_iff _ t Hr) in Ht as (s & -> & Hs).
  exists s. split; [reflexivity | now apply HP].
Qed.

Lemma held_one (rq : request) (f : string) (P : ustring -> Prop) (u : ustring) :
  texts rq f = [u] -> held rq f P <-> P u.
Proof.
  intros E. unfold held. rewrite E. split.
  - intros Hh. now apply Forall_inv in Hh.
  - intros Hu. constructor; [exact Hu | constructor].
Qed.

(** X13.  When the contact form handler sends a request, the server can
    reject it only on [gender], [dob], [email] or [message]: the name, mobile
    and language rules of the server are implied by the checks of the
    client.  On [message] only because the client counts the UTF-16 code
    units of the text while [isLength] counts a surrogate pair once and no
    variation selector: for a message without either the three fields are
    all there is.  The server accepts the request when the checked gender
    option has a non-empty value, the date of birth is not white space
    only, the trimmed email passes [isEmail] and the trimmed message has 10
    characters by the count of [isLength]. *)
Theorem contact_form_against_server
  (form : contactForm) (b : gmap string data) (rq : request) :
  contact_submit form = Sent b ->
  fetch Server.contact_validators b rq ->
  Forall (fun c => field c ∈ ["gender"; "dob"; "email"; "message"])
         (violated Server.contact_validators rq) /\
  (plain (trim (message form)) ->
   Forall (fun c => field c ∈ ["gender"; "dob"; "email"])
          (violated Server.contact_validators rq)) /\
  (genderChecked form <> Some [] ->
   trim (dob form) <> [] ->
   isEmail (trim (email form)) = true ->
   10 <= len (trim (message form)) ->
   passes Server.contact_validators rq).
Proof.
  unfold contact_submit. intros Hs Hf.
  destruct (genderChecked form) as [g|] eqn:Hg; [|discriminate Hs].
  destruct (contact_errors form) eqn:E; [|discriminate Hs]. injection Hs as <-.
  apply contact_errors_nil in E as (N1 & N2 & M & D1 & D2 & E1 & E2 & L & Ms).
  destruct (contact_request_fields form)
    as (G1 & G2 & G3 & G4 & G5 & G6 & G7 & G8).
  rewrite Hg in G3. cbn [default] in G3.
  pose proof (texts_fetched _ _ rq Server.check_firstName Hf ltac:(in_list)) as T1.
  pose proof (texts_fetched _ _ rq Server.check_lastName Hf ltac:(in_list)) as T2.
  pose proof (texts_fetched _ _ rq Server.check_gender Hf ltac:(in_list)) as T3.
  pose proof (texts_fetched _ _ rq Server.check_mobile Hf ltac:(in_list)) as T4.
  pose proof (texts_fetched _ _ rq Server.check_dob Hf ltac:(in_list)) as T5.
  pose proof (texts_fetched _ _ rq Server.check_email Hf ltac:(in_list)) as T6.
  pose proof (texts_fetched _ _ rq Server.check_language Hf ltac:(in_list)) as T7.
  pose proof (texts_fetched _ _ rq Server.check_message Hf ltac:(in_list)) as T8.
  change (field Server.check_firstName) with "firstName" in T1.
  change (field Server.check_lastName) with "lastName" in T2.
  change (field Server.check_gender) with "gender" in T3.
  change (field Server.check_mobile) with "mobile" in T4.
  change (field Server.check_dob) with "dob" in T5.
  change (field Server.check_email) with "email" in T6.
  change (field Server.check_language) with "language" in T7.
  change (field Server.check_message) with "message" in T8.
  rewrite G1 in T1. rewrite G2 in T2. rewrite G3 in T3. rewrite G4 in T4.
  rewrite G5 in T5. rewrite G6 in T6. rewrite G7 in T7. rewrite G8 in T8.
  cbn [values map toString] in T1, T2, T3, T4, T5, T6, T7, T8.
  clear G1 G2 G3 G4 G5 G6 G7 G8.
  assert (errors_of Server.check_firstName rq = [] <->
          length_between 2 30 (trim (firstName form))) as A1.
  { rewrite (accepts_trimmed Server.check_firstName rq _ _ _ eq_refl
               (eval_isLength 2 30)), (held_one _ _ _ _ T1), trim_idempotent16.
    reflexivity. }
  assert (errors_of Server.check_lastName rq = [] <->
          length_between 2 30 (trim (lastName form))) as A2.
  { rewrite (accepts_trimmed Server.check_lastName rq _ _ _ eq_refl
               (eval_isLength 2 30)), (held_one _ _ _ _ T2), trim_idempotent16.
    reflexivity. }
  assert (errors_of Server.check_gender rq = [] <-> g <> []) as A3.
  { rewrite (accepts_as_it_came Server.check_gender rq _ _ _ eq_refl eval_notEmpty),
      (held_one _ _ _ _ T3). reflexivity. }
  assert (errors_of Server.check_mobile rq = [] <->
          ascii Shapes.saudi_mobile (trim (mobile form))) as A4.
  { rewrite (accepts_trimmed Server.check_mobile rq _ _ _ eq_refl eval_mobile),
      (held_one _ _ _ _ T4), trim_idempotent16. reflexivity. }
  assert (errors_of Server.check_dob rq = [] <-> trim (dob form) <> []) as A5.
  { rewrite (accepts_trimmed Server.check_dob rq _ _ _ eq_refl eval_notEmpty),
      (held_one _ _ _ _ T5), trim_idempotent16. reflexivity. }
  assert (errors_of Server.check_email rq = [] <->
          isEmail (trim (email form)) = true) as A6.
  { rewrite (accepts_trimmed Server.check_email rq _ _ _ eq_refl eval_isEmail),
      (held_one _ _ _ _ T6), trim_idempotent16. reflexivity. }
  assert (errors_of Server.check_language rq = [] <-> language form <> []) as A7.
  { rewrite (accepts_as_it_came Server.check_language rq _ _ _ eq_refl eval_notEmpty),
      (held_one _ _ _ _ T7). reflexivity. }
  assert (errors_of Server.check_message rq = [] <->
          length_between 10 1000 (trim (message form))) as A8.
  { rewrite (accepts_trimmed Server.check_message rq _ _ _ eq_refl
               (eval_isLength 10 1000)), (held_one _ _ _ _ T8), trim_idempotent16.
    reflexivity. }
  clear T1 T2 T3 T4 T5 T6 T7 T8.
  pose proof (len_le (trim (message form))) as Hle.
  split; [|split].
  - apply violated_among16. unfold Server.contact_validators.
    constructor; [left; apply A1; now apply name_accepted|].
    constructor; [left; apply A2; now apply name_accepted|].
    constructor; [right; in_list|].
    constructor; [left; apply A4; now apply mobile_accepted|].
    constructor; [right; in_list|].
    constructor; [right; in_list|].
    constructor; [left; now apply A7|].
    constructor; [right; in_list | constructor].
  - intros Hplain. apply violated_among16. unfold Server.contact_validators.
    constructor; [left; apply A1; now apply name_accepted|].
    constructor; [left; apply A2; now apply name_accepted|].
    constructor; [right; in_list|].
    constructor; [left; apply A4; now apply mobile_accepted|].
    constructor; [right; in_list|].
    constructor; [right; in_list|].
    constructor; [left; now apply A7|].
    constructor; [|constructor].
    left. apply A8. unfold length_between. rewrite (len_plain _ Hplain). exact Ms.
  - intros Hgv Hd He Hm. apply (passes_iff16 _ _ contact_lower_NoDup).
    unfold Server.contact_validators.
    constructor; [apply A1; now apply name_accepted|].
    constructor; [apply A2; now apply name_accepted|].
    constructor; [apply A3; intros ->; now apply Hgv|].
    constructor; [apply A4; now apply mobile_accepted|].
    constructor; [now apply A5|].
    constructor; [now apply A6|].
    constructor; [now apply A7|].
    constructor; [|constructor].
    apply A8. unfold length_between. lia.
Qed.

(** X14.  When the project form handler sends a request, the team size
    reaches the server as a number between 1 and 10, and the server can
    reject the request only on the team name, the representative name, the
    email, the project type, the title or the description: the client
    checks no upper bound, counts UTF-16 code units where [isLength] counts
    a surrogate pair once and no variation selector, has a wider pattern
    for the email and sends the value of the checked option, which may be
    empty.  The server accepts the request when these six meet its rules.
    The count of [isLength] never exceeds the length the client compares,
    and is that length for a text without pair and without selector. *)
Theorem project_form_against_server
  (form : projectForm) (b : gmap string data) (rq : request) :
  project_submit form = Sent b ->
  fetch Server.project_validators b rq ->
  Forall (fun c => field c ∈ ["teamName"; "repName"; "repEmail"; "projectType";
                              "projectName"; "projectDesc"])
         (violated Server.project_validators rq) /\
  (exists n, get b "teamSize" = One (JNum n) /\ (1 <= n <= 10)%Z) /\
  (length_between 3 50 (trim (teamName form)) ->
   length_between 3 50 (trim (repName form)) ->
   isEmail (trim (repEmail form)) = true ->
   projectTypeChecked form <> Some [] ->
   length_between 3 60 (trim (projectName form)) ->
   length_between 10 400 (trim (projectDesc form)) ->
   passes Server.project_validators rq) /\
  (forall u, len u <= length u /\ (plain u -> len u = length u)).
Proof.
  unfold project_submit. intros Hs Hf.
  destruct (project_errors form) eqn:E; [|discriminate Hs]. injection Hs as <-.
  apply project_errors_nil in E
    as (T1 & (n & Hn & Hb) & R1 & Hid & _ & C & P1 & Hcat & (t & Ht) & D1).
  destruct (project_request_fields form)
    as (G1 & G2 & G3 & G4 & G5 & G6 & G7 & G8 & G9 & G10).
  rewrite Hn in G2. cbn [teamSize_json] in G2.
  rewrite Ht in G8. cbn [default] in G8.
  pose proof (texts_fetched _ _ rq Server.check_teamName Hf ltac:(in_list)) as X1.
  pose proof (texts_fetched _ _ rq Server.check_teamSize Hf ltac:(in_list)) as X2.
  pose proof (texts_fetched _ _ rq Server.check_repName Hf ltac:(in_list)) as X3.
  pose proof (texts_fetched _ _ rq Server.check_repId Hf ltac:(in_list)) as X4.
  pose proof (texts_fetched _ _ rq Server.check_repEmail Hf ltac:(in_list)) as X5.
  pose proof (texts_fetched _ _ rq Server.check_courseCode Hf ltac:(in_list)) as X6.
  pose proof (texts_fetched _ _ rq Server.check_category Hf ltac:(in_list)) as X7.
  pose proof (texts_fetched _ _ rq Server.check_projectType Hf ltac:(in_list)) as X8.
  pose proof (texts_fetched _ _ rq Server.check_projectName Hf ltac:(in_list)) as X9.
  pose proof (texts_fetched _ _ rq Server.check_projectDesc Hf ltac:(in_list)) as X10.
  change (field Server.check_teamName) with "teamName" in X1.
  change (field Server.check_teamSize) with "teamSize" in X2.
  change (field Server.check_repName) with "repName" in X3.
  change (field Server.check_repId) with "repId" in X4.
  change (field Server.check_repEmail) with "repEmail" in X5.
  change (field Server.check_courseCode) with "courseCode" in X6.
  change (field Server.check_category) with "category" in X7.
  change (field Server.check_projectType) with "projectType" in X8.
  change (field Server.check_projectName) with "projectName" in X9.
  change (field Server.check_projectDesc) with "projectDesc" in X10.
  rewrite G1 in X1. rewrite G2 in X2. rewrite G3 in X3. rewrite G4 in X4.
  rewrite G5 in X5. rewrite G6 in X6. rewrite G7 in X7. rewrite G8 in X8.
  rewrite G9 in X9. rewrite G10 in X10.
  cbn [values map toString] in X1, X2, X3, X4, X5, X6, X7, X8, X9, X10.
  assert (errors_of Server.check_teamName rq = [] <->
          length_between 3 50 (trim (teamName form))) as A1.
  { rewrite (accepts_trimmed Server.check_teamName rq _ _ _ eq_refl
               (eval_isLength 3 50)), (held_one _ _ _ _ X1), trim_idempotent16.
    reflexivity. }
  assert (errors_of Server.check_teamSize rq = []) as A2.
  { rewrite (accepts_as_it_came Server.check_teamSize rq _ _ _ eq_refl eval_teamSize),
      (held_one _ _ _ _ X2).
    exists n. split; [|exact Hb].
    rewrite to_number_of_string. apply Numerals.to_number_pretty. }
  assert (errors_of Server.check_repName rq = [] <->
          length_between 3 50 (trim (repName form))) as A3.
  { rewrite (accepts_trimmed Server.check_repName rq _ _ _ eq_refl
               (eval_isLength 3 50)), (held_one _ _ _ _ X3), trim_idempotent16.
    reflexivity. }
  assert (errors_of Server.check_repId rq = []) as A4.
  { rewrite (accepts_trimmed Server.check_repId rq _ _ _ eq_refl eval_repId),
      (held_one _ _ _ _ X4), trim_idempotent16.
    apply (ascii_pattern App.repIdPattern _ _ eq_refl); [|exact Hid].
    intros s. apply ServerFacts.lang_repId_re. }
  assert (errors_of Server.check_repEmail rq = [] <->
          isEmail (trim (repEmail form)) = true) as A5.
  { rewrite (accepts_trimmed Server.check_repEmail rq _ _ _ eq_refl eval_isEmail),
      (held_one _ _ _ _ X5), trim_idempotent16. reflexivity. }
  assert (errors_of Server.check_courseCode rq = []) as A6.
  { rewrite (accepts_trimmed Server.check_courseCode rq _ _ _ eq_refl eval_courseCode),
      (held_one _ _ _ _ X6), trim_idempotent16.
    apply (ascii_pattern App.coursePattern _ _ eq_refl); [|exact C].
    intros s. apply ServerFacts.lang_courseCode_re. }
  assert (errors_of Server.check_category rq = []) as A7.
  { rewrite (accepts_as_it_came Server.check_category rq _ _ _ eq_refl eval_notEmpty),
      (held_one _ _ _ _ X7). exact Hcat. }
  assert (errors_of Server.check_projectType rq = [] <-> t <> []) as A8.
  { rewrite (accepts_as_it_came Server.check_projectType rq _ _ _ eq_refl eval_notEmpty),
      (held_one _ _ _ _ X8). reflexivity. }
  assert (errors_of Server.check_projectName rq = [] <->
          length_between 3 60 (trim (projectName form))) as A9.
  { rewrite (accepts_trimmed Server.check_projectName rq _ _ _ eq_refl
               (eval_isLength 3 60)), (held_one _ _ _ _ X9), trim_idempotent16.
    reflexivity. }
  assert (errors_of Server.check_projectDesc rq = [] <->
          length_between 10 400 (trim (projectDesc form))) as A10.
  { rewrite (accepts_trimmed Server.check_projectDesc rq _ _ _ eq_refl
               (eval_isLength 10 400)), (held_one _ _ _ _ X10), trim_idempotent16.
    reflexivity. }
  clear X1 X2 X3 X4 X5 X6 X7 X8 X9 X10.
  split; [|split; [|split]].
  - apply violated_among16. unfold Server.project_validators.
    constructor; [right; in_list|].
    constructor; [left; exact A2|].
    constructor; [right; in_list|].
    constructor; [left; exact A4|].
    constructor; [right; in_list|].
    constructor; [left; exact A6|].
    constructor; [left; exact A7|].
    constructor; [right; in_list|].
    constructor; [right; in_list|].
    constructor; [right; in_list | constructor].
  - exists n. auto.
  - intros U1 U2 He Hpt U3 U4. apply (passes_iff16 _ _ project_lower_NoDup).
    unfold Server.project_validators.
    constructor; [now apply A1|].
    constructor; [exact A2|].
    constructor; [now apply A3|].
    constructor; [exact A4|].
    constructor; [now apply A5|].
    constructor; [exact A6|].
    constructor; [exact A7|].
    constructor; [apply A8; intros ->; now apply Hpt|].
    constructor; [now apply A9|].
    constructor; [now apply A10 | constructor].
  - intros u. split; [apply len_le | apply len_plain].
Qed.

End Composed.

(** X13 at a filled contact form. *)
Lemma contact_form_against_server_witness :
  @contact_submit Requests.all_past Requests.contact_filled =
    Sent (contact_request Requests.contact_filled) /\
  fetch Server.contact_validators (contact_request Requests.contact_filled)
    (Request (contact_request Requests.contact_filled) Requests.json_headers ∅) /\
  @passes Requests.pattern_lib Server.contact_validators
    (Request (contact_request Requests.contact_filled) Requests.json_headers ∅).
Proof.
  assert (@contact_submit Requests.all_past Requests.contact_filled =
          Sent (contact_request Requests.contact_filled)) as Hs
    by (vm_compute; reflexivity).
  assert (fetch Server.contact_validators (contact_request Requests.contact_filled)
            (Request (contact_request Requests.contact_filled)
                     Requests.json_headers ∅)) as Hf.
  { split; [reflexivity|]. split; [reflexivity|].
    unfold Server.contact_validators.
    repeat (constructor; [vm_compute; reflexivity|]). constructor. }
  split; [exact Hs|]. split; [exact Hf|].
  refine (proj2 (proj2 (@contact_form_against_server Requests.all_past
                          Requests.pattern_lib _ _ _ Hs Hf)) _ _ _ _).
  - vm_compute. discriminate.
  - vm_compute. discriminate.
  - vm_compute. reflexivity.
  - vm_compute. lia.
Defined.

(** X14 at a filled project form. *)
Lemma project_form_against_server_witness :
  project_submit Requests.project_filled =
    Sent (project_request Requests.project_filled) /\
  fetch Server.project_validators (project_request Requests.project_filled)
    (Request (project_request Requests.project_filled) Requests.json_headers ∅) /\
  exists n, get (project_request Requests.project_filled) "teamSize" = One (JNum n) /\
            (1 <= n <= 10)%Z.
Proof.
  assert (project_submit Requests.project_filled =
          Sent (project_request Requests.project_filled)) as Hs
    by (vm_compute; reflexivity).
  assert (fetch Server.project_validators (project_request Requests.project_filled)
            (Request (project_request Requests.project_filled)
                     Requests.json_headers ∅)) as Hf.
  { split; [reflexivity|]. split; [reflexivity|].
    unfold Server.project_validators.
    repeat (constructor; [vm_compute; reflexivity|]). constructor. }
  split; [exact Hs|]. split; [exact Hf|].
  exact (proj1 (proj2 (@project_form_against_server Requests.pattern_lib _ _ _ Hs Hf))).
Defined.

(** The bounds of X13 are met.  A message of five characters outside the
    basic plane has ten code units: it passes the client and the server
    rejects it.  A date of birth of white space passes the client and is
    rejected by the server.  With no gender checked the listener throws. *)
Example client_passes_server_rejects :
  @contact_submit Requests.all_past Requests.contact_emoji =
    Sent (contact_request Requests.contact_emoji) /\
  map err_path
    (@run_chains Requests.pattern_lib Server.contact_validators
       (Request (contact_request Requests.contact_emoji) Requests.json_headers ∅)).2
  = ["message"] /\
  (exists form,
     form = ContactForm (of_string "Sara") (of_string "Ali") (Some (of_string "female"))
              (of_string "0512345678") (of_string "  ")
              (of_string "sara@example.com") (of_string "en")
              (of_string "hello there!") /\
     @contact_submit Requests.all_past form = Sent (contact_request form) /\
     map err_path
       (@run_chains Requests.pattern_lib Server.contact_validators
          (Request (contact_request form) Requests.json_headers ∅)).2
     = ["dob"]) /\
  @contact_submit Requests.all_past
    (ContactForm (of_string "Sara") (of_string "Ali") None
       (of_string "0512345678") (of_string "2001-05-17")
       (of_string "sara@example.com") (of_string "en") (of_string "hello there!"))
  = Thrown.
Proof.
  split; [vm_compute; reflexivity|]. split; [vm_compute; reflexivity|].
  split; [|vm_compute; reflexivity].
  eexists. split; [reflexivity|]. split; vm_compute; reflexivity.
Qed.

End Sending.

(* ===================================================================== *)
(** ** The two models of a submission agree *)

Module Agreement.
Import Regex Utf16 Req Express.
Import Validator (validator, IsLength, NotEmpty, Matches, IsEmail, IsInt,
                  item, Trim, Validate, chain, Chain, field, stack).
Import Db (outcome, Completes, Throws).
Import Utf16Facts ExpressFacts.

Lemma value_inj (v w : Js.value) : Lift.value v = Lift.value w -> v = w.
Proof.
  destruct v, w; cbn [Lift.value]; intros E; try discriminate; try congruence.
  injection E as E. f_equal. now apply of_string_inj.
Qed.

Lemma toString_lift (v : Js.value) :
  toString (Lift.value v) = of_string (Js.toString v).
Proof. destruct v as [| |[]| |]; reflexivity. Qed.

Section WithLib.
Context (L : Library).

Lemma eval_lift (vd : validator) (s : string) :
  eval vd (of_string s) = @Validator.eval (Lift.library L) vd s.
Proof.
  destruct vd as [lo hi| |r| |lo hi]; cbn [eval Validator.eval].
  - unfold isLength, Validator.isLength. now rewrite len_of_string.
  - unfold isEmpty, Validator.isEmpty. now rewrite length_of_string.
  - apply re_test_of_string.
  - reflexivity.
  - unfold isInt, Validator.isInt.
    now rewrite re_test_of_string, to_number_of_string.
Qed.

Lemma trimmed_lift (v : Js.value) :
  trimmed (Lift.value v) = Lift.value (Js.JStr (Chars.trim (Js.toString v))).
Proof.
  unfold trimmed. cbn [Lift.value]. now rewrite toString_lift, trim_of_string.
Qed.

Lemma getData_body_only (d : data) :
  getData [Instance Body d; Instance Headers (One JUndefined);
           Instance Query (One JUndefined)] = [Instance Body d].
Proof.
  unfold getData, has_value. cbn [List.filter ivalue].
  destruct (defined d); reflexivity.
Qed.

(** On the one instance of a body of the first model the items run as
    [Validator.run_stack] does. *)
Lemma run_stack_lift (f : string) (items : list item) (v : Js.value) :
  run_stack f items
    [Instance Body (Lift.cell v); Instance Headers (One JUndefined);
     Instance Query (One JUndefined)] =
  ([Instance Body (Lift.cell (@Validator.run_stack (Lift.library L) f items v).1);
    Instance Headers (One JUndefined); Instance Query (One JUndefined)],
   map Lift.verror (@Validator.run_stack (Lift.library L) f items v).2).
Proof.
  revert v. induction items as [|[|vd m] k IH]; intros v.
  - reflexivity.
  - cbn [run_stack Validator.run_stack run_item fst snd].
    unfold runs_on. rewrite getData_body_only. cbn [map location_of ivalue].
    decide_locations.
    change (map_data trimmed (Lift.cell v)) with (One (trimmed (Lift.value v))).
    rewrite trimmed_lift.
    change (One (Lift.value (Js.JStr (Chars.trim (Js.toString v)))))
      with (Lift.cell (Js.JStr (Chars.trim (Js.toString v)))).
    rewrite (IH (Js.JStr (Chars.trim (Js.toString v)))). reflexivity.
  - cbn [run_stack Validator.run_stack run_item fst snd].
    rewrite getData_body_only. cbn [flat_map]. rewrite app_nil_r.
    rewrite (IH v). cbn [fst snd]. f_equal.
    unfold validate. cbn [ivalue Lift.cell values flat_map location_of path_at
                          location_name].
    rewrite toString_lift, eval_lift, app_nil_r.
    destruct (Validator.eval vd (Js.toString v)); reflexivity.
Qed.

Lemma selectFields_lift (b : gmap string Js.value) (f : string) :
  selectFields (Lift.request b) f =
  [Instance Body (Lift.cell (Js.get b f)); Instance Headers (One JUndefined);
   Instance Query (One JUndefined)].
Proof.
  unfold selectFields, locations, read, Lift.request, of_body, Lift.body, get.
  cbn [map at_ body headers query path_at].
  rewrite lookup_fmap, !lookup_empty. unfold Js.get.
  destruct (b !! f); reflexivity.
Qed.

Lemma get_lift (b : gmap string Js.value) (f : string) :
  get (Lift.body b) f = Lift.cell (Js.get b f).
Proof.
  unfold get, Lift.body, Js.get. rewrite lookup_fmap.
  destruct (b !! f); reflexivity.
Qed.

Lemma read_lift (b : gmap string Js.value) (f : string) :
  read (Lift.request b) Body f = Lift.cell (Js.get b f).
Proof. apply get_lift. Qed.

(** A chain on a body of the first model does what [Validator.run_chain]
    does. *)
Lemma run_chain_lift (c : chain) (b : gmap string Js.value) :
  run_chain c (Lift.request b) =
  (Lift.request (@Validator.run_chain (Lift.library L) c b).1,
   map Lift.verror (@Validator.run_chain (Lift.library L) c b).2).
Proof.
  unfold run_chain, Validator.run_chain.
  rewrite selectFields_lift, run_stack_lift. cbn [fst snd foldl]. f_equal.
  set (r := (@Validator.run_stack (Lift.library L) (field c) (stack c)
               (Js.get b (field c))).1).
  assert (Hb : write_back (field c) (Lift.request b)
                 (Instance Body (Lift.cell r)) =
               Lift.request (if decide (r = Js.get b (field c)) then b
                             else <[field c := r]> b)).
  { unfold write_back. cbn [ivalue location_of].
    rewrite (read_lift b (field c)).
    destruct (decide (r = Js.get b (field c))) as [E|E].
    - rewrite E. now rewrite decide_True by reflexivity.
    - rewrite decide_False.
      + unfold write, Lift.request, of_body, Lift.body. cbn [body headers query path_at].
        now rewrite fmap_insert.
      + intros E'. apply E. injection E' as E'. now apply value_inj. }
  rewrite Hb.
  set (b' := if decide (r = Js.get b (field c)) then b else <[field c := r]> b).
  unfold write_back. cbn [ivalue location_of].
  unfold read. cbn [at_ Lift.request of_body body headers query].
  unfold get. rewrite !lookup_empty. cbn [default].
  now rewrite !decide_True by reflexivity.
Qed.

Lemma run_chains_lift (cs : list chain) (b : gmap string Js.value) :
  run_chains cs (Lift.request b) =
  (Lift.request (@Validator.run_chains (Lift.library L) cs b).1,
   map Lift.verror (@Validator.run_chains (Lift.library L) cs b).2).
Proof.
  revert b. induction cs as [|c k IH]; intros b; [reflexivity|].
  cbn [run_chains Validator.run_chains]. rewrite run_chain_lift. cbn [fst snd].
  rewrite IH. cbn [fst snd]. now rewrite map_app.
Qed.

Lemma or_else_lift (v : Js.value) :
  or_else (Lift.cell v) (One (JStr [])) = Lift.cell (Js.or_else v (Js.JStr "")).
Proof.
  unfold or_else, Js.or_else.
  destruct v as [| |[]|n|[|a s]]; cbn; try reflexivity.
  destruct (n =? 0)%Z; reflexivity.
Qed.

Lemma contact_params_lift (b : gmap string Js.value) :
  Api.contact_params (Lift.body b) = Lift.contact_row (Server.contact_params b).
Proof.
  unfold Api.contact_params, Server.contact_params, Lift.contact_row.
  cbn [Db.first_name Db.last_name Db.gender Db.mobile Db.dob Db.email
       Db.language Db.message].
  now rewrite !get_lift.
Qed.

Lemma project_params_lift (b : gmap string Js.value) :
  Api.project_params (Lift.body b) = Lift.project_row (Server.project_params b).
Proof.
  unfold Api.project_params, Server.project_params, Lift.project_row.
  cbn [Db.team_name Db.team_size Db.rep_name Db.rep_id Db.rep_email
       Db.other_members Db.course_code Db.category Db.project_type
       Db.project_name Db.description Db.tools].
  now rewrite !get_lift, !or_else_lift.
Qed.

End WithLib.

Lemma max_comm_assoc (a b c : N) : N.max a (N.max b c) = N.max b (N.max a c).
Proof. lia. Qed.

Lemma next_id_lift (t : gmap N Db.project_row) :
  Api.next_id (Lift.project_row <$> t) = Db.next_id t.
Proof.
  unfold Api.next_id, Db.next_id, Api.max_id, Db.max_id. f_equal.
  assert (P : map fst (map_to_list (Lift.project_row <$> t)) ≡ₚ
              map fst (map_to_list t)).
  { rewrite map_to_list_fmap.
    change (map fst (prod_map id Lift.project_row <$> map_to_list t))
      with (fst <$> (prod_map id Lift.project_row <$> map_to_list t)).
    rewrite <- list_fmap_compose.
    assert (E : (fst ∘ prod_map id Lift.project_row) <$> map_to_list t =
                fst <$> map_to_list t)
      by (apply list_fmap_ext; now intros i [k r]).
    now rewrite E. }
  apply (foldr_permutation eq N.max 0%N); [|exact P].
  intros; apply max_comm_assoc.
Qed.

Lemma insert_contact_lift (r : Db.contact_row) (st : Db.store) :
  Api.insert_contact (Lift.contact_row r) (Lift.store st) =
  Lift.store (Db.insert_contact r st).
Proof.
  unfold Api.insert_contact, Db.insert_contact, Lift.store.
  cbn [Api.contact_messages Api.projects Db.contact_messages Db.projects].
  now rewrite map_app.
Qed.

Lemma insert_project_lift (r : Db.project_row) (st : Db.store) :
  Api.insert_project (Lift.project_row r) (Lift.store st) =
  Lift.store (Db.insert_project r st).
Proof.
  unfold Api.insert_project, Db.insert_project, Lift.store.
  cbn [Api.contact_messages Api.projects Db.contact_messages Db.projects].
  now rewrite next_id_lift, fmap_insert.
Qed.

Section Routes.
Context (L : Library).

(** X21.  On a request that carries nothing but a body of scalars whose
    texts are of characters below 256, the two submission routes, with
    [check] looking at every location and at each element of a list and
    with texts of code units, answer and store what they do when taken on
    the body alone: the same status, the same message or the same errors in
    the same order, and the same row in the same table under the same
    identifier. *)
Theorem routes_agree (o : outcome) (b : gmap string Js.value) (st : Db.store) :
  (Lift.response (@Server.post_contact (Lift.library L) o b st).1 =
     Some (Api.post_contact o (Lift.request b) (Lift.store st)).1 /\
   Lift.store (@Server.post_contact (Lift.library L) o b st).2 =
     (Api.post_contact o (Lift.request b) (Lift.store st)).2) /\
  (Lift.response (@Server.post_project (Lift.library L) o b st).1 =
     Some (Api.post_project o (Lift.request b) (Lift.store st)).1 /\
   Lift.store (@Server.post_project (Lift.library L) o b st).2 =
     (Api.post_project o (Lift.request b) (Lift.store st)).2).
Proof.
  unfold Server.post_contact, Server.post_project,
    Api.post_contact, Api.post_project.
  rewrite !run_chains_lift. cbn [fst snd].
  split.
  - destruct (@Validator.run_chains (Lift.library L) Server.contact_validators b)
      as [b' [|e es]]; cbn [fst snd map].
    + destruct o; cbn [fst snd]; split; try reflexivity.
      unfold Lift.request, of_body. cbn [body].
      now rewrite contact_params_lift, insert_contact_lift.
    + split; reflexivity.
  - destruct (@Validator.run_chains (Lift.library L) Server.project_validators b)
      as [b' [|e es]]; cbn [fst snd map].
    + destruct o; cbn [fst snd]; split; try reflexivity.
      unfold Lift.request, of_body. cbn [body].
      now rewrite project_params_lift, insert_project_lift.
    + split; reflexivity.
Qed.

End Routes.
End Agreement.
